(** * Marketplace site: messaging trigger, advertisement contact check,
      admin panel.

    A shallow embedding of the SQL migrations and of the two React
    components that carry the application's logic:

    - [supabase/migrations/20250913183516_little_limit.sql]
      (tables [conversations], [messages]; trigger function
      [set_message_conversation]);
    - the advertisements migration (table constraint
      [check_at_least_one_contact]) and the helper-functions migration
      ([create_advertisement]);
    - [src/components/MessagingModal.tsx] ([fetchConversations],
      [startConversation], [markMessagesAsRead], [sendMessage]);
    - the admin panel page ([fetchData], [logAction], [handleUserAction],
      [handleDeleteAd], [handlePromoteAd] and the rendering of the
      per-user action buttons).

    Modelling conventions.

    - A table is the list of its rows in heap order; [SELECT ... INTO]
      takes the first matching row.
    - A [uuid] is its 128-bit value as a natural number; PostgreSQL
      compares uuids bytewise, which is the order of that number.
    - SQL conditions are evaluated in three-valued logic ([sqlbool]);
      a [WHERE] clause keeps the rows whose condition is TRUE.
    - [gen_random_uuid()] and [now()] are inputs of the statement that
      calls them; PRIMARY KEY, UNIQUE, NOT NULL and CHECK constraints
      are evaluated, and [integer] arithmetic raises on overflow.
    - Foreign keys between the messaging tables and to
      [advertisements] are evaluated: a unique index refuses a row when
      it is written, a foreign key at the end of the statement that
      wrote the referencing column, and a reference that an UPDATE
      leaves as it is is not checked again.  Not evaluated are the
      references to [auth.users], a table of the hosting platform that
      is not part of the repository, and the references of
      [advertisements] and [admin_logs] to [users]; they can only
      refuse a statement that the model lets through.
    - Statements run one after the other; a statement that raises
      leaves the tables as they were.
    - Row-level security: the statements of the admin panel run under
      the policies of [users] and [advertisements], with [auth.uid()]
      of the caller an input.  The policies of [conversations] and
      [messages] are set against the statements of the messaging code
      in a module of their own.
    - The unread counters, [is_read] and the [role], [is_banned] and
      [created_at] of a user are nullable columns with a default; every
      statement of the repository writes a non-NULL value to them, and
      they are modelled without NULL.
    - A remote call of the client returns a reply chosen by the
      environment ([Client.reply]): the statement was applied, an error
      object was returned, or the promise was rejected.  A handler
      returns the new component state, the new database and the trace
      of its requests, toasts and console messages.
    - State that only feeds the display (loading flags, statistics, the
      search box, the joined user of a conversation) is left out.      *)

From Stdlib Require Import List ZArith NArith Bool String Lia.
From Stdlib Require Import Sorted Permutation.
Import ListNotations.

(* ================================================================= *)
(** * Part I: definitions                                             *)
(* ================================================================= *)

Definition uuid := N.
Definition timestamptz := Z.
Bind Scope N_scope with uuid.
Bind Scope Z_scope with timestamptz.

(** ** PostgreSQL primitives *)

Module Pg.

Inductive sqlstate : Type :=
| unique_violation
| foreign_key_violation
| not_null_violation
| check_violation
| numeric_value_out_of_range
| raise_exception (message : string).

Inductive result (A : Type) : Type :=
| Ok (a : A)
| Err (e : sqlstate).
Arguments Ok {A} a.
Arguments Err {A} e.

Definition bind {A B : Type} (r : result A) (k : A -> result B) : result B :=
  match r with
  | Ok a => k a
  | Err e => Err e
  end.

(** Three-valued logic: [None] is NULL. *)
Definition sqlbool := option bool.

Definition sql_eq (x y : option uuid) : sqlbool :=
  match x, y with
  | Some a, Some b => Some (N.eqb a b)
  | _, _ => None
  end.

Definition sql_is_null {A : Type} (x : option A) : sqlbool :=
  match x with
  | None => Some true
  | Some _ => Some false
  end.

Definition sql_is_not_null {A : Type} (x : option A) : sqlbool :=
  match x with
  | None => Some false
  | Some _ => Some true
  end.

Definition sql_and (p q : sqlbool) : sqlbool :=
  match p, q with
  | Some false, _ => Some false
  | _, Some false => Some false
  | Some true, Some true => Some true
  | _, _ => None
  end.

Definition sql_or (p q : sqlbool) : sqlbool :=
  match p, q with
  | Some true, _ => Some true
  | _, Some true => Some true
  | Some false, Some false => Some false
  | _, _ => None
  end.

(** A WHERE clause or an IF keeps what evaluates to TRUE. *)
Definition is_true (p : sqlbool) : bool :=
  match p with
  | Some true => true
  | _ => false
  end.

(** A CHECK constraint rejects only what evaluates to FALSE. *)
Definition check_passes (p : sqlbool) : bool :=
  match p with
  | Some false => false
  | _ => true
  end.

Definition int4_min : Z := -2147483648.
Definition int4_max : Z := 2147483647.

(** [integer + integer]. *)
Definition int4_add (a b : Z) : result Z :=
  let s := (a + b)%Z in
  if ((s <? int4_min) || (int4_max <? s))%Z
  then Err numeric_value_out_of_range
  else Ok s.

(** [ORDER BY]: insertion sort; [before x y] says that [x] has to come
    strictly before [y].  Rows that tie keep some order, which SQL does
    not fix. *)
Fixpoint insert_by {A : Type} (before : A -> A -> bool) (x : A) (l : list A)
  : list A :=
  match l with
  | [] => [x]
  | y :: rest => if before x y then x :: l else y :: insert_by before x rest
  end.

Definition order_by {A : Type} (before : A -> A -> bool) (l : list A) : list A :=
  fold_right (insert_by before) [] l.

End Pg.

Import Pg.

Declare Scope pg_scope.
Delimit Scope pg_scope with pg.
Notation "x <- c ;; k" := (Pg.bind c (fun x => k))
  (at level 61, c at next level, right associativity) : pg_scope.
Notation "' pat <- c ;; k" := (Pg.bind c (fun x => match x with pat => k end))
  (at level 61, pat pattern, c at next level, right associativity) : pg_scope.
Open Scope pg_scope.

(** ** Tables [conversations] and [messages] *)

Module Conversation.
Record t : Type := mk {
  id : uuid;
  user1_id : uuid;
  user2_id : uuid;
  advertisement_id : option uuid;
  last_message_id : option uuid;
  user1_unread_count : Z;
  user2_unread_count : Z;
  created_at : timestamptz;
  updated_at : timestamptz
}.
End Conversation.

Module Message.
Record t : Type := mk {
  id : uuid;
  sender_id : uuid;
  receiver_id : uuid;
  conversation_id : option uuid;
  advertisement_id : option uuid;
  content : string;
  is_read : bool;
  created_at : timestamptz
}.

Definition set_conversation_id (v : option uuid) (m : t) : t :=
  mk (id m) (sender_id m) (receiver_id m) v (advertisement_id m)
     (content m) (is_read m) (created_at m).

Definition set_is_read (v : bool) (m : t) : t :=
  mk (id m) (sender_id m) (receiver_id m) (conversation_id m)
     (advertisement_id m) (content m) v (created_at m).
End Message.

Module Messaging.

Record database : Type := mkdb {
  conversations : list Conversation.t;
  messages : list Message.t
}.

Definition empty : database := mkdb [] [].

(** The trigger's first IF: smaller uuid first. *)
Definition canonical_pair (sender receiver : uuid) : uuid * uuid :=
  if (sender <? receiver)%N then (sender, receiver) else (receiver, sender).

(** The WHERE clause of the trigger's SELECT. *)
Definition lookup_where (user1 user2 : uuid) (new_ad : option uuid)
           (c : Conversation.t) : sqlbool :=
  sql_and
    (sql_and (sql_eq (Some (Conversation.user1_id c)) (Some user1))
             (sql_eq (Some (Conversation.user2_id c)) (Some user2)))
    (sql_or (sql_eq (Conversation.advertisement_id c) new_ad)
            (sql_and (sql_is_null (Conversation.advertisement_id c))
                     (sql_is_null new_ad))).

(** [SELECT id INTO conv_id FROM conversations WHERE ...]:
    [None] is the NULL that is left in [conv_id] when no row matches. *)
Definition select_conversation_id (user1 user2 : uuid) (new_ad : option uuid)
           (tbl : list Conversation.t) : option uuid :=
  option_map Conversation.id
             (find (fun c => is_true (lookup_where user1 user2 new_ad c)) tbl).

(** [UNIQUE(user1_id, user2_id, advertisement_id)]: two rows conflict
    when all three columns are equal and none is NULL. *)
Definition unique_conflict (user1 user2 : uuid) (ad : option uuid)
           (c : Conversation.t) : bool :=
  is_true
    (sql_and
       (sql_and (sql_eq (Some (Conversation.user1_id c)) (Some user1))
                (sql_eq (Some (Conversation.user2_id c)) (Some user2)))
       (sql_eq (Conversation.advertisement_id c) ad)).

(** [advertisement_id uuid REFERENCES advertisements(id)], of both
    tables: NULL refers to nothing; [ads] are the ids in
    [advertisements]. *)
Definition advertisement_fkey (ads : list uuid) (ad : option uuid) : bool :=
  match ad with
  | None => true
  | Some a => existsb (N.eqb a) ads
  end.

(** [INSERT INTO conversations (user1_id, user2_id, advertisement_id)
     VALUES (user1, user2, NEW.advertisement_id) RETURNING id]:
    the other columns take their defaults. *)
Definition insert_conversation (ads : list uuid) (gen : uuid) (now : timestamptz)
           (user1 user2 : uuid) (ad : option uuid)
           (tbl : list Conversation.t) : result (uuid * list Conversation.t) :=
  if existsb (fun c => (Conversation.id c =? gen)%N) tbl
  then Err unique_violation
  else if existsb (unique_conflict user1 user2 ad) tbl
  then Err unique_violation
  else if advertisement_fkey ads ad
  then Ok (gen, tbl ++ [Conversation.mk gen user1 user2 ad None 0 0 now now])
  else Err foreign_key_violation.

(** Lines 148-159: find or create. *)
Definition find_or_create (ads : list uuid) (gen : uuid) (now : timestamptz)
           (user1 user2 : uuid) (ad : option uuid)
           (tbl : list Conversation.t) : result (uuid * list Conversation.t) :=
  match select_conversation_id user1 user2 ad tbl with
  | Some conv_id => Ok (conv_id, tbl)
  | None => insert_conversation ads gen now user1 user2 ad tbl
  end.

(** The SET list of the trigger's UPDATE, on one row. *)
Definition update_metadata_row (user1 user2 : uuid) (NEW : Message.t)
           (now : timestamptz) (c : Conversation.t) : result Conversation.t :=
  n1 <- (if (user1 =? Message.receiver_id NEW)%N
         then int4_add (Conversation.user1_unread_count c) 1
         else Ok (Conversation.user1_unread_count c)) ;;
  n2 <- (if (user2 =? Message.receiver_id NEW)%N
         then int4_add (Conversation.user2_unread_count c) 1
         else Ok (Conversation.user2_unread_count c)) ;;
  Ok (Conversation.mk (Conversation.id c) (Conversation.user1_id c)
        (Conversation.user2_id c) (Conversation.advertisement_id c)
        (Some (Message.id NEW)) n1 n2 (Conversation.created_at c) now).

(** The rows that [UPDATE conversations SET ... WHERE id = conv_id]
    writes. *)
Fixpoint update_metadata_rows (conv_id user1 user2 : uuid) (NEW : Message.t)
         (now : timestamptz) (tbl : list Conversation.t)
  : result (list Conversation.t) :=
  match tbl with
  | [] => Ok []
  | c :: rest =>
      c' <- (if (Conversation.id c =? conv_id)%N
             then update_metadata_row user1 user2 NEW now c
             else Ok c) ;;
      rest' <- update_metadata_rows conv_id user1 user2 NEW now rest ;;
      Ok (c' :: rest')
  end.

(** [conversations_last_message_id_fkey] (lines 61-72), on a row as it
    was and as the UPDATE leaves it: a reference that is NULL or has
    kept its value passes, any other has to name a row of [messages]. *)
Definition last_message_fkey (msgs : list Message.t) (old new : Conversation.t)
  : bool :=
  match Conversation.last_message_id new with
  | None => true
  | Some m =>
      match Conversation.last_message_id old with
      | Some m0 => (m0 =? m)%N || existsb (fun x => (Message.id x =? m)%N) msgs
      | None => existsb (fun x => (Message.id x =? m)%N) msgs
      end
  end.

Fixpoint last_message_fkeys (msgs : list Message.t) (olds news : list Conversation.t)
  : bool :=
  match olds, news with
  | old :: olds', new :: news' =>
      last_message_fkey msgs old new && last_message_fkeys msgs olds' news'
  | _, _ => true
  end.

(** [UPDATE conversations SET ... WHERE id = conv_id] (lines 164-176):
    the rows are written, then the foreign key is checked.  The trigger
    runs BEFORE INSERT, so [msgs] is the messages table without the row
    NEW. *)
Definition update_metadata (msgs : list Message.t) (conv_id user1 user2 : uuid)
           (NEW : Message.t) (now : timestamptz) (tbl : list Conversation.t)
  : result (list Conversation.t) :=
  tbl' <- update_metadata_rows conv_id user1 user2 NEW now tbl ;;
  if last_message_fkeys msgs tbl tbl' then Ok tbl' else Err foreign_key_violation.

(** The trigger function: returns the conversations table after its
    statements and the row NEW that is to be stored. *)
Definition set_message_conversation (ads : list uuid) (gen : uuid)
           (now : timestamptz) (msgs : list Message.t)
           (tbl : list Conversation.t) (NEW : Message.t)
  : result (list Conversation.t * Message.t) :=
  let (user1, user2) :=
    canonical_pair (Message.sender_id NEW) (Message.receiver_id NEW) in
  '(conv_id, tbl1) <-
    find_or_create ads gen now user1 user2 (Message.advertisement_id NEW) tbl ;;
  let NEW' := Message.set_conversation_id (Some conv_id) NEW in
  tbl2 <- update_metadata msgs conv_id user1 user2 NEW' now tbl1 ;;
  Ok (tbl2, NEW').

(** The columns a client supplies in [INSERT INTO messages]. *)
Record message_values : Type := mkvalues {
  v_sender_id : uuid;
  v_receiver_id : uuid;
  v_conversation_id : option uuid;
  v_advertisement_id : option uuid;
  v_content : string
}.

(** [conversation_id uuid REFERENCES conversations(id)]. *)
Definition conversation_fkey (tbl : list Conversation.t) (conv : option uuid) : bool :=
  match conv with
  | None => true
  | Some i => existsb (fun c => (Conversation.id c =? i)%N) tbl
  end.

(** [INSERT INTO messages ... RETURNING *] with the BEFORE INSERT
    trigger: [gen_msg] and [gen_conv] are what [gen_random_uuid()]
    yields for the message id and, if one is created, the conversation
    id.  The trigger runs first; then the row it returns meets the
    primary key and, at the end of the statement, the foreign keys.  An
    error aborts the statement and leaves the database as it was. *)
Definition insert_message (ads : list uuid) (gen_msg gen_conv : uuid)
           (now : timestamptz) (db : database) (v : message_values)
  : result (database * Message.t) :=
  let NEW := Message.mk gen_msg (v_sender_id v) (v_receiver_id v)
               (v_conversation_id v) (v_advertisement_id v) (v_content v)
               false now in
  '(convs, NEW') <-
    set_message_conversation ads gen_conv now (messages db) (conversations db) NEW ;;
  if existsb (fun m => (Message.id m =? Message.id NEW')%N) (messages db)
  then Err unique_violation
  else if conversation_fkey convs (Message.conversation_id NEW')
          && advertisement_fkey ads (Message.advertisement_id NEW')
  then Ok (mkdb convs (messages db ++ [NEW']), NEW')
  else Err foreign_key_violation.
(** The two statements [markMessagesAsRead] sends.
    [UPDATE messages SET is_read = true WHERE conversation_id = ...
     AND receiver_id = ... AND is_read = false]. *)
Definition update_messages_read (conversationId uid : uuid)
           (tbl : list Message.t) : list Message.t :=
  map (fun m =>
         if is_true
              (sql_and
                 (sql_and (sql_eq (Message.conversation_id m) (Some conversationId))
                          (sql_eq (Some (Message.receiver_id m)) (Some uid)))
                 (Some (Bool.eqb (Message.is_read m) false)))
         then Message.set_is_read true m
         else m) tbl.

(** [UPDATE conversations SET userN_unread_count = 0 WHERE id = ...],
    N chosen by [isUser1]. *)
Definition reset_unread_row (isUser1 : bool) (c : Conversation.t) : Conversation.t :=
  Conversation.mk (Conversation.id c) (Conversation.user1_id c)
    (Conversation.user2_id c) (Conversation.advertisement_id c)
    (Conversation.last_message_id c)
    (if isUser1 then 0%Z else Conversation.user1_unread_count c)
    (if isUser1 then Conversation.user2_unread_count c else 0%Z)
    (Conversation.created_at c) (Conversation.updated_at c).

Definition update_unread_count (isUser1 : bool) (conversationId : uuid)
           (tbl : list Conversation.t) : list Conversation.t :=
  map (fun c => if (Conversation.id c =? conversationId)%N
                then reset_unread_row isUser1 c
                else c) tbl.

(** Row with a given primary key. *)
Definition lookup_id (conv_id : uuid) (tbl : list Conversation.t)
  : option Conversation.t :=
  find (fun c => (Conversation.id c =? conv_id)%N) tbl.

(** The statements that the repository runs against the two tables;
    [ads] are the ids in [advertisements] when the insert runs. *)
Inductive statement : Type :=
| InsertMessage (ads : list uuid) (gen_msg gen_conv : uuid) (now : timestamptz)
                (v : message_values)
| UpdateMessagesRead (conversationId uid : uuid)
| UpdateUnreadCount (isUser1 : bool) (conversationId : uuid).

Definition exec (db : database) (s : statement) : database :=
  match s with
  | InsertMessage ads gen_msg gen_conv now v =>
      match insert_message ads gen_msg gen_conv now db v with
      | Ok (db', _) => db'
      | Err _ => db
      end
  | UpdateMessagesRead conversationId uid =>
      mkdb (conversations db) (update_messages_read conversationId uid (messages db))
  | UpdateUnreadCount isUser1 conversationId =>
      mkdb (update_unread_count isUser1 conversationId (conversations db)) (messages db)
  end.

Definition run (db : database) (l : list statement) : database :=
  fold_left exec l db.

(** The columns of the UNIQUE constraint. *)
Definition key (c : Conversation.t) : uuid * uuid * option uuid :=
  (Conversation.user1_id c, Conversation.user2_id c, Conversation.advertisement_id c).

(** What [conversations_last_message_id_fkey] keeps true of the two
    tables: a conversation's last message, if it has one, is a stored
    message. *)
Definition referential (db : database) : Prop :=
  forall c m,
    In c (conversations db) ->
    Conversation.last_message_id c = Some m ->
    In m (map Message.id (messages db)).

End Messaging.

(** Sample data. *)
Module Sample.
Import Messaging.

Definition alice : uuid := 3%N.
Definition bob : uuid := 7%N.
Definition chair : uuid := 50%N.

(** The advertisements table holds the chair. *)
Definition ads : list uuid := [chair].

Definition hello : message_values := mkvalues bob alice None (Some chair) "Hello".

(** What the client sends in a session: two messages, a read-state
    reset, two more messages. *)
Definition chat : list statement :=
  [ InsertMessage ads 100 200 1 hello;
    InsertMessage ads 101 201 2 (mkvalues alice bob (Some 999%N) (Some chair) "Hi");
    UpdateMessagesRead 200 alice;
    UpdateUnreadCount true 200;
    InsertMessage ads 102 202 3 (mkvalues bob alice None None "Other");
    InsertMessage ads 103 203 4 (mkvalues bob alice None (Some chair) "Again") ].

(** Tables as they would be with a conversation between Alice and Bob
    about the chair, one without an advertisement, and four messages. *)
Definition tables : database :=
  mkdb
    [ Conversation.mk 200 alice bob (Some chair) (Some 103%N) 1 1 1 4;
      Conversation.mk 202 alice bob None (Some 102%N) 1 0 3 3 ]
    [ Message.mk 100 bob alice (Some 200%N) (Some chair) "Hello" true 1;
      Message.mk 101 alice bob (Some 200%N) (Some chair) "Hi" false 2;
      Message.mk 102 bob alice (Some 202%N) None "Other" false 3;
      Message.mk 103 bob alice (Some 200%N) (Some chair) "Again" false 4 ].

End Sample.

(** ** Users *)

Module Role.
(** [CREATE TYPE user_role AS ENUM ('user', 'vip', 'moderator', 'admin',
    'Legend')]. *)
Inductive t : Type := user | vip | moderator | admin | Legend.

Definition eqb (a b : t) : bool :=
  match a, b with
  | user, user | vip, vip | moderator, moderator | admin, admin
  | Legend, Legend => true
  | _, _ => false
  end.

Definition name (r : t) : string :=
  match r with
  | user => "user"
  | vip => "vip"
  | moderator => "moderator"
  | admin => "admin"
  | Legend => "Legend"
  end.
End Role.

Module User.
Record t : Type := mk {
  id : uuid;
  nickname : string;
  password_hash : string;
  role : Role.t;
  is_banned : bool;
  created_at : timestamptz
}.
End User.

(** ** Remote calls of the client *)

Module Client.
(** How an awaited call on the database client ends: the statement ran,
    an error object came back (nothing ran), or the promise was
    rejected (nothing ran, control goes to the enclosing catch). *)
Inductive reply : Type := Applied | ErrorReturned | Rejected.
End Client.

(** ** [MessagingModal.tsx] *)

Module MessagingModal.
Import Client.

Inductive call : Type :=
| InsertInto_messages (v : Messaging.message_values)
| Update_messages_read (conversationId uid : uuid)
| Update_conversations_unread (isUser1 : bool) (conversationId : uuid)
| Select_conversations (uid : uuid).

Inductive event : Type :=
| request (c : call)
| toast_error (text : string)
| console_error (text : string).

(** The component's state ([useAuth] and the [useState] cells that the
    handlers read or write). *)
Record state : Type := mkstate {
  user : option User.t;
  conversations : list Conversation.t;
  selectedConversation : option uuid;
  messages : list Message.t;
  newMessage : string
}.

Definition initial (u : option User.t) : state := mkstate u [] None [] "".

Definition set_conversations (l : list Conversation.t) (st : state) : state :=
  mkstate (user st) l (selectedConversation st) (messages st) (newMessage st).

Definition set_selectedConversation (s : option uuid) (st : state) : state :=
  mkstate (user st) (conversations st) s (messages st) (newMessage st).

Definition sent (data : Message.t) (st : state) : state :=
  mkstate (user st) (conversations st) (selectedConversation st)
          (messages st ++ [data]) "".

(** [.order('updated_at', { ascending: false })]. *)
Definition order_by_updated_at_desc (l : list Conversation.t) : list Conversation.t :=
  order_by (fun a b => (Conversation.updated_at b <? Conversation.updated_at a)%Z) l.

(** [.or(`user1_id.eq.${user.id},user2_id.eq.${user.id}`)]. *)
Definition select_conversations (uid : uuid) (tbl : list Conversation.t)
  : list Conversation.t :=
  order_by_updated_at_desc
    (filter (fun c => is_true
                        (sql_or (sql_eq (Some (Conversation.user1_id c)) (Some uid))
                                (sql_eq (Some (Conversation.user2_id c)) (Some uid))))
            tbl).

(** [fetchConversations]: the reply stands for the query together with
    the per-row lookups of the other user, which only feed the display
    and are left out of the rows. *)
Definition fetchConversations (r : reply) (st : state) (db : Messaging.database)
  : state * list event :=
  match user st with
  | None => (st, [])
  | Some u =>
      match r with
      | Applied =>
          (set_conversations
             (select_conversations (User.id u) (Messaging.conversations db)) st,
           [request (Select_conversations (User.id u))])
      | _ =>
          (st, [request (Select_conversations (User.id u));
                toast_error "Помилка завантаження розмов: "])
      end
  end.

(** What the environment decides during a handler that inserts a
    message: the ids in [advertisements], the generated ids, the clock
    and the replies. *)
Record env : Type := mkenv {
  ads : list uuid;
  gen_msg : uuid;
  gen_conv : uuid;
  now : timestamptz;
  insert_reply : reply;
  fetch_reply : reply
}.

(** [supabase.from('messages').insert([...]).select().single()] followed
    by [if (error) throw error]: [None] is the way to the catch. *)
Definition remote_insert (e : env) (db : Messaging.database)
           (v : Messaging.message_values)
  : option (Messaging.database * Message.t) :=
  match insert_reply e with
  | Applied =>
      match Messaging.insert_message (ads e) (gen_msg e) (gen_conv e) (now e) db v with
      | Ok x => Some x
      | Err _ => None
      end
  | _ => None
  end.

Definition greeting : string := "Привіт! Мене цікавить ваше оголошення.".

(** The predicate of [conversations.find] in [startConversation]. *)
Definition with_recipient (uid recipientId : uuid) (conv : Conversation.t) : bool :=
  ((Conversation.user1_id conv =? uid)%N && (Conversation.user2_id conv =? recipientId)%N)
  || ((Conversation.user2_id conv =? uid)%N && (Conversation.user1_id conv =? recipientId)%N).

Definition greeting_values (uid recipientId : uuid) (advertisementId : option uuid)
  : Messaging.message_values :=
  Messaging.mkvalues uid recipientId None advertisementId greeting.

Definition startConversation (e : env) (recipientId : uuid)
           (advertisementId : option uuid) (st : state) (db : Messaging.database)
  : state * Messaging.database * list event :=
  match user st with
  | None => (st, db, [])
  | Some u =>
      match find (with_recipient (User.id u) recipientId) (conversations st) with
      | Some existingConv =>
          (set_selectedConversation (Some (Conversation.id existingConv)) st, db, [])
      | None =>
          let v := greeting_values (User.id u) recipientId advertisementId in
          match remote_insert e db v with
          | None =>
              (st, db, [request (InsertInto_messages v);
                        toast_error "Помилка створення розмови: "])
          | Some (db', data) =>
              let (st1, ev) := fetchConversations (fetch_reply e) st db' in
              (match Message.conversation_id data with
               | Some conv_id => set_selectedConversation (Some conv_id) st1
               | None => st1
               end,
               db', request (InsertInto_messages v) :: ev)
          end
      end
  end.

(** [markMessagesAsRead]: [r1] and [r2] are the replies of the two
    updates; neither result is inspected by the code. *)
Definition markMessagesAsRead (r1 r2 : reply) (conversationId : uuid)
           (st : state) (db : Messaging.database)
  : Messaging.database * list event :=
  match user st with
  | None => (db, [])
  | Some u =>
      let call1 := request (Update_messages_read conversationId (User.id u)) in
      match r1 with
      | Rejected => (db, [call1; console_error "Error marking messages as read:"])
      | _ =>
          let db1 :=
            match r1 with
            | Applied =>
                Messaging.exec db (Messaging.UpdateMessagesRead conversationId (User.id u))
            | _ => db
            end in
          match find (fun c => (Conversation.id c =? conversationId)%N)
                     (conversations st) with
          | None => (db1, [call1])
          | Some conversation =>
              let isUser1 := (Conversation.user1_id conversation =? User.id u)%N in
              let call2 := request (Update_conversations_unread isUser1 conversationId) in
              match r2 with
              | Applied =>
                  (Messaging.exec db1 (Messaging.UpdateUnreadCount isUser1 conversationId),
                   [call1; call2])
              | ErrorReturned => (db1, [call1; call2])
              | Rejected =>
                  (db1, [call1; call2; console_error "Error marking messages as read:"])
              end
          end
      end
  end.

(** [String.prototype.trim]: it strips the WhiteSpace and
    LineTerminator code points from both ends.  A string is held as its
    UTF-8 bytes, so a code point is one, two or three bytes here:
    U+0009 to U+000D and U+0020; U+00A0; U+1680, U+2000 to U+200A,
    U+2028, U+2029, U+202F, U+205F, U+3000 and U+FEFF. *)
Definition is_space (a : Ascii.ascii) : bool :=
  match Ascii.nat_of_ascii a with
  | 9%nat | 10%nat | 11%nat | 12%nat | 13%nat | 32%nat => true
  | _ => false
  end.

Definition byte (n : nat) (a : Ascii.ascii) : bool :=
  Nat.eqb (Ascii.nat_of_ascii a) n.

Definition is_space2 (a b : Ascii.ascii) : bool :=
  byte 194 a && byte 160 b.

Definition is_space3 (a b c : Ascii.ascii) : bool :=
  (byte 225 a && byte 154 b && byte 128 c)
  || (byte 226 a && byte 128 b
      && ((Nat.leb 128 (Ascii.nat_of_ascii c) && Nat.leb (Ascii.nat_of_ascii c) 138)
          || byte 168 c || byte 169 c || byte 175 c))
  || (byte 226 a && byte 129 b && byte 159 c)
  || (byte 227 a && byte 128 b && byte 128 c)
  || (byte 239 a && byte 187 b && byte 191 c).

Fixpoint trim_start (s : string) : string :=
  match s with
  | EmptyString => EmptyString
  | String a rest =>
      if is_space a then trim_start rest
      else
        match rest with
        | String b rest2 =>
            if is_space2 a b then trim_start rest2
            else
              match rest2 with
              | String c rest3 => if is_space3 a b c then trim_start rest3 else s
              | EmptyString => s
              end
        | EmptyString => s
        end
  end.

(** The bytes of a string, last first, and back. *)
Fixpoint reversed (s : string) (acc : list Ascii.ascii) : list Ascii.ascii :=
  match s with
  | EmptyString => acc
  | String a rest => reversed rest (a :: acc)
  end.

Fixpoint restored (l : list Ascii.ascii) (acc : string) : string :=
  match l with
  | [] => acc
  | a :: rest => restored rest (String a acc)
  end.

(** The white space at the end, on the bytes taken last first. *)
Fixpoint drop_space_end (l : list Ascii.ascii) : list Ascii.ascii :=
  match l with
  | [] => []
  | c :: rest =>
      if is_space c then drop_space_end rest
      else
        match rest with
        | b :: rest2 =>
            if is_space2 b c then drop_space_end rest2
            else
              match rest2 with
              | a :: rest3 => if is_space3 a b c then drop_space_end rest3 else l
              | [] => l
              end
        | [] => l
        end
  end.

Definition trim_end (s : string) : string :=
  restored (drop_space_end (reversed s [])) EmptyString.

Definition trim (s : string) : string := trim_end (trim_start s).

(** The row that [sendMessage] inserts: it carries the selected
    conversation's id. *)
Definition message_to_send (uid : uuid) (conversation : Conversation.t)
           (selected : uuid) (text : string) : Messaging.message_values :=
  Messaging.mkvalues uid
    (if (Conversation.user1_id conversation =? uid)%N
     then Conversation.user2_id conversation
     else Conversation.user1_id conversation)
    (Some selected)
    (Conversation.advertisement_id conversation)
    (trim text).

Definition sendMessage (e : env) (st : state) (db : Messaging.database)
  : state * Messaging.database * list event :=
  match user st, selectedConversation st with
  | Some u, Some selected =>
      match trim (newMessage st) with
      | EmptyString => (st, db, [])
      | _ =>
          match find (fun c => (Conversation.id c =? selected)%N) (conversations st) with
          | None => (st, db, [])
          | Some conversation =>
              let v := message_to_send (User.id u) conversation selected (newMessage st) in
              match remote_insert e db v with
              | None =>
                  (st, db, [request (InsertInto_messages v);
                            toast_error "Помилка відправки повідомлення: "])
              | Some (db', data) =>
                  let (st1, ev) := fetchConversations (fetch_reply e) (sent data st) db' in
                  (st1, db', request (InsertInto_messages v) :: ev)
              end
          end
      end
  | _, _ => (st, db, [])
  end.

(** *** What the read-state reset is to achieve *)

Definition addressed_to (conversationId uid : uuid) (m : Message.t) : bool :=
  match Message.conversation_id m with
  | Some c => (c =? conversationId)%N && (Message.receiver_id m =? uid)%N
  | None => false
  end.

(** Between [db] and [db']: the messages of the conversation addressed
    to [uid] are read and the others are as they were; the conversation
    has [uid]'s counter at zero (that of user1 if [uid] is user1, else
    that of user2) and every other column as it was; the other
    conversations are as they were. *)
Definition marked_as_read (conversationId uid : uuid)
           (db db' : Messaging.database) : Prop :=
  Forall2 (fun m m' =>
             (addressed_to conversationId uid m = true ->
              m' = Message.set_is_read true m) /\
             (addressed_to conversationId uid m = false -> m' = m))
          (Messaging.messages db) (Messaging.messages db') /\
  (forall c,
      Messaging.lookup_id conversationId (Messaging.conversations db) = Some c ->
      Messaging.lookup_id conversationId (Messaging.conversations db') =
      Some (Messaging.reset_unread_row
              (Conversation.user1_id c =? uid)%N c)) /\
  (forall i, i <> conversationId ->
             Messaging.lookup_id i (Messaging.conversations db') =
             Messaging.lookup_id i (Messaging.conversations db)).

End MessagingModal.

(** Sample client states. *)
Module SampleModal.
Import MessagingModal.

Definition alice : User.t := User.mk Sample.alice "alice" "x" Role.user false 0.
Definition bob : User.t := User.mk Sample.bob "bob" "y" Role.user false 0.

(** Tables in which Bob has written to Alice about the chair. *)
Definition db1 : Messaging.database :=
  Messaging.mkdb
    [ Conversation.mk 200 Sample.alice Sample.bob (Some Sample.chair)
                      (Some 100%N) 1 0 1 1 ]
    [ Message.mk 100 Sample.bob Sample.alice (Some 200%N) (Some Sample.chair)
                 "Hello" false 1 ].

(** Alice's modal with the list loaded, and as it is when it has just
    been opened. *)
Definition loaded : state :=
  fst (fetchConversations Client.Applied (initial (Some alice)) db1).

Definition just_opened : state := initial (Some alice).


Definition quiet : env :=
  mkenv Sample.ads 110 210 9 Client.Applied Client.Applied.

End SampleModal.

(** ** Table [advertisements] and [create_advertisement] *)

Module Advertisement.
(** A stored row: the NOT NULL columns carry a value. *)
Record t : Type := mk {
  id : uuid;
  user_id : option uuid;
  category : string;
  subcategory : string;
  title : string;
  description : string;
  images : option (list string);
  discord_contact : option string;
  telegram_contact : option string;
  price : option Z;
  is_vip : option bool;
  created_at : option timestamptz
}.

(** A row as a statement proposes it, defaults filled in: every column
    is an SQL value. *)
Record candidate : Type := propose {
  c_id : option uuid;
  c_user_id : option uuid;
  c_category : option string;
  c_subcategory : option string;
  c_title : option string;
  c_description : option string;
  c_images : option (list string);
  c_discord_contact : option string;
  c_telegram_contact : option string;
  c_price : option Z;
  c_is_vip : option bool;
  c_created_at : option timestamptz
}.
End Advertisement.

Module Ads.

(** [CONSTRAINT check_at_least_one_contact CHECK
     (discord_contact IS NOT NULL OR telegram_contact IS NOT NULL)]. *)
Definition check_at_least_one_contact (discord_contact telegram_contact : option string)
  : sqlbool :=
  sql_or (sql_is_not_null discord_contact) (sql_is_not_null telegram_contact).

(** The row constraints of the table, applied to every row an INSERT or
    an UPDATE is about to store: NOT NULL first, then the CHECK. *)
Definition constrain (c : Advertisement.candidate) : result Advertisement.t :=
  match Advertisement.c_id c, Advertisement.c_category c,
        Advertisement.c_subcategory c, Advertisement.c_title c,
        Advertisement.c_description c with
  | Some i, Some cat, Some sub, Some ti, Some de =>
      if check_passes
           (check_at_least_one_contact (Advertisement.c_discord_contact c)
                                       (Advertisement.c_telegram_contact c))
      then Ok (Advertisement.mk i (Advertisement.c_user_id c) cat sub ti de
                 (Advertisement.c_images c) (Advertisement.c_discord_contact c)
                 (Advertisement.c_telegram_contact c) (Advertisement.c_price c)
                 (Advertisement.c_is_vip c) (Advertisement.c_created_at c))
      else Err check_violation
  | _, _, _, _, _ => Err not_null_violation
  end.

Fixpoint distinct (l : list uuid) : bool :=
  match l with
  | [] => true
  | x :: rest => negb (existsb (N.eqb x) rest) && distinct rest
  end.

(** [INSERT INTO advertisements ... RETURNING *]. *)
Definition insert (c : Advertisement.candidate) (tbl : list Advertisement.t)
  : result (Advertisement.t * list Advertisement.t) :=
  row <- constrain c ;;
  if existsb (fun a => (Advertisement.id a =? Advertisement.id row)%N) tbl
  then Err unique_violation
  else Ok (row, tbl ++ [row]).

(** [UPDATE advertisements SET ... WHERE ...], for any SET list and any
    WHERE clause. *)
Fixpoint update_rows (set : Advertisement.t -> Advertisement.candidate)
         (where_ : Advertisement.t -> bool) (tbl : list Advertisement.t)
  : result (list Advertisement.t) :=
  match tbl with
  | [] => Ok []
  | a :: rest =>
      a' <- (if where_ a then constrain (set a) else Ok a) ;;
      rest' <- update_rows set where_ rest ;;
      Ok (a' :: rest')
  end.

Definition update (set : Advertisement.t -> Advertisement.candidate)
           (where_ : Advertisement.t -> bool) (tbl : list Advertisement.t)
  : result (list Advertisement.t) :=
  tbl' <- update_rows set where_ tbl ;;
  if distinct (map Advertisement.id tbl') then Ok tbl' else Err unique_violation.

(** [DELETE FROM advertisements WHERE ...]. *)
Definition delete (where_ : Advertisement.t -> bool) (tbl : list Advertisement.t)
  : list Advertisement.t :=
  filter (fun a => negb (where_ a)) tbl.

(** The parameters of [create_advertisement]. *)
Record create_args : Type := mkargs {
  p_user_id : option uuid;
  p_category : option string;
  p_subcategory : option string;
  p_title : option string;
  p_description : option string;
  p_images : option (list string);
  p_discord : option string;
  p_telegram : option string;
  p_is_vip : option bool;
  p_price : option Z
}.

Definition contact_required : string :=
  "At least one contact (Discord or Telegram) is required".

Definition create_advertisement (gen : uuid) (now : timestamptz) (p : create_args)
           (tbl : list Advertisement.t)
  : result (Advertisement.t * list Advertisement.t) :=
  if is_true (sql_and (sql_is_null (p_discord p)) (sql_is_null (p_telegram p)))
  then Err (raise_exception contact_required)
  else
    insert (Advertisement.propose (Some gen) (p_user_id p) (p_category p)
              (p_subcategory p) (p_title p) (p_description p) (p_images p)
              (p_discord p) (p_telegram p) (p_price p) (p_is_vip p) (Some now))
           tbl.

(** Every way of writing to the table. *)
Inductive statement : Type :=
| Call_create_advertisement (gen : uuid) (now : timestamptz) (p : create_args)
| Insert (c : Advertisement.candidate)
| Update (set : Advertisement.t -> Advertisement.candidate)
         (where_ : Advertisement.t -> bool)
| Delete (where_ : Advertisement.t -> bool).

Definition run_statement (tbl : list Advertisement.t) (s : statement)
  : result (list Advertisement.t) :=
  match s with
  | Call_create_advertisement gen now p =>
      '(_, tbl') <- create_advertisement gen now p tbl ;; Ok tbl'
  | Insert c => '(_, tbl') <- insert c tbl ;; Ok tbl'
  | Update set where_ => update set where_ tbl
  | Delete where_ => Ok (delete where_ tbl)
  end.

(** A statement that raises leaves the table as it was. *)
Definition exec (tbl : list Advertisement.t) (s : statement) : list Advertisement.t :=
  match run_statement tbl s with
  | Ok tbl' => tbl'
  | Err _ => tbl
  end.

Inductive reachable : list Advertisement.t -> Prop :=
| reachable_empty : reachable []
| reachable_exec tbl s : reachable tbl -> reachable (exec tbl s).

Definition has_contact (a : Advertisement.t) : Prop :=
  Advertisement.discord_contact a <> None \/ Advertisement.telegram_contact a <> None.

End Ads.

Module SampleAds.

Definition chair : Ads.create_args :=
  Ads.mkargs (Some Sample.alice) (Some "furniture"%string) (Some "chairs"%string) (Some "Chair"%string)
             (Some "A chair"%string) (Some []) None (Some "@alice"%string) (Some false) None.

Definition table : Ads.create_args :=
  Ads.mkargs (Some Sample.alice) (Some "furniture"%string) (Some "tables"%string) (Some "Table"%string)
             (Some "A table"%string) (Some []) None None (Some false) None.

Definition history : list Ads.statement :=
  [ Ads.Call_create_advertisement 50 1 chair;
    Ads.Call_create_advertisement 51 2 table;
    Ads.Update
      (fun a => Advertisement.propose
                  (Some (Advertisement.id a)) (Advertisement.user_id a)
                  (Some (Advertisement.category a)) (Some (Advertisement.subcategory a))
                  (Some (Advertisement.title a)) (Some (Advertisement.description a))
                  (Advertisement.images a) None None
                  (Advertisement.price a) (Advertisement.is_vip a)
                  (Advertisement.created_at a))
      (fun _ => true) ].

End SampleAds.

(** ** Table [admin_logs] and the admin panel *)

Module AdminLog.
(** The [details] objects that the panel writes (a jsonb column). *)
Inductive details : Type :=
| empty_object
| user_action (action : string) (newRole : option Role.t)
              (target_nickname : option string)
| advertisement (advertisement_id : uuid) (advertisement_title : option string)
                (advertisement_author : option string).

Record t : Type := mk {
  id : uuid;
  admin_id : option uuid;
  action : string;
  target_user_id : option uuid;
  payload : details;
  created_at : timestamptz
}.
End AdminLog.

Module AdminPanel.
Import Client.

Record database : Type := mkdb {
  users : list User.t;
  advertisements : list Advertisement.t;
  admin_logs : list AdminLog.t
}.

(** The object passed to [.update(...)] on [users]. *)
Inductive updateData : Type :=
| no_columns
| set_is_banned (b : bool)
| set_role (r : Role.t).

Definition apply_updateData (d : updateData) (u : User.t) : User.t :=
  match d with
  | no_columns => u
  | set_is_banned b =>
      User.mk (User.id u) (User.nickname u) (User.password_hash u) (User.role u)
              b (User.created_at u)
  | set_role r =>
      User.mk (User.id u) (User.nickname u) (User.password_hash u) r
              (User.is_banned u) (User.created_at u)
  end.

(** [UPDATE users SET ... WHERE id = targetUserId], the statement by
    itself. *)
Definition update_users (d : updateData) (targetUserId : uuid) (tbl : list User.t)
  : list User.t :=
  map (fun u => if (User.id u =? targetUserId)%N then apply_updateData d u else u) tbl.

(** [UPDATE advertisements SET is_vip = ... WHERE id = adId], the
    statement by itself. *)
Definition update_is_vip (v : bool) (adId : uuid) (tbl : list Advertisement.t)
  : result (list Advertisement.t) :=
  Ads.update
    (fun a => Advertisement.propose
                (Some (Advertisement.id a)) (Advertisement.user_id a)
                (Some (Advertisement.category a)) (Some (Advertisement.subcategory a))
                (Some (Advertisement.title a)) (Some (Advertisement.description a))
                (Advertisement.images a) (Advertisement.discord_contact a)
                (Advertisement.telegram_contact a) (Advertisement.price a)
                (Some v) (Advertisement.created_at a))
    (fun a => (Advertisement.id a =? adId)%N) tbl.

(** *** Row-level security policies of [users] and [advertisements]

    [uid] is [auth.uid()] of the caller, NULL when no user context is
    set.  A USING expression filters the rows a statement reaches; a
    row that is written has to make WITH CHECK true. *)

(** [Users can update own profile]: USING and WITH CHECK are the same
    expression, [auth.uid()::text = id::text]. *)
Definition update_own_profile (uid : option uuid) (u : User.t) : sqlbool :=
  sql_eq uid (Some (User.id u)).

(** [UPDATE users SET ... WHERE id = targetUserId] as the caller runs
    it: the rows that pass USING are updated, and a new row that fails
    WITH CHECK makes the statement fail ([None]). *)
Fixpoint update_users_as (uid : option uuid) (d : updateData) (targetUserId : uuid)
         (tbl : list User.t) : option (list User.t) :=
  match tbl with
  | [] => Some []
  | u :: rest =>
      match
        (if (User.id u =? targetUserId)%N && is_true (update_own_profile uid u)
         then
           if is_true (update_own_profile uid (apply_updateData d u))
           then Some (apply_updateData d u)
           else None
         else Some u),
        update_users_as uid d targetUserId rest
      with
      | Some u', Some rest' => Some (u' :: rest')
      | _, _ => None
      end
  end.

(** [Users can update own advertisements] (USING and WITH CHECK) and
    [Users can delete own advertisements]:
    [auth.uid()::text = user_id::text]. *)
Definition own_advertisement (uid : option uuid) (a : Advertisement.t) : sqlbool :=
  sql_eq uid (Advertisement.user_id a).

(** [UPDATE advertisements SET is_vip = ... WHERE id = adId] as the
    caller runs it: only the rows that pass USING are updated.  The new
    row has the [user_id] of the old one, so WITH CHECK holds for it as
    well. *)
Definition update_is_vip_as (uid : option uuid) (v : bool) (adId : uuid)
           (tbl : list Advertisement.t) : result (list Advertisement.t) :=
  Ads.update
    (fun a => Advertisement.propose
                (Some (Advertisement.id a)) (Advertisement.user_id a)
                (Some (Advertisement.category a)) (Some (Advertisement.subcategory a))
                (Some (Advertisement.title a)) (Some (Advertisement.description a))
                (Advertisement.images a) (Advertisement.discord_contact a)
                (Advertisement.telegram_contact a) (Advertisement.price a)
                (Some v) (Advertisement.created_at a))
    (fun a => (Advertisement.id a =? adId)%N && is_true (own_advertisement uid a)) tbl.

(** [DELETE FROM advertisements WHERE id = adId] as the caller runs
    it. *)
Definition delete_as (uid : option uuid) (adId : uuid) (tbl : list Advertisement.t)
  : list Advertisement.t :=
  Ads.delete
    (fun a => (Advertisement.id a =? adId)%N && is_true (own_advertisement uid a)) tbl.

(** [INSERT INTO admin_logs (admin_id, action, target_user_id, details)]. *)
Definition insert_admin_log (gen : uuid) (now : timestamptz) (admin_id : option uuid)
           (action : string) (target_user_id : option uuid)
           (d : AdminLog.details) (tbl : list AdminLog.t)
  : result (list AdminLog.t) :=
  if existsb (fun l => (AdminLog.id l =? gen)%N) tbl
  then Err unique_violation
  else Ok (tbl ++ [AdminLog.mk gen admin_id action target_user_id d now]).

Inductive call : Type :=
| Select_users
| Select_advertisements
| Select_admin_logs
| Update_users (d : updateData) (targetUserId : uuid)
| Delete_advertisements (adId : uuid)
| Update_advertisements_is_vip (v : bool) (adId : uuid)
| Insert_admin_logs (admin_id : option uuid) (action : string)
                    (target_user_id : option uuid) (d : AdminLog.details).

Inductive event : Type :=
| request (c : call)
| toast_success (text : string)
| toast_error (text : string)
| console_error (text : string)
| navigate (path : string).

(** An advertisement as the panel holds it, with the joined
    [users (nickname, role)]. *)
Record ad_entry : Type := mkentry {
  ad : Advertisement.t;
  ad_users : option (string * Role.t)
}.

Record state : Type := mkstate {
  user : option User.t;
  users_list : list User.t;
  advertisements_list : list ad_entry;
  logs : list AdminLog.t
}.

Definition initial (u : option User.t) : state := mkstate u [] [] [].

(** What the environment decides during a handler: the answer to the
    confirm dialog, the replies, the generated id and the clock, and
    [auth.uid()] of the client's session. *)
Record env : Type := mkenv {
  caller : option uuid;
  confirmed : bool;
  primary_reply : reply;
  log_reply : reply;
  gen_log : uuid;
  now : timestamptz;
  users_reply : reply;
  ads_reply : reply;
  logs_reply : reply
}.

(** Modelled from the spec: [hasPermission] of [@/lib/auth] is not among
    the sources.  The spec says that two roles qualify for entry
    ("moderator", "admin"); the panel passes it the list of these two,
    so a user has the permission when their role is in the list. *)
Definition hasPermission (u : User.t) (roles : list Role.t) : bool :=
  existsb (Role.eqb (User.role u)) roles.

(** The guard of the mount effect and of the render. *)
Definition panel_access (u : option User.t) : bool :=
  match u with
  | None => false
  | Some u => hasPermission u [Role.admin; Role.moderator]
  end.

Definition is_admin (u : option User.t) : bool :=
  match u with
  | Some u => Role.eqb (User.role u) Role.admin
  | None => false
  end.

(** The three queries of [fetchData]. *)
Definition select_users (db : database) : list User.t :=
  order_by (fun a b => (User.created_at b <? User.created_at a)%Z) (users db).

Definition newer (a b : option timestamptz) : bool :=
  match a, b with
  | None, Some _ => true
  | Some x, Some y => (y <? x)%Z
  | _, _ => false
  end.

Definition select_advertisements (db : database) : list ad_entry :=
  map (fun a =>
         mkentry a
           (match Advertisement.user_id a with
            | Some uid =>
                option_map (fun u => (User.nickname u, User.role u))
                           (find (fun u => (User.id u =? uid)%N) (users db))
            | None => None
            end))
      (order_by (fun a b => newer (Advertisement.created_at a)
                                  (Advertisement.created_at b))
                (advertisements db)).

Definition select_admin_logs (db : database) : list AdminLog.t :=
  firstn 50
    (order_by (fun a b => (AdminLog.created_at b <? AdminLog.created_at a)%Z)
              (admin_logs db)).

Definition loading_failed : string := "Помилка завантаження даних: ".

(** [data || []]. *)
Definition data_or_empty {A : Type} (r : reply) (data : list A) : list A :=
  match r with
  | Applied => data
  | _ => []
  end.

Definition fetchData (e : env) (st : state) (db : database) : state * list event :=
  match users_reply e with
  | Rejected => (st, [request Select_users; toast_error loading_failed])
  | ru =>
      match ads_reply e with
      | Rejected =>
          (st, [request Select_users; request Select_advertisements;
                toast_error loading_failed])
      | ra =>
          if is_admin (user st)
          then
            match logs_reply e with
            | Rejected =>
                (st, [request Select_users; request Select_advertisements;
                      request Select_admin_logs; toast_error loading_failed])
            | rl =>
                (mkstate (user st)
                         (data_or_empty ru (select_users db))
                         (data_or_empty ra (select_advertisements db))
                         (data_or_empty rl (select_admin_logs db)),
                 [request Select_users; request Select_advertisements;
                  request Select_admin_logs])
            end
          else
            (mkstate (user st)
                     (data_or_empty ru (select_users db))
                     (data_or_empty ra (select_advertisements db))
                     (logs st),
             [request Select_users; request Select_advertisements])
      end
  end.

(** The mount effect. *)
Definition mount (e : env) (st : state) (db : database) : state * list event :=
  if panel_access (user st)
  then fetchData e st db
  else (st, [navigate "/"]).

Definition log_failed : string := "Failed to log action:".

(** [logAction]: the result of the insert is not inspected; a rejected
    promise is caught and reported on the console. *)
Definition logAction (e : env) (actor : option User.t) (action : string)
           (targetUserId : option uuid) (d : option AdminLog.details)
           (db : database) : database * list event :=
  let admin_id := option_map User.id actor in
  let payload := match d with Some x => x | None => AdminLog.empty_object end in
  let sent := request (Insert_admin_logs admin_id action targetUserId payload) in
  match log_reply e with
  | Applied =>
      (match insert_admin_log (gen_log e) (now e) admin_id action targetUserId
                              payload (admin_logs db) with
       | Ok tbl => mkdb (users db) (advertisements db) tbl
       | Err _ => db
       end, [sent])
  | ErrorReturned => (db, [sent])
  | Rejected => (db, [sent; console_error log_failed])
  end.

Definition action_done : string := "Дію виконано успішно".
Definition action_failed : string := "Помилка виконання дії: ".

Definition choose_updateData (action : string) (newRole : option Role.t) : updateData :=
  if String.eqb action "ban" then set_is_banned true
  else if String.eqb action "unban" then set_is_banned false
  else match newRole with
       | Some r => if String.eqb action "role" then set_role r else no_columns
       | None => no_columns
       end.

(** [`${action}${newRole ? `_to_${newRole}` : ''}`]. *)
Definition action_label (action : string) (newRole : option Role.t) : string :=
  match newRole with
  | Some r => (action ++ "_to_" ++ Role.name r)%string
  | None => action
  end.

Definition handleUserAction (e : env) (targetUserId : uuid) (action : string)
           (newRole : option Role.t) (st : state) (db : database)
  : state * database * list event :=
  let updateData := choose_updateData action newRole in
  let sent := request (Update_users updateData targetUserId) in
  match primary_reply e,
        update_users_as (caller e) updateData targetUserId (users db) with
  | Applied, Some users' =>
      let db1 := mkdb users' (advertisements db) (admin_logs db) in
      let (db2, logged) :=
        logAction e (user st) (action_label action newRole) (Some targetUserId)
          (Some (AdminLog.user_action action newRole
                   (option_map User.nickname
                      (find (fun u => (User.id u =? targetUserId)%N) (users_list st)))))
          db1 in
      let (st', fetched) := fetchData e st db2 in
      (st', db2, sent :: logged ++ toast_success action_done :: fetched)
  | _, _ => (st, db, [sent; toast_error action_failed])
  end.

Definition ad_details (adId : uuid) (found : option ad_entry) : AdminLog.details :=
  AdminLog.advertisement adId
    (option_map (fun x => Advertisement.title (ad x)) found)
    (match found with
     | Some x => option_map fst (ad_users x)
     | None => None
     end).

Definition ad_owner (found : option ad_entry) : option uuid :=
  match found with
  | Some x => Advertisement.user_id (ad x)
  | None => None
  end.

Definition ad_deleted : string := "Оголошення видалено".
Definition ad_delete_failed : string := "Помилка видалення оголошення: ".

Definition handleDeleteAd (e : env) (adId : uuid) (st : state) (db : database)
  : state * database * list event :=
  if confirmed e
  then
    let adToDelete :=
      find (fun x => (Advertisement.id (ad x) =? adId)%N) (advertisements_list st) in
    let sent := request (Delete_advertisements adId) in
    match primary_reply e with
    | Applied =>
        let db1 := mkdb (users db)
                        (delete_as (caller e) adId (advertisements db))
                        (admin_logs db) in
        let (db2, logged) :=
          logAction e (user st) "delete_advertisement" (ad_owner adToDelete)
                    (Some (ad_details adId adToDelete)) db1 in
        let (st', fetched) := fetchData e st db2 in
        (st', db2, sent :: logged ++ toast_success ad_deleted :: fetched)
    | _ => (st, db, [sent; toast_error ad_delete_failed])
    end
  else (st, db, []).

Definition vip_removed : string := "VIP статус знято".
Definition vip_granted : string := "Надано VIP статус".
Definition vip_failed : string := "Помилка зміни статусу: ".

Definition handlePromoteAd (e : env) (adId : uuid) (isVip : bool)
           (st : state) (db : database) : state * database * list event :=
  let adToPromote :=
    find (fun x => (Advertisement.id (ad x) =? adId)%N) (advertisements_list st) in
  let sent := request (Update_advertisements_is_vip (negb isVip) adId) in
  match primary_reply e,
        update_is_vip_as (caller e) (negb isVip) adId (advertisements db) with
  | Applied, Ok ads' =>
      let db1 := mkdb (users db) ads' (admin_logs db) in
      let (db2, logged) :=
        logAction e (user st)
                  (if isVip then "demote_advertisement" else "promote_advertisement")
                  (ad_owner adToPromote)
                  (Some (ad_details adId adToPromote)) db1 in
      let (st', fetched) := fetchData e st db2 in
      (st', db2,
       sent :: logged ++ toast_success (if isVip then vip_removed else vip_granted)
            :: fetched)
  | _, _ => (st, db, [sent; toast_error vip_failed])
  end.

(** *** What is rendered *)

Inductive click : Type :=
| UserAction (targetUserId : uuid) (action : string) (newRole : option Role.t)
| PromoteAd (adId : uuid) (isVip : bool)
| DeleteAd (adId : uuid).

Record button : Type := mkbutton {
  onClick : click;
  disabled : bool
}.

(** The buttons of one row of the users tab (lines 379-415). *)
Definition user_row_buttons (u targetUser : User.t) : list button :=
  (if Role.eqb (User.role u) Role.admin
      && negb (Role.eqb (User.role targetUser) Role.admin)
   then [ mkbutton (UserAction (User.id targetUser) "role" (Some Role.vip))
                   (Role.eqb (User.role targetUser) Role.vip);
          mkbutton (UserAction (User.id targetUser) "role" (Some Role.moderator))
                   (Role.eqb (User.role targetUser) Role.moderator) ]
   else [])
  ++
  (if negb (Role.eqb (User.role targetUser) Role.admin)
   then [ mkbutton (UserAction (User.id targetUser)
                               (if User.is_banned targetUser then "unban" else "ban")
                               None)
                   false ]
   else []).

(** The buttons of one row of the advertisements tab.  The search box
    only hides rows; every listed advertisement is taken as shown. *)
Definition ad_row_buttons (x : ad_entry) : list button :=
  [ mkbutton (PromoteAd (Advertisement.id (ad x))
                        (match Advertisement.is_vip (ad x) with
                         | Some b => b
                         | None => false
                         end)) false;
    mkbutton (DeleteAd (Advertisement.id (ad x))) false ].

Inductive tab : Type := stats_tab | users_tab | ads_tab | logs_tab.

Inductive view : Type :=
| access_denied
| panel (tabs : list tab) (export_button : bool) (buttons : list button)
        (shown_logs : option (list AdminLog.t)).

Definition render (st : state) : view :=
  match user st with
  | None => access_denied
  | Some u =>
      if hasPermission u [Role.admin; Role.moderator]
      then
        panel ([stats_tab; users_tab; ads_tab]
                 ++ (if Role.eqb (User.role u) Role.admin then [logs_tab] else []))
              (Role.eqb (User.role u) Role.admin)
              (flat_map (user_row_buttons u) (users_list st)
                 ++ flat_map ad_row_buttons (advertisements_list st))
              (if Role.eqb (User.role u) Role.admin then Some (logs st) else None)
      else access_denied
  end.

Definition handle (e : env) (c : click) (st : state) (db : database)
  : state * database * list event :=
  match c with
  | UserAction targetUserId action newRole =>
      handleUserAction e targetUserId action newRole st db
  | PromoteAd adId isVip => handlePromoteAd e adId isVip st db
  | DeleteAd adId => handleDeleteAd e adId st db
  end.

(** One step of a panel session: the mount effect runs, or an enabled
    button that is on the screen is pressed. *)
Inductive step : state * database -> state * database -> Prop :=
| step_mount e st db :
    step (st, db) (fst (mount e st db), db)
| step_click e st db tabs export_button buttons shown_logs b :
    render st = panel tabs export_button buttons shown_logs ->
    In b buttons ->
    disabled b = false ->
    step (st, db) (fst (handle e (onClick b) st db)).

(** The session of a signed-in (or not) visitor over a users table. *)
Inductive session (u : option User.t) (db0 : database) : state * database -> Prop :=
| session_start : session u db0 (initial u, db0)
| session_step s s' : session u db0 s -> step s s' -> session u db0 s'.

(** The trace of an action whose log append was attempted right after
    the mutation and which ended as a success: the mutation request, the
    log request, at most the console diagnostic of a rejected append,
    the success toast, then the refresh; the action's error toast does
    not occur. *)
Definition audited (e : env) (actor : option User.t) (mutation : call)
           (label : string) (target : option uuid) (d : AdminLog.details)
           (done failed : string) (trace : list event) : Prop :=
  exists diagnostic refresh,
    trace =
      request mutation
        :: request (Insert_admin_logs (option_map User.id actor) label target d)
        :: diagnostic ++ toast_success done :: refresh /\
    ((log_reply e <> Rejected /\ diagnostic = []) \/
     (log_reply e = Rejected /\ diagnostic = [console_error log_failed])) /\
    ~ In (toast_error failed) trace.

(** The users list on the screen never shows as a non-admin someone who
    is an admin in the table. *)
Definition snapshot_ok (st : state) (db : database) : Prop :=
  forall t r,
    In t (users_list st) -> In r (users db) ->
    User.id r = User.id t -> User.role r = Role.admin ->
    User.role t = Role.admin.

(** An update that makes no one an admin. *)
Definition keeps_admins_apart (d : updateData) : Prop :=
  forall x, User.role (apply_updateData d x) = Role.admin -> User.role x = Role.admin.

End AdminPanel.

Module SamplePanel.
Import AdminPanel.

Definition root : User.t := User.mk 1 "root" "h1" Role.admin false 10.
Definition mira : User.t := User.mk 2 "mira" "h2" Role.moderator false 20.
Definition carol : User.t := User.mk 3 "carol" "h3" Role.user false 30.

Definition db0 : database := mkdb [root; mira; carol] [] [].

(** All calls go through; the session is Mira's. *)
Definition fine : env :=
  mkenv (Some 2%N) true Client.Applied Client.Applied 900 40
        Client.Applied Client.Applied Client.Applied.

(** The insert into the audit log comes back with an error. *)
Definition log_refused : env :=
  mkenv (Some 2%N) true Client.Applied Client.ErrorReturned 900 40
        Client.Applied Client.Applied Client.Applied.

(** The insert into the audit log is rejected. *)
Definition log_down : env :=
  mkenv (Some 2%N) true Client.Applied Client.Rejected 900 40
        Client.Applied Client.Applied Client.Applied.

End SamplePanel.

(** ** Row-level security policies of [conversations] and [messages]

    [uid()] is the identity of the caller.  A policy's USING expression
    filters the rows a statement sees; a WITH CHECK expression has to be
    TRUE for a row that is stored, otherwise the statement is refused
    ([None]). *)

Module Policy.
Import Messaging.

(** The expression of the four policies on [conversations]. *)
Definition conversations_policy (uid : uuid) (c : Conversation.t) : sqlbool :=
  sql_or (sql_eq (Some uid) (Some (Conversation.user1_id c)))
         (sql_eq (Some uid) (Some (Conversation.user2_id c))).

(** [users_can_view_their_messages], [users_can_delete_their_messages]. *)
Definition messages_select (uid : uuid) (m : Message.t) : sqlbool :=
  sql_or (sql_eq (Some uid) (Some (Message.sender_id m)))
         (sql_eq (Some uid) (Some (Message.receiver_id m))).

(** [users_can_insert_their_messages]. *)
Definition messages_insert_check (uid : uuid) (m : Message.t) : sqlbool :=
  sql_eq (Some uid) (Some (Message.sender_id m)).

(** [users_can_update_their_messages]. *)
Definition messages_update_using (uid : uuid) (m : Message.t) : sqlbool :=
  sql_eq (Some uid) (Some (Message.receiver_id m)).

Definition visible (uid : uuid) (tbl : list Conversation.t) : list Conversation.t :=
  filter (fun c => is_true (conversations_policy uid c)) tbl.

(** The rows of the trigger's UPDATE as the caller runs it: only
    visible rows are updated.  The new row has the participants of the
    old one, so the policy holds for it as well. *)
Fixpoint update_metadata_rows_as (uid conv_id user1 user2 : uuid) (NEW : Message.t)
         (now : timestamptz) (tbl : list Conversation.t)
  : result (list Conversation.t) :=
  match tbl with
  | [] => Ok []
  | c :: rest =>
      c' <- (if (Conversation.id c =? conv_id)%N
                && is_true (conversations_policy uid c)
             then update_metadata_row user1 user2 NEW now c
             else Ok c) ;;
      rest' <- update_metadata_rows_as uid conv_id user1 user2 NEW now rest ;;
      Ok (c' :: rest')
  end.

(** The foreign key is checked whoever the caller is. *)
Definition update_metadata_as (uid : uuid) (msgs : list Message.t)
           (conv_id user1 user2 : uuid) (NEW : Message.t) (now : timestamptz)
           (tbl : list Conversation.t) : result (list Conversation.t) :=
  tbl' <- update_metadata_rows_as uid conv_id user1 user2 NEW now tbl ;;
  if last_message_fkeys msgs tbl tbl' then Ok tbl' else Err foreign_key_violation.

(** The trigger function run with the rights of the caller (it is not
    SECURITY DEFINER). *)
Definition set_message_conversation_as (uid : uuid) (ads : list uuid) (gen : uuid)
           (now : timestamptz) (msgs : list Message.t)
           (tbl : list Conversation.t) (NEW : Message.t)
  : option (result (list Conversation.t * Message.t)) :=
  let (user1, user2) :=
    canonical_pair (Message.sender_id NEW) (Message.receiver_id NEW) in
  let finish conv_id tbl1 :=
    let NEW' := Message.set_conversation_id (Some conv_id) NEW in
    tbl2 <- update_metadata_as uid msgs conv_id user1 user2 NEW' now tbl1 ;;
    Ok (tbl2, NEW') in
  match select_conversation_id user1 user2 (Message.advertisement_id NEW)
                               (visible uid tbl) with
  | Some conv_id => Some (finish conv_id tbl)
  | None =>
      if is_true (conversations_policy uid
                    (Conversation.mk gen user1 user2 (Message.advertisement_id NEW)
                                     None 0 0 now now))
      then
        Some ('(conv_id, tbl1) <-
                insert_conversation ads gen now user1 user2
                                    (Message.advertisement_id NEW) tbl ;;
              finish conv_id tbl1)
      else None
  end.

(** [INSERT INTO messages] by the caller: the trigger runs first, then
    the insert policy is checked on the row to be stored. *)
Definition insert_message_as (uid : uuid) (ads : list uuid) (gen_msg gen_conv : uuid)
           (now : timestamptz) (db : database) (v : message_values)
  : option (result (database * Message.t)) :=
  let NEW := Message.mk gen_msg (v_sender_id v) (v_receiver_id v)
               (v_conversation_id v) (v_advertisement_id v) (v_content v)
               false now in
  match set_message_conversation_as uid ads gen_conv now (messages db)
                                    (conversations db) NEW with
  | None => None
  | Some (Err e) => Some (Err e)
  | Some (Ok (convs, NEW')) =>
      if is_true (messages_insert_check uid NEW')
      then
        Some (if existsb (fun m => (Message.id m =? Message.id NEW')%N) (messages db)
              then Err unique_violation
              else if conversation_fkey convs (Message.conversation_id NEW')
                      && advertisement_fkey ads (Message.advertisement_id NEW')
              then Ok (mkdb convs (messages db ++ [NEW']), NEW')
              else Err foreign_key_violation)
      else None
  end.

(** The first update of [markMessagesAsRead] as the caller runs it. *)
Definition update_messages_read_as (uid conversationId receiver : uuid)
           (tbl : list Message.t) : list Message.t :=
  map (fun m =>
         if is_true
              (sql_and
                 (sql_and (sql_eq (Message.conversation_id m) (Some conversationId))
                          (sql_eq (Some (Message.receiver_id m)) (Some receiver)))
                 (Some (Bool.eqb (Message.is_read m) false)))
            && is_true (messages_update_using uid m)
         then Message.set_is_read true m
         else m) tbl.

(** The second update of [markMessagesAsRead] as the caller runs it. *)
Definition update_unread_count_as (uid : uuid) (isUser1 : bool)
           (conversationId : uuid) (tbl : list Conversation.t)
  : list Conversation.t :=
  map (fun c => if (Conversation.id c =? conversationId)%N
                   && is_true (conversations_policy uid c)
                then reset_unread_row isUser1 c
                else c) tbl.

End Policy.

(** ** [MessagingModal.tsx]: the message list and the input box *)

Module ModalMore.
Import Client MessagingModal.




End ModalMore.

(** ** More of the advertisements table and of the panel *)

Module AdsMore.

Definition with_is_vip (v : bool) (a : Advertisement.t) : Advertisement.t :=
  Advertisement.mk (Advertisement.id a) (Advertisement.user_id a)
    (Advertisement.category a) (Advertisement.subcategory a)
    (Advertisement.title a) (Advertisement.description a)
    (Advertisement.images a) (Advertisement.discord_contact a)
    (Advertisement.telegram_contact a) (Advertisement.price a)
    (Some v) (Advertisement.created_at a).

(** What a stored table satisfies: the primary key and the contact
    constraint. *)
Definition well_formed (tbl : list Advertisement.t) : Prop :=
  NoDup (map Advertisement.id tbl) /\ Forall Ads.has_contact tbl.

End AdsMore.

Module PanelMore.
Import AdminPanel.

(** The action labels that the panel's buttons write to the log. *)
Definition button_labels : list string :=
  [ "ban"; "unban"; "role_to_vip"; "role_to_moderator";
    "delete_advertisement"; "promote_advertisement"; "demote_advertisement" ]%string.

(** A users row after a session, against the row it was: the panel
    touches the ban flag and the role, and gives no role but vip and
    moderator. *)
Definition moderated (a a' : User.t) : Prop :=
  User.id a' = User.id a /\
  User.nickname a' = User.nickname a /\
  User.password_hash a' = User.password_hash a /\
  User.created_at a' = User.created_at a /\
  (User.role a' = User.role a \/ User.role a' = Role.vip \/
   User.role a' = Role.moderator).

(** The label under which a click is logged. *)
Definition label_of (c : click) : string :=
  match c with
  | UserAction _ action newRole => action_label action newRole
  | PromoteAd _ isVip =>
      if isVip then "demote_advertisement" else "promote_advertisement"
  | DeleteAd _ => "delete_advertisement"
  end.

(** Carol's advertisement, in the table of the sample panel. *)
Definition chair_ad : Advertisement.t :=
  Advertisement.mk 50 (Some 3%N) "furniture" "chairs" "Chair" "A chair"
                   (Some []) None (Some "@carol"%string) None (Some false)
                   (Some 35%Z).

Definition db1 : database :=
  mkdb (users SamplePanel.db0) [chair_ad] [].

(** An environment in which the mutation comes back with an error. *)
Definition refused : env :=
  mkenv (Some 2%N) true Client.ErrorReturned Client.Applied 900 40
        Client.Applied Client.Applied Client.Applied.

(** All calls go through; the session is Carol's, who owns the chair. *)
Definition as_owner : env :=
  mkenv (Some 3%N) true Client.Applied Client.Applied 900 40
        Client.Applied Client.Applied Client.Applied.

End PanelMore.

(* ================================================================= *)
(** * Part II: theorems                                               *)
(* ================================================================= *)

(** ** PostgreSQL primitives *)

Module PgFacts.

Lemma in_insert_by {A : Type} (before : A -> A -> bool) (x y : A) (l : list A) :
  In y (insert_by before x l) <-> y = x \/ In y l.
Proof.
  induction l as [|z l IH]; cbn.
  - intuition.
  - destruct (before x z); cbn; [intuition|]. rewrite IH. intuition.
Qed.

(** [ORDER BY] returns the rows it was given. *)
Lemma in_order_by {A : Type} (before : A -> A -> bool) (y : A) (l : list A) :
  In y (order_by before l) <-> In y l.
Proof.
  unfold order_by. induction l as [|x l IH]; cbn; [tauto|].
  rewrite in_insert_by, IH. intuition.
Qed.

Lemma length_insert_by {A : Type} (before : A -> A -> bool) (x : A) (l : list A) :
  List.length (insert_by before x l) = S (List.length l).
Proof.
  induction l as [|z l IH]; cbn; trivial.
  destruct (before x z); cbn; [trivial | now rewrite IH].
Qed.

Lemma length_order_by {A : Type} (before : A -> A -> bool) (l : list A) :
  List.length (order_by before l) = List.length l.
Proof.
  unfold order_by. induction l as [|x l IH]; cbn; trivial.
  now rewrite length_insert_by, IH.
Qed.

End PgFacts.

(** ** The trigger [set_message_conversation] *)

Module TriggerFacts.
Import Messaging.

Ltac inv H := inversion H; subst; clear H.

Lemma int4_add_ok a b n : int4_add a b = Ok n -> n = (a + b)%Z.
Proof.
  unfold int4_add. destruct (_ || _); intros H; now inv H.
Qed.

Lemma int4_add_in_range a b :
  (int4_min <= a + b <= int4_max)%Z -> int4_add a b = Ok (a + b)%Z.
Proof.
  intros [Hlo Hhi]. unfold int4_add.
  destruct (Z.ltb_spec (a + b) int4_min); [lia|].
  destruct (Z.ltb_spec int4_max (a + b)); [lia|]. reflexivity.
Qed.

(** The WHERE clause of the lookup is NULL-safe equality on the three
    key columns. *)
Lemma lookup_where_key user1 user2 ad c :
  is_true (lookup_where user1 user2 ad c) = true <-> key c = (user1, user2, ad).
Proof.
  unfold lookup_where, key, sql_eq, sql_is_null.
  destruct c as [i u1 u2 a l n1 n2 ca ua]; cbn.
  destruct (N.eqb_spec u1 user1) as [->|N1], (N.eqb_spec u2 user2) as [->|N2];
    destruct a as [a|], ad as [b|]; cbn;
    try destruct (N.eqb_spec a b) as [->|N3]; cbn;
    split; intros H; try discriminate; try reflexivity;
    try (inv H; congruence).
Qed.

Lemma select_some user1 user2 ad tbl conv_id :
  select_conversation_id user1 user2 ad tbl = Some conv_id ->
  exists c, In c tbl /\ Conversation.id c = conv_id /\ key c = (user1, user2, ad).
Proof.
  unfold select_conversation_id.
  destruct (find _ tbl) as [c|] eqn:F; cbn; intros H; inv H.
  apply find_some in F as [Hin Hw].
  exists c. repeat split; trivial. now apply lookup_where_key.
Qed.

Lemma select_none user1 user2 ad tbl :
  select_conversation_id user1 user2 ad tbl = None ->
  forall c, In c tbl -> key c <> (user1, user2, ad).
Proof.
  unfold select_conversation_id.
  destruct (find _ tbl) as [c|] eqn:F; cbn; intros H; inv H.
  intros c Hin Hk.
  pose proof (find_none _ _ F c Hin) as Hf.
  apply lookup_where_key in Hk. congruence.
Qed.

Lemma select_none_iff user1 user2 ad tbl :
  select_conversation_id user1 user2 ad tbl = None <->
  ~ In (user1, user2, ad) (map key tbl).
Proof.
  split.
  - intros H Hin. apply in_map_iff in Hin as (c & Hk & Hin).
    exact (select_none _ _ _ _ H c Hin Hk).
  - intros H. destruct (select_conversation_id user1 user2 ad tbl) eqn:S; trivial.
    apply select_some in S as (c & Hin & _ & Hk).
    exfalso. apply H. rewrite <- Hk. now apply in_map.
Qed.

(** Two rows that agree on an injective column are one row. *)
Lemma NoDup_map_eq {A B : Type} (f : A -> B) (l : list A) (a b : A) :
  NoDup (map f l) -> In a l -> In b l -> f a = f b -> a = b.
Proof.
  induction l as [|x l IH]; cbn; intros ND Ha Hb E; [contradiction|].
  inv ND. destruct Ha as [->|Ha], Hb as [->|Hb]; trivial.
  - exfalso. apply H1. rewrite E. now apply in_map.
  - exfalso. apply H1. rewrite <- E. now apply in_map.
  - now apply IH.
Qed.

Lemma lookup_id_some conv_id tbl c :
  lookup_id conv_id tbl = Some c -> In c tbl /\ Conversation.id c = conv_id.
Proof.
  unfold lookup_id. intros F. apply find_some in F as [Hin E].
  split; trivial. now apply N.eqb_eq.
Qed.

Lemma lookup_id_in tbl c :
  NoDup (map Conversation.id tbl) -> In c tbl ->
  lookup_id (Conversation.id c) tbl = Some c.
Proof.
  intros ND Hin.
  destruct (lookup_id (Conversation.id c) tbl) as [c'|] eqn:F.
  - apply lookup_id_some in F as [Hin' E].
    f_equal. eapply NoDup_map_eq; eauto.
  - unfold lookup_id in F. pose proof (find_none _ _ F c Hin) as Hf.
    cbn in Hf. now rewrite N.eqb_refl in Hf.
Qed.

Lemma existsb_id_false gen tbl :
  existsb (fun c => (Conversation.id c =? gen)%N) tbl = false <->
  ~ In gen (map Conversation.id tbl).
Proof.
  induction tbl as [|c tbl IH]; cbn.
  - tauto.
  - rewrite orb_false_iff, IH, N.eqb_neq. tauto.
Qed.

Lemma existsb_message_id m msgs :
  existsb (fun x => (Message.id x =? m)%N) msgs = true <->
  In m (map Message.id msgs).
Proof.
  rewrite existsb_exists, in_map_iff. split.
  - intros (x & Hx & E). apply N.eqb_eq in E. now exists x.
  - intros (x & E & Hx). exists x. split; trivial. now apply N.eqb_eq.
Qed.

(** *** Find-or-create *)

Lemma insert_conversation_ok ads gen now user1 user2 ad tbl conv_id tbl1 :
  insert_conversation ads gen now user1 user2 ad tbl = Ok (conv_id, tbl1) ->
  conv_id = gen /\
  tbl1 = tbl ++ [Conversation.mk gen user1 user2 ad None 0 0 now now] /\
  existsb (fun c => (Conversation.id c =? gen)%N) tbl = false /\
  advertisement_fkey ads ad = true.
Proof.
  unfold insert_conversation.
  destruct (existsb _ tbl) eqn:E1; [discriminate|].
  destruct (existsb (unique_conflict _ _ _) tbl); [discriminate|].
  destruct (advertisement_fkey ads ad); [|discriminate].
  intros H; inv H. auto.
Qed.

Lemma unique_conflict_key user1 user2 ad c :
  unique_conflict user1 user2 ad c = true -> key c = (user1, user2, ad).
Proof.
  unfold unique_conflict, key, sql_eq.
  destruct c as [i u1 u2 a l n1 n2 ca ua]; cbn.
  destruct (N.eqb_spec u1 user1) as [->|N1], (N.eqb_spec u2 user2) as [->|N2];
    destruct a as [a|], ad as [b|]; cbn;
    try destruct (N.eqb_spec a b) as [->|N3]; cbn; congruence.
Qed.

(** After an unsuccessful lookup the UNIQUE constraint cannot fire: the
    insert fails only on a collision of the generated id or on the
    reference to the advertisement. *)
Lemma insert_after_failed_lookup ads gen now user1 user2 ad tbl :
  select_conversation_id user1 user2 ad tbl = None ->
  existsb (fun c => (Conversation.id c =? gen)%N) tbl = false ->
  advertisement_fkey ads ad = true ->
  insert_conversation ads gen now user1 user2 ad tbl =
  Ok (gen, tbl ++ [Conversation.mk gen user1 user2 ad None 0 0 now now]).
Proof.
  intros S F A. unfold insert_conversation. rewrite F, A.
  destruct (existsb (unique_conflict _ _ _) tbl) eqn:U; trivial.
  apply existsb_exists in U as (c & Hin & Hc).
  apply unique_conflict_key in Hc.
  now pose proof (select_none _ _ _ _ S c Hin Hc).
Qed.

(** The conversation that the trigger resolves is a row of the table
    it was given, or the row it has just created, which has no last
    message. *)
Lemma find_or_create_row ads gen now user1 user2 ad tbl conv_id tbl1 :
  find_or_create ads gen now user1 user2 ad tbl = Ok (conv_id, tbl1) ->
  exists c,
    In c tbl1 /\ Conversation.id c = conv_id /\
    (In c tbl \/ Conversation.last_message_id c = None).
Proof.
  unfold find_or_create.
  destruct (select_conversation_id user1 user2 ad tbl) as [i|] eqn:S.
  - intros H; inv H. apply select_some in S as (c & Hin & E & _).
    exists c. auto.
  - intros H. apply insert_conversation_ok in H as (-> & -> & _ & _).
    eexists. split; [apply in_or_app; right; now left|]. cbn. auto.
Qed.

(** *** The UPDATE of the trigger *)

Lemma update_metadata_row_ok user1 user2 NEW now c c' :
  update_metadata_row user1 user2 NEW now c = Ok c' ->
  Conversation.id c' = Conversation.id c /\
  key c' = key c /\
  Conversation.last_message_id c' = Some (Message.id NEW) /\
  Conversation.updated_at c' = now /\
  Conversation.created_at c' = Conversation.created_at c /\
  Conversation.user1_unread_count c' =
    (if (user1 =? Message.receiver_id NEW)%N
     then Conversation.user1_unread_count c + 1
     else Conversation.user1_unread_count c)%Z /\
  Conversation.user2_unread_count c' =
    (if (user2 =? Message.receiver_id NEW)%N
     then Conversation.user2_unread_count c + 1
     else Conversation.user2_unread_count c)%Z.
Proof.
  unfold update_metadata_row, bind.
  destruct (user1 =? Message.receiver_id NEW)%N;
    destruct (user2 =? Message.receiver_id NEW)%N;
    repeat match goal with
           | |- context [int4_add ?a ?b] =>
               let E := fresh "E" in
               destruct (int4_add a b) eqn:E;
               [apply int4_add_ok in E; subst | discriminate]
           end;
    intros H; inv H; cbn; auto 10.
Qed.

(** The only errors of the row update are those of the two additions. *)
Lemma update_metadata_rows_err conv_id user1 user2 NEW now tbl e :
  update_metadata_rows conv_id user1 user2 NEW now tbl = Err e ->
  e = numeric_value_out_of_range.
Proof.
  induction tbl as [|c tbl IH]; cbn; [discriminate|].
  unfold bind.
  destruct (Conversation.id c =? conv_id)%N.
  - unfold update_metadata_row, bind, int4_add.
    repeat match goal with
           | |- context [if ?b then _ else _] => destruct b
           end; cbn; intros H; try (now inv H);
      destruct (update_metadata_rows _ _ _ _ _ tbl); try (now inv H); auto.
  - destruct (update_metadata_rows _ _ _ _ _ tbl); intros H; [discriminate|].
    inv H. auto.
Qed.

(** A row that the UPDATE writes gets the new message as its last
    message, so the foreign key asks for that message to be stored,
    unless the row referred to it before. *)
Lemma update_metadata_rows_fkey msgs conv_id user1 user2 NEW now tbl tbl' c :
  update_metadata_rows conv_id user1 user2 NEW now tbl = Ok tbl' ->
  last_message_fkeys msgs tbl tbl' = true ->
  In c tbl -> Conversation.id c = conv_id ->
  Conversation.last_message_id c = Some (Message.id NEW) \/
  In (Message.id NEW) (map Message.id msgs).
Proof.
  revert tbl'. induction tbl as [|x tbl IH]; intros tbl' U F Hc E; [destruct Hc|].
  cbn in U. unfold bind in U.
  destruct (N.eqb_spec (Conversation.id x) conv_id) as [Ex|Ex].
  - destruct (update_metadata_row user1 user2 NEW now x) as [x'|] eqn:R;
      [|discriminate].
    destruct (update_metadata_rows _ _ _ _ _ tbl) as [r|] eqn:UR; [|discriminate].
    inv U. cbn in F. apply andb_true_iff in F as [F1 F2].
    destruct Hc as [->|Hc]; [|now apply (IH r)].
    apply update_metadata_row_ok in R as (_ & _ & L & _).
    unfold last_message_fkey in F1. rewrite L in F1.
    destruct (Conversation.last_message_id c) as [m0|].
    + apply orb_true_iff in F1 as [F1|F1].
      * left. f_equal. now apply N.eqb_eq.
      * right. now apply existsb_message_id.
    + right. now apply existsb_message_id.
  - destruct (update_metadata_rows _ _ _ _ _ tbl) as [r|] eqn:UR; [|discriminate].
    inv U. cbn in F. apply andb_true_iff in F as [F1 F2].
    destruct Hc as [->|Hc]; [congruence|now apply (IH r)].
Qed.

Lemma update_metadata_needs_message msgs conv_id user1 user2 NEW now tbl tbl' c :
  update_metadata msgs conv_id user1 user2 NEW now tbl = Ok tbl' ->
  In c tbl -> Conversation.id c = conv_id ->
  Conversation.last_message_id c = Some (Message.id NEW) \/
  In (Message.id NEW) (map Message.id msgs).
Proof.
  unfold update_metadata, bind.
  destruct (update_metadata_rows _ _ _ _ _ tbl) as [r|] eqn:U; [|discriminate].
  destruct (last_message_fkeys msgs tbl r) eqn:F; [|discriminate].
  intros H; inv H. eapply update_metadata_rows_fkey; eauto.
Qed.

(** *** The trigger and the insert *)

(** The trigger returns only for a message that is stored already. *)
Lemma trigger_needs_stored_message ads gen now msgs tbl NEW tbl' NEW' :
  (forall c m, In c tbl -> Conversation.last_message_id c = Some m ->
               In m (map Message.id msgs)) ->
  set_message_conversation ads gen now msgs tbl NEW = Ok (tbl', NEW') ->
  In (Message.id NEW) (map Message.id msgs).
Proof.
  intros R. unfold set_message_conversation.
  destruct (canonical_pair _ _) as [user1 user2]. unfold bind.
  destruct (find_or_create _ _ _ _ _ _ tbl) as [[conv_id tbl1]|] eqn:F;
    [|discriminate].
  destruct (update_metadata _ _ _ _ _ _ tbl1) as [tbl2|] eqn:U; [|discriminate].
  intros _.
  apply find_or_create_row in F as (c & Hc & Ec & Old).
  destruct (update_metadata_needs_message _ _ _ _ _ _ _ _ c U Hc Ec) as [L|L];
    cbn in L; trivial.
  destruct Old as [Old|Old]; [now apply (R c)|congruence].
Qed.

Lemma trigger_keeps_id ads gen now msgs tbl NEW tbl' NEW' :
  set_message_conversation ads gen now msgs tbl NEW = Ok (tbl', NEW') ->
  Message.id NEW' = Message.id NEW.
Proof.
  unfold set_message_conversation.
  destruct (canonical_pair _ _) as [user1 user2]. unfold bind.
  destruct (find_or_create _ _ _ _ _ _ tbl) as [[conv_id tbl1]|]; [|discriminate].
  destruct (update_metadata _ _ _ _ _ _ tbl1); intros H; inv H. reflexivity.
Qed.

(** Where the foreign key holds, every message insert is refused: the
    trigger raises, or it returns for an id that is taken. *)
Lemma insert_message_refused ads gen_msg gen_conv now db v :
  referential db ->
  exists e, insert_message ads gen_msg gen_conv now db v = Err e.
Proof.
  intros R. unfold insert_message, bind.
  destruct (set_message_conversation _ _ _ _ _ _) as [[convs NEW']|e] eqn:T;
    [|now exists e].
  pose proof (trigger_keeps_id _ _ _ _ _ _ _ _ T) as Ei.
  apply trigger_needs_stored_message in T; [|exact R].
  cbn in T. apply existsb_message_id in T.
  rewrite Ei. cbn [Message.id]. rewrite T. now exists unique_violation.
Qed.

Lemma exec_insert_message ads gen_msg gen_conv now db v :
  referential db -> exec db (InsertMessage ads gen_msg gen_conv now v) = db.
Proof.
  intros R. cbn.
  now destruct (insert_message_refused ads gen_msg gen_conv now db v R) as [e ->].
Qed.

Lemma referential_empty : referential empty.
Proof. intros c m []. Qed.

Lemma exec_empty s : exec empty s = empty.
Proof.
  destruct s as [ads gen_msg gen_conv now v|conversationId uid|isUser1 conversationId].
  - apply exec_insert_message, referential_empty.
  - reflexivity.
  - reflexivity.
Qed.

(** How the first IF orders two different users. *)
Lemma canonical_pair_cases sender receiver user1 user2 :
  canonical_pair sender receiver = (user1, user2) ->
  (user1 = sender /\ user2 = receiver /\ (sender < receiver)%N) \/
  (user1 = receiver /\ user2 = sender /\ (receiver <= sender)%N).
Proof.
  unfold canonical_pair.
  destruct (N.ltb_spec sender receiver); intros E; inv E; auto.
Qed.

(** *** The claims about the trigger *)

(** C1: the claim has every message resolved to one conversation row.
    The trigger sets [last_message_id] to the id of a message that is
    not stored yet, which the foreign key refuses: the first message
    that Bob sends to Alice about the chair raises
    [foreign_key_violation], and whatever statements of the repository
    run from the empty tables, in any number and order, both tables
    stay empty, so no message is ever resolved to a conversation row. *)
Theorem no_message_resolves_to_a_conversation :
  insert_message Sample.ads 100 200 1 empty Sample.hello =
    Err foreign_key_violation /\
  run empty Sample.chat = empty /\
  forall l, run empty l = empty.
Proof.
  assert (G : forall l, run empty l = empty).
  { unfold run. induction l as [|s l IH]; cbn [fold_left]; trivial.
    now rewrite exec_empty. }
  split; [reflexivity|]. split; [apply G|exact G].
Qed.

(** The UPDATE raises for a row that did not refer to the new message
    before, when that message is not stored. *)
Lemma update_metadata_refused msgs conv_id user1 user2 NEW now tbl c :
  In c tbl ->
  Conversation.id c = conv_id ->
  Conversation.last_message_id c <> Some (Message.id NEW) ->
  ~ In (Message.id NEW) (map Message.id msgs) ->
  update_metadata msgs conv_id user1 user2 NEW now tbl = Err foreign_key_violation \/
  update_metadata msgs conv_id user1 user2 NEW now tbl =
    Err numeric_value_out_of_range.
Proof.
  intros Hc Ec L M.
  destruct (update_metadata msgs conv_id user1 user2 NEW now tbl) as [tbl'|e] eqn:U.
  - destruct (update_metadata_needs_message _ _ _ _ _ _ _ _ c U Hc Ec);
      contradiction.
  - unfold update_metadata, bind in U.
    destruct (update_metadata_rows _ _ _ _ _ tbl) as [r|e'] eqn:UR.
    + destruct (last_message_fkeys msgs tbl r); inv U. now left.
    + inv U. right. f_equal. eapply update_metadata_rows_err; eauto.
Qed.

(** C2: the claim has the counter of the receiver go up by one.  The
    UPDATE that is to do so gives the conversation a last message that
    is not stored yet.  Where the foreign key holds and the id of the
    new message is not taken, the UPDATE raises for every conversation
    it would write (the foreign key, or the overflow of a counter), and
    the trigger raises: no counter changes. *)
Theorem counter_update_is_refused ads gen now msgs tbl NEW :
  (forall c m, In c tbl -> Conversation.last_message_id c = Some m ->
               In m (map Message.id msgs)) ->
  ~ In (Message.id NEW) (map Message.id msgs) ->
  (exists e, set_message_conversation ads gen now msgs tbl NEW = Err e) /\
  (forall c user1 user2,
      In c tbl ->
      update_metadata msgs (Conversation.id c) user1 user2 NEW now tbl =
        Err foreign_key_violation \/
      update_metadata msgs (Conversation.id c) user1 user2 NEW now tbl =
        Err numeric_value_out_of_range).
Proof.
  intros R M. split.
  - destruct (set_message_conversation ads gen now msgs tbl NEW)
      as [[tbl' NEW']|e] eqn:T; [|now exists e].
    apply trigger_needs_stored_message in T; trivial. contradiction.
  - intros c user1 user2 Hc.
    apply (update_metadata_refused _ _ _ _ _ _ _ c); trivial.
    intros L. apply M. now apply (R c).
Qed.

Lemma counter_update_is_refused_witness :
  (exists e,
      set_message_conversation Sample.ads 210 9 (messages SampleModal.db1)
        (conversations SampleModal.db1)
        (Message.mk 110 Sample.alice Sample.bob (Some 200%N) (Some Sample.chair)
                    "ok" false 9) = Err e) /\
  set_message_conversation Sample.ads 210 9 (messages SampleModal.db1)
    (conversations SampleModal.db1)
    (Message.mk 110 Sample.alice Sample.bob (Some 200%N) (Some Sample.chair)
                "ok" false 9) = Err foreign_key_violation.
Proof.
  split; [|reflexivity].
  apply (counter_update_is_refused Sample.ads 210 9 (messages SampleModal.db1)
           (conversations SampleModal.db1)
           (Message.mk 110 Sample.alice Sample.bob (Some 200%N) (Some Sample.chair)
                       "ok" false 9)).
  - intros c m [<-|[]] E. inversion E. left. reflexivity.
  - cbn. intros [H|[]]. discriminate H.
Defined.

(** C6: the lookup is NULL-safe and, when it finds nothing, the trigger
    inserts a conversation with both counters at zero; but the UPDATE
    that follows raises, and with it the insert of the conversation is
    undone: after the message insert the table has the rows it had. *)
Theorem created_conversation_is_rolled_back ads gen_msg gen_conv now db v :
  referential db ->
  select_conversation_id
    (fst (canonical_pair (v_sender_id v) (v_receiver_id v)))
    (snd (canonical_pair (v_sender_id v) (v_receiver_id v)))
    (v_advertisement_id v) (conversations db) = None ->
  ~ In gen_conv (map Conversation.id (conversations db)) ->
  advertisement_fkey ads (v_advertisement_id v) = true ->
  find_or_create ads gen_conv now
    (fst (canonical_pair (v_sender_id v) (v_receiver_id v)))
    (snd (canonical_pair (v_sender_id v) (v_receiver_id v)))
    (v_advertisement_id v) (conversations db) =
  Ok (gen_conv,
      conversations db ++
      [Conversation.mk gen_conv
         (fst (canonical_pair (v_sender_id v) (v_receiver_id v)))
         (snd (canonical_pair (v_sender_id v) (v_receiver_id v)))
         (v_advertisement_id v) None 0 0 now now]) /\
  (exists e, insert_message ads gen_msg gen_conv now db v = Err e) /\
  exec db (InsertMessage ads gen_msg gen_conv now v) = db.
Proof.
  intros R S G A. split; [|split].
  - unfold find_or_create. rewrite S.
    apply insert_after_failed_lookup; trivial. now apply existsb_id_false.
  - now apply insert_message_refused.
  - now apply exec_insert_message.
Qed.

Lemma created_conversation_is_rolled_back_witness :
  find_or_create Sample.ads 202 3 Sample.alice Sample.bob None
    (conversations SampleModal.db1) =
  Ok (202%N,
      conversations SampleModal.db1 ++
      [Conversation.mk 202 Sample.alice Sample.bob None None 0 0 3 3]) /\
  (exists e,
      insert_message Sample.ads 102 202 3 SampleModal.db1
        (mkvalues Sample.bob Sample.alice None None "Other") = Err e) /\
  exec SampleModal.db1
       (InsertMessage Sample.ads 102 202 3
          (mkvalues Sample.bob Sample.alice None None "Other")) =
  SampleModal.db1.
Proof.
  apply (created_conversation_is_rolled_back Sample.ads 102 202 3 SampleModal.db1
           (mkvalues Sample.bob Sample.alice None None "Other")).
  - intros c m [<-|[]] E. inversion E. left. reflexivity.
  - reflexivity.
  - cbn. intros [H|[]]. discriminate H.
  - reflexivity.
Defined.

End TriggerFacts.

(** ** The messaging modal *)

Module ModalFacts.
Import MessagingModal.
Import PgFacts TriggerFacts.

Lemma Forall2_map_right {A B : Type} (f : A -> B) (l : list A) :
  Forall2 (fun a b => b = f a) l (map f l).
Proof. induction l; cbn; constructor; auto. Qed.

Lemma set_is_read_same m : Message.is_read m = true -> Message.set_is_read true m = m.
Proof. destruct m; cbn; intros ->; reflexivity. Qed.

(** The WHERE clause of the first update is "addressed to the user and
    unread". *)
Lemma update_messages_read_row conversationId uid m :
  is_true
    (sql_and
       (sql_and (sql_eq (Message.conversation_id m) (Some conversationId))
                (sql_eq (Some (Message.receiver_id m)) (Some uid)))
       (Some (Bool.eqb (Message.is_read m) false))) =
  addressed_to conversationId uid m && negb (Message.is_read m).
Proof.
  unfold addressed_to, sql_eq.
  destruct (Message.conversation_id m) as [c|]; cbn.
  - destruct (c =? conversationId)%N, (Message.receiver_id m =? uid)%N,
      (Message.is_read m); reflexivity.
  - destruct (Message.receiver_id m =? uid)%N, (Message.is_read m); reflexivity.
Qed.

Lemma update_messages_read_spec conversationId uid tbl :
  Forall2 (fun m m' =>
             (addressed_to conversationId uid m = true ->
              m' = Message.set_is_read true m) /\
             (addressed_to conversationId uid m = false -> m' = m))
          tbl (Messaging.update_messages_read conversationId uid tbl).
Proof.
  unfold Messaging.update_messages_read.
  eapply Forall2_impl; [|apply Forall2_map_right].
  intros m m' ->. rewrite update_messages_read_row.
  destruct (addressed_to conversationId uid m); cbn.
  - split; [intros _|discriminate].
    destruct (Message.is_read m) eqn:R; cbn; trivial.
    symmetry. now apply set_is_read_same.
  - split; [discriminate|trivial].
Qed.

Lemma lookup_update_unread_count isUser1 conversationId i tbl :
  Messaging.lookup_id i (Messaging.update_unread_count isUser1 conversationId tbl) =
  if (i =? conversationId)%N
  then option_map (Messaging.reset_unread_row isUser1) (Messaging.lookup_id i tbl)
  else Messaging.lookup_id i tbl.
Proof.
  unfold Messaging.lookup_id, Messaging.update_unread_count.
  induction tbl as [|c tbl IH]; cbn.
  - now destruct (i =? conversationId)%N.
  - destruct (N.eqb_spec (Conversation.id c) conversationId) as [E|E]; cbn.
    + destruct (N.eqb_spec (Conversation.id c) i) as [E'|E'].
      * subst i. rewrite E, N.eqb_refl. reflexivity.
      * exact IH.
    + destruct (N.eqb_spec (Conversation.id c) i) as [E'|E'].
      * subst i. now rewrite (proj2 (N.eqb_neq _ _) E).
      * exact IH.
Qed.

(** C3 (amended): for a user whose loaded list holds the conversation,
    marking it as read, both updates applied, sets is_read on the
    messages of the conversation addressed to the user, leaves the other
    messages, sets the user's counter slot (user1's if the user is
    user1, else user2's) to zero and leaves the other counter and the
    other conversations. *)
Theorem mark_as_read_resets_listed_conversation conversationId st db u listed :
  user st = Some u ->
  Messaging.lookup_id conversationId (conversations st) = Some listed ->
  (forall c, Messaging.lookup_id conversationId (Messaging.conversations db) = Some c ->
             Conversation.user1_id listed = Conversation.user1_id c) ->
  marked_as_read conversationId (User.id u) db
    (fst (markMessagesAsRead Client.Applied Client.Applied conversationId st db)).
Proof.
  intros Hu Hl Hsnap. unfold markMessagesAsRead. rewrite Hu.
  unfold Messaging.lookup_id in Hl. rewrite Hl.
  cbn [fst Messaging.exec Messaging.conversations Messaging.messages].
  split; [apply update_messages_read_spec|]. split.
  - intros c Hc. cbn [Messaging.conversations].
    rewrite lookup_update_unread_count, N.eqb_refl, Hc. cbn.
    now rewrite (Hsnap c Hc).
  - intros i Hi. cbn [Messaging.conversations].
    rewrite lookup_update_unread_count.
    now rewrite (proj2 (N.eqb_neq _ _) Hi).
Qed.

Lemma mark_as_read_resets_listed_conversation_witness :
  marked_as_read 200 Sample.alice SampleModal.db1
    (fst (markMessagesAsRead Client.Applied Client.Applied 200
            SampleModal.loaded SampleModal.db1)).
Proof.
  apply (mark_as_read_resets_listed_conversation 200 SampleModal.loaded
           SampleModal.db1 SampleModal.alice
           (Conversation.mk 200 Sample.alice Sample.bob (Some Sample.chair)
              (Some 100%N) 1 0 1 1)).
  - reflexivity.
  - reflexivity.
  - intros c Hc. vm_compute in Hc. inversion Hc. reflexivity.
Defined.

(** Without the conversation in the loaded list, the first update is
    all that happens. *)
Lemma mark_as_read_unlisted conversationId st db u :
  user st = Some u ->
  Messaging.lookup_id conversationId (conversations st) = None ->
  fst (markMessagesAsRead Client.Applied Client.Applied conversationId st db) =
  Messaging.mkdb (Messaging.conversations db)
    (Messaging.update_messages_read conversationId (User.id u) (Messaging.messages db)).
Proof.
  intros Hu Hl. unfold markMessagesAsRead. rewrite Hu.
  unfold Messaging.lookup_id in Hl. now rewrite Hl.
Qed.

(** C3 as worded fails when the conversation is not in the loaded list:
    the messages are flipped, the counter is not reset. *)
Lemma mark_as_read_unlisted_counterexample :
  Messaging.lookup_id 200 (Messaging.conversations SampleModal.db1) =
  Some (Conversation.mk 200 Sample.alice Sample.bob (Some Sample.chair)
          (Some 100%N) 1 0 1 1) /\
  ~ marked_as_read 200 Sample.alice SampleModal.db1
      (fst (markMessagesAsRead Client.Applied Client.Applied 200
              SampleModal.just_opened SampleModal.db1)).
Proof.
  split; [reflexivity|].
  intros (_ & H & _). specialize (H _ eq_refl).
  vm_compute in H. discriminate H.
Qed.

(** *** [startConversation] *)

Lemma find_none_iff {A : Type} (f : A -> bool) (l : list A) :
  find f l = None <-> forall x, In x l -> f x = false.
Proof.
  split; [apply find_none|].
  induction l as [|a l IH]; cbn; intros H; trivial.
  rewrite (H a) by now left. apply IH. intros x Hx. apply H. now right.
Qed.

(** Where the foreign key holds, the insert of a message by the client
    ends in its catch. *)
Lemma remote_insert_refused e db v :
  Messaging.referential db -> remote_insert e db v = None.
Proof.
  intros R. unfold remote_insert. destruct (insert_reply e); trivial.
  now destruct (insert_message_refused (ads e) (gen_msg e) (gen_conv e) (now e)
                  db v R) as [x ->].
Qed.

(** The conversation id that [sendMessage] supplies is not read: the
    insert does what it does for a row without one. *)
Lemma supplied_conversation_id_ignored ads gen_msg gen_conv now db v :
  Messaging.insert_message ads gen_msg gen_conv now db v =
  Messaging.insert_message ads gen_msg gen_conv now db
    (Messaging.mkvalues (Messaging.v_sender_id v) (Messaging.v_receiver_id v) None
                        (Messaging.v_advertisement_id v) (Messaging.v_content v)).
Proof.
  unfold Messaging.insert_message, Messaging.set_message_conversation. cbn.
  destruct (Messaging.canonical_pair _ _) as [user1 user2].
  destruct (Messaging.find_or_create _ _ _ _ _ _ _) as [[i t1]|]; reflexivity.
Qed.



(** C10: the claim has [startConversation] reuse a conversation with
    the recipient and otherwise create one with a greeting.  It looks
    for the conversation in the list the component holds, which is
    empty when the modal has just been opened, and the greeting it then
    inserts is refused like every message: where the foreign key holds
    and the list shows nobody with the recipient, no conversation is
    selected, none is created, and the error toast is shown. *)
Theorem start_conversation_opens_no_conversation
        e recipientId advertisementId st db u :
  Messaging.referential db ->
  user st = Some u ->
  find (with_recipient (User.id u) recipientId) (conversations st) = None ->
  startConversation e recipientId advertisementId st db =
  (st, db,
   [request (InsertInto_messages
               (greeting_values (User.id u) recipientId advertisementId));
    toast_error "Помилка створення розмови: "]).
Proof.
  intros R Hu F. unfold startConversation. rewrite Hu, F.
  now rewrite remote_insert_refused.
Qed.

Lemma start_conversation_opens_no_conversation_witness :
  startConversation SampleModal.quiet Sample.bob (Some Sample.chair)
    SampleModal.just_opened SampleModal.db1 =
  (SampleModal.just_opened, SampleModal.db1,
   [request (InsertInto_messages
               (greeting_values Sample.alice Sample.bob (Some Sample.chair)));
    toast_error "Помилка створення розмови: "]).
Proof.
  apply (start_conversation_opens_no_conversation SampleModal.quiet Sample.bob
           (Some Sample.chair) SampleModal.just_opened SampleModal.db1
           SampleModal.alice).
  - intros c m [<-|[]] E. inversion E. left. reflexivity.
  - reflexivity.
  - reflexivity.
Defined.

End ModalFacts.

(** ** The advertisement contact invariant *)

Module AdsFacts.
Import Ads.
Import TriggerFacts.

Lemma constrain_has_contact c a : constrain c = Ok a -> has_contact a.
Proof.
  unfold constrain, has_contact.
  destruct (Advertisement.c_id c), (Advertisement.c_category c),
    (Advertisement.c_subcategory c), (Advertisement.c_title c),
    (Advertisement.c_description c); try discriminate.
  destruct (Advertisement.c_discord_contact c) as [d|],
    (Advertisement.c_telegram_contact c) as [t|]; cbn; intros H; inv H; cbn;
    try (left; discriminate); right; discriminate.
Qed.

Lemma constrain_without_contact c :
  Advertisement.c_discord_contact c = None ->
  Advertisement.c_telegram_contact c = None ->
  constrain c = Err not_null_violation \/ constrain c = Err check_violation.
Proof.
  unfold constrain. intros -> ->.
  destruct (Advertisement.c_id c), (Advertisement.c_category c),
    (Advertisement.c_subcategory c), (Advertisement.c_title c),
    (Advertisement.c_description c); cbn; auto.
Qed.

Lemma insert_has_contact c tbl a tbl' :
  Forall has_contact tbl -> insert c tbl = Ok (a, tbl') -> Forall has_contact tbl'.
Proof.
  unfold insert, bind. intros F.
  destruct (constrain c) as [row|] eqn:C; [|discriminate].
  destruct (existsb _ tbl); [discriminate|].
  intros H; inv H. apply Forall_app. split; trivial.
  constructor; [|constructor]. eapply constrain_has_contact; eauto.
Qed.

Lemma update_rows_has_contact set where_ tbl tbl' :
  Forall has_contact tbl -> update_rows set where_ tbl = Ok tbl' ->
  Forall has_contact tbl'.
Proof.
  intros F. revert tbl'. induction F as [|a tbl Ha _ IH]; cbn; intros tbl' H.
  - inv H. constructor.
  - unfold bind in H.
    destruct (where_ a).
    + destruct (constrain (set a)) as [a'|] eqn:C; [|discriminate].
      destruct (update_rows set where_ tbl) as [r|]; [|discriminate].
      inv H. constructor; [eapply constrain_has_contact; eauto | now apply IH].
    + destruct (update_rows set where_ tbl) as [r|]; [|discriminate].
      inv H. constructor; auto.
Qed.

Lemma exec_has_contact tbl s : Forall has_contact tbl -> Forall has_contact (exec tbl s).
Proof.
  intros F. unfold exec.
  destruct (run_statement tbl s) as [tbl'|] eqn:R; trivial.
  destruct s as [gen now p|c|set where_|where_]; cbn in R; unfold bind in R.
  - unfold create_advertisement in R.
    destruct (is_true _); [discriminate|].
    destruct (insert _ tbl) as [[a t]|] eqn:I; [|discriminate].
    inv R. eapply insert_has_contact; eauto.
  - destruct (insert c tbl) as [[a t]|] eqn:I; [|discriminate].
    inv R. eapply insert_has_contact; eauto.
  - unfold update, bind in R.
    destruct (update_rows set where_ tbl) as [t|] eqn:U; [|discriminate].
    destruct (distinct _); [|discriminate].
    inv R. eapply update_rows_has_contact; eauto.
  - inv R. unfold delete. apply Forall_forall. intros a Ha.
    apply filter_In in Ha as [Ha _]. rewrite Forall_forall in F. auto.
Qed.

Lemma reachable_fold l : reachable (fold_left exec l []).
Proof.
  assert (G : forall tbl, reachable tbl -> reachable (fold_left exec l tbl)).
  { induction l as [|s l IH]; cbn; intros tbl R; trivial.
    apply IH. now constructor. }
  apply G. constructor.
Qed.

(** The construction-time check lets through every call that names a
    contact, provided the generated id is new and the NOT NULL columns
    are given. *)
Lemma create_advertisement_with_contact gen now p tbl cat sub ti de :
  p_discord p <> None \/ p_telegram p <> None ->
  p_category p = Some cat -> p_subcategory p = Some sub ->
  p_title p = Some ti -> p_description p = Some de ->
  ~ In gen (map Advertisement.id tbl) ->
  exists a, create_advertisement gen now p tbl = Ok (a, tbl ++ [a]) /\
            Advertisement.discord_contact a = p_discord p /\
            Advertisement.telegram_contact a = p_telegram p.
Proof.
  intros Hc E1 E2 E3 E4 Hg. unfold create_advertisement, insert, constrain.
  cbn. rewrite E1, E2, E3, E4.
  assert (X : existsb (fun a => (Advertisement.id a =? gen)%N) tbl = false).
  { apply not_true_is_false. intros T. apply existsb_exists in T as (a & Ha & E).
    apply N.eqb_eq in E. apply Hg. rewrite <- E. now apply in_map. }
  destruct (p_discord p) as [d|], (p_telegram p) as [t|]; cbn; rewrite ?X;
    try (eexists; repeat split; reflexivity).
  destruct Hc as [[]|[]]; reflexivity.
Qed.

(** C4: a call of [create_advertisement] with both contacts NULL raises
    and stores nothing; a row without a contact is refused by the table
    constraint on any INSERT; and in every state reached by calls of
    the function, INSERTs, UPDATEs and DELETEs, each stored
    advertisement has a non-NULL Discord or Telegram contact. *)
Theorem advertisement_needs_a_contact :
  (forall gen now p tbl,
      p_discord p = None -> p_telegram p = None ->
      create_advertisement gen now p tbl = Err (raise_exception contact_required) /\
      exec tbl (Call_create_advertisement gen now p) = tbl) /\
  (forall c tbl,
      Advertisement.c_discord_contact c = None ->
      Advertisement.c_telegram_contact c = None ->
      (insert c tbl = Err not_null_violation \/ insert c tbl = Err check_violation) /\
      exec tbl (Insert c) = tbl) /\
  (forall tbl, reachable tbl -> forall a, In a tbl -> has_contact a).
Proof.
  split; [|split].
  - intros gen now p tbl Hd Ht.
    assert (E : create_advertisement gen now p tbl =
                Err (raise_exception contact_required)).
    { unfold create_advertisement. now rewrite Hd, Ht. }
    split; trivial. unfold exec; cbn. now rewrite E.
  - intros c tbl Hd Ht.
    assert (E : insert c tbl = Err not_null_violation \/ insert c tbl = Err check_violation).
    { unfold insert. destruct (constrain_without_contact c Hd Ht) as [-> | ->]; cbn; auto. }
    split; trivial. unfold exec; cbn. destruct E as [-> | ->]; reflexivity.
  - intros tbl R.
    assert (F : Forall has_contact tbl).
    { induction R; [constructor | now apply exec_has_contact]. }
    now apply Forall_forall.
Qed.

Lemma advertisement_needs_a_contact_witness :
  create_advertisement 51 2 SampleAds.table (fold_left exec (firstn 1 SampleAds.history) []) =
  Err (raise_exception contact_required) /\
  List.length (fold_left exec SampleAds.history []) = 1%nat /\
  forall a, In a (fold_left exec SampleAds.history []) -> has_contact a.
Proof.
  split; [|split].
  - apply (proj1 advertisement_needs_a_contact 51%N 2%Z SampleAds.table); reflexivity.
  - reflexivity.
  - apply (proj2 (proj2 advertisement_needs_a_contact)). apply reachable_fold.
Defined.

End AdsFacts.

(** ** The admin panel *)

Module PanelFacts.
Import AdminPanel.
Import PgFacts TriggerFacts.

Lemma role_eqb_eq a b : Role.eqb a b = true <-> a = b.
Proof. destruct a, b; cbn; split; intros H; try discriminate; reflexivity. Qed.

Lemma role_eqb_neq a b : Role.eqb a b = false <-> a <> b.
Proof.
  destruct a, b; cbn; split; intros H; try discriminate; try reflexivity;
    try congruence.
Qed.

(** *** The refresh *)

Lemma fetchData_user e st db : user (fst (fetchData e st db)) = user st.
Proof.
  unfold fetchData.
  destruct (users_reply e), (ads_reply e), (is_admin (user st)), (logs_reply e);
    reflexivity.
Qed.

Lemma fetchData_users_list e st db :
  users_list (fst (fetchData e st db)) = users_list st \/
  users_list (fst (fetchData e st db)) = [] \/
  users_list (fst (fetchData e st db)) = select_users db.
Proof.
  unfold fetchData.
  destruct (users_reply e), (ads_reply e), (is_admin (user st)), (logs_reply e);
    cbn; auto.
Qed.

Lemma fetchData_snapshot e st db :
  NoDup (map User.id (users db)) ->
  snapshot_ok st db -> snapshot_ok (fst (fetchData e st db)) db.
Proof.
  intros ND S t r Ht Hr Eid Hrole.
  destruct (fetchData_users_list e st db) as [E|[E|E]]; rewrite E in Ht.
  - eapply S; eauto.
  - destruct Ht.
  - apply in_order_by in Ht.
    assert (r = t) by (eapply NoDup_map_eq; eauto). congruence.
Qed.

Lemma logAction_tables e actor action target d db :
  users (fst (logAction e actor action target d db)) = users db /\
  advertisements (fst (logAction e actor action target d db)) = advertisements db.
Proof.
  unfold logAction. destruct (log_reply e); cbn; auto.
  destruct (insert_admin_log _ _ _ _ _ _ _); cbn; auto.
Qed.

Lemma logAction_failed e actor action target d db :
  log_reply e <> Client.Applied ->
  fst (logAction e actor action target d db) = db.
Proof.
  unfold logAction. destruct (log_reply e); cbn; congruence.
Qed.

Lemma logAction_applied e actor action target d db :
  log_reply e = Client.Applied ->
  ~ In (gen_log e) (map AdminLog.id (admin_logs db)) ->
  admin_logs (fst (logAction e actor action target d db)) =
  admin_logs db ++
  [AdminLog.mk (gen_log e) (option_map User.id actor) action target
     (match d with Some x => x | None => AdminLog.empty_object end) (now e)].
Proof.
  intros E Hg. unfold logAction, insert_admin_log. rewrite E.
  assert (X : existsb (fun l => (AdminLog.id l =? gen_log e)%N) (admin_logs db) = false).
  { apply not_true_is_false. intros T. apply existsb_exists in T as (l & Hl & El).
    apply N.eqb_eq in El. apply Hg. rewrite <- El. now apply in_map. }
  now rewrite X.
Qed.

Lemma logAction_trace e actor action target d db :
  exists diagnostic,
    snd (logAction e actor action target d db) =
    request (Insert_admin_logs (option_map User.id actor) action target
               (match d with Some x => x | None => AdminLog.empty_object end))
      :: diagnostic /\
    ((log_reply e <> Client.Rejected /\ diagnostic = []) \/
     (log_reply e = Client.Rejected /\ diagnostic = [console_error log_failed])).
Proof.
  unfold logAction. destruct (log_reply e) eqn:E; cbn.
  - exists []. split; trivial. left. split; [discriminate|trivial].
  - exists []. split; trivial. left. split; [discriminate|trivial].
  - exists [console_error log_failed]. split; trivial. right. auto.
Qed.

Lemma fetchData_no_toast e st db failed :
  failed <> loading_failed ->
  ~ In (toast_error failed) (snd (fetchData e st db)).
Proof.
  intros Hne. unfold fetchData.
  destruct (users_reply e), (ads_reply e), (is_admin (user st)), (logs_reply e);
    cbn; intuition (try discriminate; congruence).
Qed.

(** The shape of the trace of a handler that went through. *)
Lemma audited_intro e actor mutation label target d done failed db1 st fetched_db :
  failed <> loading_failed ->
  audited e actor mutation label target d done failed
    (request mutation
       :: snd (logAction e actor label target (Some d) db1)
       ++ toast_success done :: snd (fetchData e st fetched_db)).
Proof.
  intros Hne.
  destruct (logAction_trace e actor label target (Some d) db1) as (diag & -> & Hd).
  exists diag, (snd (fetchData e st fetched_db)). split; [reflexivity|]. split; trivial.
  cbn. intros [H|[H|H]]; try discriminate.
  apply in_app_or in H as [H|[H|H]]; try discriminate.
  - destruct Hd as [[_ ->]|[_ ->]]; cbn in H; intuition discriminate.
  - revert H. now apply fetchData_no_toast.
Qed.

(** *** The update of [users] under its policy *)

Lemma apply_updateData_id d u : User.id (apply_updateData d u) = User.id u.
Proof. now destruct d. Qed.

(** The policy never refuses the update, and lets it through as it is
    or not at all. *)
Lemma update_users_as_either uid d targetUserId tbl :
  exists users',
    update_users_as uid d targetUserId tbl = Some users' /\
    (users' = tbl \/ users' = update_users d targetUserId tbl).
Proof.
  destruct uid as [caller|].
  - destruct (N.eqb_spec caller targetUserId) as [->|Ne].
    + exists (update_users d targetUserId tbl). split; [|now right].
      induction tbl as [|u tbl IH]; cbn [update_users_as update_users map]; trivial.
      fold (update_users d targetUserId tbl). rewrite IH.
      unfold update_own_profile, sql_eq. rewrite apply_updateData_id.
      rewrite (N.eqb_sym targetUserId (User.id u)).
      destruct (User.id u =? targetUserId)%N; reflexivity.
    + exists tbl. split; [|now left].
      induction tbl as [|u tbl IH]; cbn [update_users_as]; trivial.
      rewrite IH. unfold update_own_profile, sql_eq.
      destruct (N.eqb_spec (User.id u) targetUserId) as [E|E]; cbn; trivial.
      rewrite <- E in Ne. now rewrite (proj2 (N.eqb_neq _ _) Ne).
  - exists tbl. split; [|now left].
    induction tbl as [|u tbl IH]; cbn [update_users_as]; trivial.
    rewrite IH. unfold update_own_profile, sql_eq. cbn.
    now rewrite andb_false_r.
Qed.

(** *** The handlers *)

Lemma handleUserAction_result e targetUserId action newRole st db users' :
  primary_reply e = Client.Applied ->
  update_users_as (caller e) (choose_updateData action newRole) targetUserId
                  (users db) = Some users' ->
  let db1 := mkdb users' (advertisements db) (admin_logs db) in
  let logged :=
    logAction e (user st) (action_label action newRole) (Some targetUserId)
      (Some (AdminLog.user_action action newRole
               (option_map User.nickname
                  (find (fun u => (User.id u =? targetUserId)%N) (users_list st)))))
      db1 in
  handleUserAction e targetUserId action newRole st db =
  (fst (fetchData e st (fst logged)), fst logged,
   request (Update_users (choose_updateData action newRole) targetUserId)
     :: snd logged ++ toast_success action_done :: snd (fetchData e st (fst logged))).
Proof.
  intros E U db1 logged. unfold handleUserAction. rewrite E, U.
  fold db1. fold logged. destruct logged as [db2 ev]. cbn [fst snd].
  now destruct (fetchData e st db2).
Qed.

Lemma handleUserAction_refused e targetUserId action newRole st db :
  primary_reply e <> Client.Applied ->
  handleUserAction e targetUserId action newRole st db =
  (st, db, [request (Update_users (choose_updateData action newRole) targetUserId);
            toast_error action_failed]).
Proof.
  intros H. unfold handleUserAction.
  destruct (primary_reply e); [congruence| |]; reflexivity.
Qed.

Lemma handleDeleteAd_result e adId st db :
  primary_reply e = Client.Applied -> confirmed e = true ->
  let found := find (fun x => (Advertisement.id (ad x) =? adId)%N) (advertisements_list st) in
  let db1 := mkdb (users db)
                  (delete_as (caller e) adId (advertisements db))
                  (admin_logs db) in
  let logged := logAction e (user st) "delete_advertisement" (ad_owner found)
                          (Some (ad_details adId found)) db1 in
  handleDeleteAd e adId st db =
  (fst (fetchData e st (fst logged)), fst logged,
   request (Delete_advertisements adId)
     :: snd logged ++ toast_success ad_deleted :: snd (fetchData e st (fst logged))).
Proof.
  intros E C found db1 logged. unfold handleDeleteAd. rewrite E, C.
  fold found. fold db1. fold logged. destruct logged as [db2 ev]. cbn [fst snd].
  now destruct (fetchData e st db2).
Qed.

Lemma handlePromoteAd_result e adId isVip st db ads' :
  primary_reply e = Client.Applied ->
  update_is_vip_as (caller e) (negb isVip) adId (advertisements db) = Ok ads' ->
  let found := find (fun x => (Advertisement.id (ad x) =? adId)%N) (advertisements_list st) in
  let db1 := mkdb (users db) ads' (admin_logs db) in
  let logged := logAction e (user st)
                  (if isVip then "demote_advertisement" else "promote_advertisement")
                  (ad_owner found) (Some (ad_details adId found)) db1 in
  handlePromoteAd e adId isVip st db =
  (fst (fetchData e st (fst logged)), fst logged,
   request (Update_advertisements_is_vip (negb isVip) adId)
     :: snd logged
     ++ toast_success (if isVip then vip_removed else vip_granted)
     :: snd (fetchData e st (fst logged))).
Proof.
  intros E U found db1 logged. unfold handlePromoteAd. rewrite E, U.
  fold found. fold db1. fold logged. destruct logged as [db2 ev]. cbn [fst snd].
  now destruct (fetchData e st db2).
Qed.

(** Whatever a handler does, the users table is touched by
    [handleUserAction] only, and the state is the old one or a refresh. *)
Lemma handle_state e c st db :
  fst (fst (handle e c st db)) = st \/
  fst (fst (handle e c st db)) = fst (fetchData e st (snd (fst (handle e c st db)))).
Proof.
  destruct c as [i a r|adId isVip|adId]; cbn [handle].
  - destruct (primary_reply e) eqn:E.
    + destruct (update_users_as_either (caller e) (choose_updateData a r) i (users db))
        as (users' & U & _).
      rewrite (handleUserAction_result _ _ _ _ _ _ _ E U). cbn. auto.
    + rewrite handleUserAction_refused by congruence. cbn. auto.
    + rewrite handleUserAction_refused by congruence. cbn. auto.
  - destruct (primary_reply e) eqn:E.
    + destruct (update_is_vip_as (caller e) (negb isVip) adId (advertisements db))
        as [ads'|] eqn:U.
      * rewrite (handlePromoteAd_result _ _ _ _ _ _ E U). cbn. auto.
      * unfold handlePromoteAd. rewrite E, U. cbn. auto.
    + unfold handlePromoteAd. rewrite E. cbn. auto.
    + unfold handlePromoteAd. rewrite E. cbn. auto.
  - destruct (confirmed e) eqn:C.
    + destruct (primary_reply e) eqn:E.
      * rewrite handleDeleteAd_result by trivial. cbn. auto.
      * unfold handleDeleteAd. rewrite E, C. cbn. auto.
      * unfold handleDeleteAd. rewrite E, C. cbn. auto.
    + unfold handleDeleteAd. rewrite C. cbn. auto.
Qed.

Lemma handle_ad_users e c st db :
  (forall i a r, c <> UserAction i a r) ->
  users (snd (fst (handle e c st db))) = users db.
Proof.
  intros Hc. destruct c as [i a r|adId isVip|adId]; cbn [handle].
  - now destruct (Hc i a r).
  - destruct (primary_reply e) eqn:E.
    + destruct (update_is_vip_as (caller e) (negb isVip) adId (advertisements db))
        as [ads'|] eqn:U.
      * rewrite (handlePromoteAd_result _ _ _ _ _ _ E U). cbn [fst snd].
        now rewrite (proj1 (logAction_tables _ _ _ _ _ _)).
      * unfold handlePromoteAd. now rewrite E, U.
    + unfold handlePromoteAd. now rewrite E.
    + unfold handlePromoteAd. now rewrite E.
  - destruct (confirmed e) eqn:C.
    + destruct (primary_reply e) eqn:E.
      * rewrite handleDeleteAd_result by trivial. cbn [fst snd].
        now rewrite (proj1 (logAction_tables _ _ _ _ _ _)).
      * unfold handleDeleteAd. now rewrite E, C.
      * unfold handleDeleteAd. now rewrite E, C.
    + unfold handleDeleteAd. now rewrite C.
Qed.

Lemma handleUserAction_users e targetUserId action newRole st db :
  users (snd (fst (handleUserAction e targetUserId action newRole st db))) = users db \/
  users (snd (fst (handleUserAction e targetUserId action newRole st db))) =
  update_users (choose_updateData action newRole) targetUserId (users db).
Proof.
  destruct (primary_reply e) eqn:E.
  - destruct (update_users_as_either (caller e) (choose_updateData action newRole)
                targetUserId (users db)) as (users' & U & Hu).
    rewrite (handleUserAction_result _ _ _ _ _ _ _ E U). cbn [fst snd].
    rewrite (proj1 (logAction_tables _ _ _ _ _ _)). cbn [users].
    destruct Hu as [-> | ->]; auto.
  - rewrite handleUserAction_refused by congruence. auto.
  - rewrite handleUserAction_refused by congruence. auto.
Qed.

(** *** The buttons of a users row *)

Lemma user_row_button u targetUser b :
  In b (user_row_buttons u targetUser) ->
  User.role targetUser <> Role.admin /\
  exists action newRole,
    onClick b = UserAction (User.id targetUser) action newRole /\
    keeps_admins_apart (choose_updateData action newRole) /\
    (newRole <> None -> User.role u = Role.admin).
Proof.
  unfold user_row_buttons. intros Hin.
  destruct (Role.eqb (User.role targetUser) Role.admin) eqn:T.
  - rewrite andb_false_r in Hin. destruct Hin.
  - apply role_eqb_neq in T. split; trivial.
    destruct (Role.eqb (User.role u) Role.admin) eqn:A; cbn in Hin.
    + apply role_eqb_eq in A.
      destruct Hin as [<-|[<-|[<-|[]]]]; cbn; do 2 eexists;
        (split; [reflexivity|]); (split; [|intros _; exact A]).
      * intros x; cbn; discriminate.
      * intros x; cbn; discriminate.
      * destruct (User.is_banned targetUser); intros x; cbn; trivial.
    + destruct Hin as [<-|[]]; cbn; do 2 eexists;
        (split; [reflexivity|]); (split; [|congruence]).
      destruct (User.is_banned targetUser); intros x; cbn; trivial.
Qed.

(** *** The session invariant *)

Lemma snapshot_ok_users st db db' :
  users db' = users db -> snapshot_ok st db -> snapshot_ok st db'.
Proof. unfold snapshot_ok. intros ->. auto. Qed.

Lemma update_users_ids d i tbl :
  map User.id (update_users d i tbl) = map User.id tbl.
Proof.
  unfold update_users. rewrite map_map. apply map_ext.
  intros u. destruct (User.id u =? i)%N; trivial. now destruct d.
Qed.

Lemma update_users_snapshot d t st db db' :
  keeps_admins_apart d ->
  users db' = update_users d (User.id t) (users db) ->
  snapshot_ok st db -> snapshot_ok st db'.
Proof.
  intros K E S t' r' Ht' Hr' Eid Hrole. rewrite E in Hr'.
  unfold update_users in Hr'. apply in_map_iff in Hr' as (r & <- & Hr).
  destruct (User.id r =? User.id t)%N.
  - apply (S t' r); trivial.
    + rewrite <- Eid. now destruct d.
    + now apply K.
  - now apply (S t' r).
Qed.

Lemma update_users_keeps_admin d t st db a :
  snapshot_ok st db -> In t (users_list st) -> User.role t <> Role.admin ->
  In a (users db) -> User.role a = Role.admin ->
  In a (update_users d (User.id t) (users db)).
Proof.
  intros S Ht Hn Ha Hr. unfold update_users. apply in_map_iff.
  exists a. split; trivial.
  destruct (N.eqb_spec (User.id a) (User.id t)) as [E|E]; trivial.
  destruct Hn. now apply (S t a).
Qed.

Lemma step_cases st db st' db' :
  step (st, db) (st', db') ->
  (exists e, st' = fst (mount e st db) /\ db' = db) \/
  (exists e tabs export_button buttons shown_logs b,
      render st = panel tabs export_button buttons shown_logs /\
      In b buttons /\ disabled b = false /\
      st' = fst (fst (handle e (onClick b) st db)) /\
      db' = snd (fst (handle e (onClick b) st db))).
Proof.
  intros H. inversion H; subst.
  - left. eauto.
  - right. exists e, tabs, export_button, buttons, shown_logs, b.
    repeat split; trivial;
      match goal with
      | E : fst _ = (_, _) |- _ => now rewrite E
      | E : (_, _) = fst _ |- _ => now rewrite <- E
      end.
Qed.

Section Session.

Variable u : option User.t.
Variable db0 : database.
Hypothesis primary_key : NoDup (map User.id (users db0)).

Lemma step_invariant st db st' db' :
  step (st, db) (st', db') ->
  NoDup (map User.id (users db)) /\ snapshot_ok st db /\
  (forall a, In a (users db0) -> User.role a = Role.admin -> In a (users db)) ->
  NoDup (map User.id (users db')) /\ snapshot_ok st' db' /\
  (forall a, In a (users db0) -> User.role a = Role.admin -> In a (users db')).
Proof.
  intros Hstep (ND & S & Keep).
  apply step_cases in Hstep
    as [(e & -> & ->)|(e & tabs & ex & buttons & shown & b & R & Hb & Hd & Hst & Hdb)].
  - repeat split; trivial.
    unfold mount. destruct (panel_access (user st)); trivial.
    now apply fetchData_snapshot.
  - assert (Main :
              NoDup (map User.id (users db')) /\ snapshot_ok st db' /\
              (forall a, In a (users db0) -> User.role a = Role.admin ->
                         In a (users db'))).
    { unfold render in R. destruct (user st) as [actor|]; [|discriminate].
      destruct (hasPermission actor _); [|discriminate].
      inversion R; subst tabs ex buttons shown; clear R.
      apply in_app_or in Hb as [Hb|Hb].
      - apply in_flat_map in Hb as (t & Ht & Hb).
        apply user_row_button in Hb as (Hn & action & newRole & Hc & K & _).
        rewrite Hc in Hdb. cbn [handle] in Hdb.
        destruct (handleUserAction_users e (User.id t) action newRole st db)
          as [E|E]; rewrite <- Hdb in E.
        + rewrite E. repeat split; trivial.
          eapply snapshot_ok_users; eauto.
        + rewrite E. repeat split.
          * now rewrite update_users_ids.
          * eapply update_users_snapshot; eauto.
          * intros a Ha Hr. eapply update_users_keeps_admin; eauto.
      - apply in_flat_map in Hb as (x & Hx & Hb).
        assert (E : users db' = users db).
        { rewrite Hdb. apply handle_ad_users.
          destruct Hb as [<-|[<-|[]]]; cbn; discriminate. }
        rewrite E. repeat split; trivial.
        eapply snapshot_ok_users; eauto. }
    destruct Main as (ND' & S' & Keep'). repeat split; trivial.
    destruct (handle_state e (onClick b) st db) as [X|X];
      rewrite <- Hst, <- ?Hdb in X; rewrite X; trivial.
    now apply fetchData_snapshot.
Qed.

Lemma session_invariant s :
  session u db0 s ->
  NoDup (map User.id (users (snd s))) /\ snapshot_ok (fst s) (snd s) /\
  (forall a, In a (users db0) -> User.role a = Role.admin -> In a (users (snd s))).
Proof.
  induction 1 as [|[st db] [st' db'] _ IH Hstep]; cbn in *.
  - repeat split; trivial. intros t r [].
  - eapply step_invariant; eauto.
Qed.

Lemma session_user s : session u db0 s -> user (fst s) = u.
Proof.
  induction 1 as [|[st db] [st' db'] _ IH Hstep]; cbn in *; trivial.
  apply step_cases in Hstep
    as [(e & -> & ->)|(e & tabs & ex & buttons & shown & b & R & Hb & Hd & -> & ->)].
  - unfold mount. destruct (panel_access (user st)); trivial.
    rewrite fetchData_user. exact IH.
  - destruct (handle_state e (onClick b) st db) as [X|X]; rewrite X; trivial.
    rewrite fetchData_user. exact IH.
Qed.

Lemma session_mount e st db :
  session u db0 (st, db) -> session u db0 (fst (mount e st db), db).
Proof. intros H. eapply session_step; [exact H|constructor]. Qed.

Lemma session_click e st db tabs export_button buttons shown_logs b :
  session u db0 (st, db) ->
  render st = panel tabs export_button buttons shown_logs ->
  In b buttons -> disabled b = false ->
  session u db0 (fst (fst (handle e (onClick b) st db)),
                 snd (fst (handle e (onClick b) st db))).
Proof.
  intros H R Hb Hd. eapply session_step; [exact H|].
  rewrite <- surjective_pairing. econstructor; eauto.
Qed.

End Session.

(** C5: no button that changes a role or a ban flag is rendered for a
    target whose role is admin, whoever looks at the panel; and during
    a panel session (mount effects and presses of enabled buttons, with
    any replies of the remote calls) every row of the users table whose
    role is admin stays exactly as it was, from the start of the session
    and from one step to the next: neither its role nor its ban flag
    changes. *)
Theorem admin_targets_are_untouched :
  (forall u targetUser,
      User.role targetUser = Role.admin -> user_row_buttons u targetUser = []) /\
  (forall u db0 st db,
      NoDup (map User.id (users db0)) ->
      session u db0 (st, db) ->
      forall a, In a (users db0) -> User.role a = Role.admin -> In a (users db)) /\
  (forall u db0 st db st' db',
      NoDup (map User.id (users db0)) ->
      session u db0 (st, db) ->
      step (st, db) (st', db') ->
      forall a, In a (users db) -> User.role a = Role.admin -> In a (users db')).
Proof.
  split; [|split].
  - intros u t Ht. unfold user_row_buttons. rewrite Ht. cbn.
    now rewrite andb_false_r.
  - intros u db0 st db ND Hs.
    exact (proj2 (proj2 (session_invariant u db0 ND (st, db) Hs))).
  - intros u db0 st db st' db' ND Hs Hstep.
    destruct (session_invariant u db0 ND (st, db) Hs) as (ND' & S & _).
    cbn in ND', S.
    refine (proj2 (proj2 (step_invariant db st db st' db' Hstep _))).
    repeat split; trivial.
Qed.

Lemma admin_targets_are_untouched_witness :
  In SamplePanel.root
     (users (snd (fst (handle SamplePanel.fine
                         (UserAction 3 "ban" None)
                         (fst (mount SamplePanel.fine
                                 (initial (Some SamplePanel.mira)) SamplePanel.db0))
                         SamplePanel.db0)))).
Proof.
  apply (proj1 (proj2 admin_targets_are_untouched) (Some SamplePanel.mira)
           SamplePanel.db0
           (fst (fst (handle SamplePanel.fine (UserAction 3 "ban" None)
                        (fst (mount SamplePanel.fine
                                (initial (Some SamplePanel.mira)) SamplePanel.db0))
                        SamplePanel.db0)))).
  - vm_compute. repeat constructor; cbn; intuition discriminate.
  - apply (session_click (Some SamplePanel.mira) SamplePanel.db0 SamplePanel.fine
             (fst (mount SamplePanel.fine (initial (Some SamplePanel.mira))
                     SamplePanel.db0))
             SamplePanel.db0
             [stats_tab; users_tab; ads_tab] false
             [mkbutton (UserAction 3 "ban" None) false;
              mkbutton (UserAction 2 "ban" None) false]
             None
             (mkbutton (UserAction 3 "ban" None) false)).
    + apply session_mount. apply session_start.
    + reflexivity.
    + left. reflexivity.
    + reflexivity.
  - left. reflexivity.
  - reflexivity.
Defined.

(** *** The audit log *)

Lemma fetchData_no_console e st db text :
  ~ In (console_error text) (snd (fetchData e st db)).
Proof.
  unfold fetchData.
  destruct (users_reply e), (ads_reply e), (is_admin (user st)), (logs_reply e);
    cbn; intuition discriminate.
Qed.

Lemma logAction_error_returned e actor action target d db :
  log_reply e = Client.ErrorReturned ->
  logAction e actor action target d db =
  (db, [request (Insert_admin_logs (option_map User.id actor) action target
                   (match d with Some x => x | None => AdminLog.empty_object end))]).
Proof. intros E. unfold logAction. now rewrite E. Qed.

(** C7: the claim has a failed append emit a diagnostic.  [logAction]
    awaits the insert without reading its result, so an insert that
    comes back with an error object is dropped without a trace: whatever
    button is pressed, the console gets no message and the log table is
    as it was. *)
Theorem log_error_leaves_no_diagnostic e c st db :
  log_reply e = Client.ErrorReturned ->
  (forall text, ~ In (console_error text) (snd (handle e c st db))) /\
  admin_logs (snd (fst (handle e c st db))) = admin_logs db.
Proof.
  intros L.
  assert (Done : forall mutation label target d db1 done,
             admin_logs db1 = admin_logs db ->
             (forall text,
                 ~ In (console_error text)
                      (request mutation
                         :: snd (logAction e (user st) label target (Some d) db1)
                         ++ toast_success done
                         :: snd (fetchData e st
                                   (fst (logAction e (user st) label target
                                           (Some d) db1))))) /\
             admin_logs (fst (logAction e (user st) label target (Some d) db1)) =
             admin_logs db).
  { intros mutation label target d db1 done Hl.
    rewrite logAction_error_returned by trivial. cbn [fst snd app]. split; trivial.
    intros text [H|[H|[H|H]]]; try discriminate.
    revert H. apply fetchData_no_console. }
  assert (Failed : forall mutation failed text,
             ~ In (console_error text) [request mutation; toast_error failed]).
  { intros mutation failed text [H|[H|[]]]; discriminate. }
  destruct c as [i a r|adId isVip|adId]; cbn [handle].
  - destruct (primary_reply e) eqn:E.
    + destruct (update_users_as_either (caller e) (choose_updateData a r) i (users db))
        as (users' & U & _).
      rewrite (handleUserAction_result _ _ _ _ _ _ _ E U). cbn [fst snd].
      now apply Done.
    + rewrite handleUserAction_refused by congruence. cbn [fst snd].
      split; [intros text; apply Failed|reflexivity].
    + rewrite handleUserAction_refused by congruence. cbn [fst snd].
      split; [intros text; apply Failed|reflexivity].
  - destruct (primary_reply e) eqn:E;
      [destruct (update_is_vip_as (caller e) (negb isVip) adId (advertisements db))
         as [ads'|] eqn:U|..].
    + rewrite (handlePromoteAd_result _ _ _ _ _ _ E U). cbn [fst snd].
      now apply Done.
    + unfold handlePromoteAd. rewrite E, U. cbn [fst snd].
      split; [intros text; apply Failed|reflexivity].
    + unfold handlePromoteAd. rewrite E. cbn [fst snd].
      split; [intros text; apply Failed|reflexivity].
    + unfold handlePromoteAd. rewrite E. cbn [fst snd].
      split; [intros text; apply Failed|reflexivity].
  - destruct (confirmed e) eqn:C.
    + destruct (primary_reply e) eqn:E.
      * rewrite handleDeleteAd_result by trivial. cbn [fst snd]. now apply Done.
      * unfold handleDeleteAd. rewrite E, C. cbn [fst snd].
        split; [intros text; apply Failed|reflexivity].
      * unfold handleDeleteAd. rewrite E, C. cbn [fst snd].
        split; [intros text; apply Failed|reflexivity].
    + unfold handleDeleteAd. rewrite C. cbn [fst snd].
      split; [intros text []|reflexivity].
Qed.

Lemma log_error_leaves_no_diagnostic_witness :
  ((forall text,
       ~ In (console_error text)
            (snd (handle SamplePanel.log_refused (UserAction 3 "ban" None)
                         (initial (Some SamplePanel.mira)) SamplePanel.db0))) /\
   admin_logs (snd (fst (handle SamplePanel.log_refused (UserAction 3 "ban" None)
                                (initial (Some SamplePanel.mira)) SamplePanel.db0))) =
   admin_logs SamplePanel.db0) /\
  snd (handle SamplePanel.log_refused (UserAction 3 "ban" None)
              (initial (Some SamplePanel.mira)) SamplePanel.db0) =
  [request (Update_users (set_is_banned true) 3);
   request (Insert_admin_logs (Some 2%N) "ban" (Some 3%N)
              (AdminLog.user_action "ban" None None));
   toast_success action_done;
   request Select_users; request Select_advertisements].
Proof.
  split; [|reflexivity].
  apply (log_error_leaves_no_diagnostic SamplePanel.log_refused
           (UserAction 3 "ban" None) (initial (Some SamplePanel.mira))
           SamplePanel.db0).
  reflexivity.
Defined.

(** C8: the panel is rendered (and its mount effect fetches) exactly
    for users whose role is moderator or admin; the audit log is
    requested, kept in the state and shown in a tab only for a user
    whose role is admin, and only such a user is offered the buttons
    that change a role; a moderator gets the panel without the logs tab
    and with ban/unban buttons only, and during a session of anyone but
    an admin the logs held by the panel stay empty. *)
Theorem panel_entry_and_admin_only_features :
  (forall u, panel_access (Some u) = true <->
             User.role u = Role.moderator \/ User.role u = Role.admin) /\
  panel_access None = false /\
  (forall st, render st = access_denied <-> panel_access (user st) = false) /\
  (forall e st db,
      is_admin (user st) = false ->
      ~ In (request Select_admin_logs) (snd (fetchData e st db)) /\
      logs (fst (fetchData e st db)) = logs st) /\
  (forall st tabs export_button buttons shown_logs,
      render st = panel tabs export_button buttons shown_logs ->
      (In logs_tab tabs <-> is_admin (user st) = true) /\
      (shown_logs <> None <-> is_admin (user st) = true) /\
      (forall b i a r, In b buttons -> onClick b = UserAction i a (Some r) ->
                       is_admin (user st) = true)) /\
  (forall u st,
      user st = Some u -> User.role u = Role.moderator ->
      exists tabs buttons,
        render st = panel tabs false buttons None /\
        ~ In logs_tab tabs /\
        forall b i a r, In b buttons -> onClick b = UserAction i a r ->
                        r = None /\ (a = "ban"%string \/ a = "unban"%string)) /\
  (forall u db0 st db,
      is_admin u = false -> session u db0 (st, db) -> logs st = []).
Proof.
  assert (Access : forall u, panel_access (Some u) = true <->
                             User.role u = Role.moderator \/ User.role u = Role.admin).
  { intros u. unfold panel_access, hasPermission. cbn.
    destruct (User.role u); cbn; split; intros H; try discriminate; auto;
      destruct H; discriminate. }
  assert (NoLogs : forall e st db,
             is_admin (user st) = false ->
             ~ In (request Select_admin_logs) (snd (fetchData e st db)) /\
             logs (fst (fetchData e st db)) = logs st).
  { intros e st db A. unfold fetchData. rewrite A.
    destruct (users_reply e), (ads_reply e); cbn; split; trivial;
      intuition discriminate. }
  split; [exact Access|]. split; [reflexivity|]. split; [|split; [exact NoLogs|split; [|split]]].
  - intros st. unfold render, panel_access.
    destruct (user st) as [u|]; [|tauto].
    destruct (hasPermission u _); split; intros H; try discriminate; trivial.
  - intros st tabs ex buttons shown R. unfold render in R.
    destruct (user st) as [u|] eqn:Hu; [|discriminate].
    destruct (hasPermission u _); [|discriminate].
    inversion R; subst; clear R. unfold is_admin.
    destruct (Role.eqb (User.role u) Role.admin) eqn:A; cbn.
    + repeat split; auto; try (intros _; discriminate).
    + split; [|split].
      * split; [|discriminate]. intros [H|[H|[H|[]]]]; discriminate.
      * split; [congruence|discriminate].
      * intros b i a r Hb Hc.
        apply in_app_or in Hb as [Hb|Hb].
        -- apply in_flat_map in Hb as (t & _ & Hb).
           apply user_row_button in Hb as (_ & a' & r' & Hc' & _ & Hr).
           rewrite Hc in Hc'. inversion Hc'; subst.
           assert (X : User.role u = Role.admin) by (apply Hr; discriminate).
           apply role_eqb_eq in X. congruence.
        -- apply in_flat_map in Hb as (x & _ & [<-|[<-|[]]]); discriminate.
  - intros u st Hu Hr. unfold render. rewrite Hu.
    unfold hasPermission. rewrite Hr. cbn.
    do 2 eexists. split; [reflexivity|]. split.
    + intros [H|[H|[H|[]]]]; discriminate.
    + intros b i a r Hb Hc.
      apply in_app_or in Hb as [Hb|Hb].
      * apply in_flat_map in Hb as (t & _ & Hb).
        unfold user_row_buttons in Hb. rewrite Hr in Hb. cbn in Hb.
        destruct (Role.eqb (User.role t) Role.admin); cbn in Hb; [destruct Hb|].
        destruct Hb as [<-|[]]. cbn in Hc. inversion Hc; subst.
        split; trivial. destruct (User.is_banned t); auto.
      * apply in_flat_map in Hb as (x & _ & [<-|[<-|[]]]); discriminate.
  - intros u db0 st db A Hs.
    remember (st, db) as s eqn:Es. revert st db Es.
    induction Hs as [|[st1 db1] [st2 db2] Hs IH Hstep]; intros st db Es.
    + inversion Es; subst. reflexivity.
    + inversion Es; subst; clear Es.
      pose proof (session_user _ _ _ Hs) as Hu. cbn in Hu.
      specialize (IH st1 db1 eq_refl).
      rewrite <- Hu in A.
      apply step_cases in Hstep
        as [(e & -> & ->)|(e & tabs & ex & buttons & shown & b & R & Hb & Hd & -> & ->)].
      * unfold mount. destruct (panel_access (user st1)); trivial.
        rewrite (proj2 (NoLogs e st1 db1 A)). exact IH.
      * destruct (handle_state e (onClick b) st1 db1) as [X|X]; rewrite X; trivial.
        rewrite (proj2 (NoLogs e st1 _ A)). exact IH.
Qed.

Lemma panel_entry_and_admin_only_features_witness :
  panel_access (Some SamplePanel.mira) = true /\
  logs (fst (fetchData SamplePanel.fine (initial (Some SamplePanel.mira))
               SamplePanel.db0)) = [].
Proof.
  split.
  - apply (proj1 panel_entry_and_admin_only_features). left. reflexivity.
  - apply (proj2 (proj1 (proj2 (proj2 (proj2 panel_entry_and_admin_only_features)))
                    SamplePanel.fine (initial (Some SamplePanel.mira))
                    SamplePanel.db0 eq_refl)).
Defined.

End PanelFacts.

(** ** More on the messaging tables *)

Module TriggerMoreFacts.
Import Messaging.
Import TriggerFacts.

(** X6: the UNIQUE constraint of [conversations] refuses a second row
    for a pair and an advertisement, but never a row without an
    advertisement: with a new id, a row for a pair and no advertisement
    is stored whatever the table holds (so for conversations without an
    advertisement the trigger's lookup alone keeps them apart). *)
Theorem unique_constraint_skips_null_advertisement ads gen now user1 user2 tbl :
  (forall ad, In (user1, user2, Some ad) (map key tbl) ->
              insert_conversation ads gen now user1 user2 (Some ad) tbl =
              Err unique_violation) /\
  (~ In gen (map Conversation.id tbl) ->
   insert_conversation ads gen now user1 user2 None tbl =
   Ok (gen, tbl ++ [Conversation.mk gen user1 user2 None None 0 0 now now])).
Proof.
  split.
  - intros ad Hin. unfold insert_conversation.
    destruct (existsb (fun c => (Conversation.id c =? gen)%N) tbl); trivial.
    assert (X : existsb (unique_conflict user1 user2 (Some ad)) tbl = true).
    { apply in_map_iff in Hin as (c & Kc & Hc).
      apply existsb_exists. exists c. split; trivial.
      unfold key in Kc. inversion Kc as [[K1 K2 K3]].
      unfold unique_conflict, sql_eq. rewrite K3. cbn.
      now rewrite !N.eqb_refl. }
    now rewrite X.
  - intros Hg. unfold insert_conversation.
    apply existsb_id_false in Hg. rewrite Hg.
    assert (X : existsb (unique_conflict user1 user2 None) tbl = false).
    { apply not_true_is_false. intros T.
      apply existsb_exists in T as (c & _ & Hc).
      unfold unique_conflict, sql_eq in Hc.
      destruct (Conversation.advertisement_id c),
        (Conversation.user1_id c =? user1)%N,
        (Conversation.user2_id c =? user2)%N; cbn in Hc; discriminate. }
    now rewrite X.
Qed.

Lemma unique_constraint_skips_null_advertisement_witness :
  insert_conversation Sample.ads 300 9 Sample.alice Sample.bob None
    (conversations Sample.tables) =
  Ok (300%N,
      conversations Sample.tables ++
      [Conversation.mk 300 Sample.alice Sample.bob None None 0 0 9 9]).
Proof.
  apply (proj2 (unique_constraint_skips_null_advertisement Sample.ads 300 9
                  Sample.alice Sample.bob (conversations Sample.tables))).
  vm_compute. intuition discriminate.
Defined.

Lemma update_messages_read_ids conversationId uid msgs :
  map Message.id (update_messages_read conversationId uid msgs) = map Message.id msgs.
Proof.
  unfold update_messages_read. rewrite map_map. apply map_ext.
  intros m. now destruct (is_true _).
Qed.

Lemma exec_referential db s : referential db -> referential (exec db s).
Proof.
  intros R.
  destruct s as [ads gen_msg gen_conv now v|conversationId uid|isUser1 conversationId].
  - now rewrite exec_insert_message.
  - intros c m Hc L. cbn in *. rewrite update_messages_read_ids. now apply (R c).
  - intros c m Hc L. cbn in *. unfold update_unread_count in Hc.
    apply in_map_iff in Hc as (c0 & E & Hc0).
    apply (R c0); trivial.
    destruct (Conversation.id c0 =? conversationId)%N; subst c; trivial.
Qed.

Lemma update_unread_count_ids isUser1 conversationId tbl :
  map Conversation.id (update_unread_count isUser1 conversationId tbl) =
  map Conversation.id tbl.
Proof.
  unfold update_unread_count. rewrite map_map. apply map_ext.
  intros c. now destruct (Conversation.id c =? conversationId)%N.
Qed.

Lemma exec_ids db s :
  referential db ->
  map Conversation.id (conversations (exec db s)) =
    map Conversation.id (conversations db) /\
  map Message.id (messages (exec db s)) = map Message.id (messages db).
Proof.
  intros R.
  destruct s as [ads gen_msg gen_conv now v|conversationId uid|isUser1 conversationId].
  - now rewrite exec_insert_message.
  - cbn. now rewrite update_messages_read_ids.
  - cbn. now rewrite update_unread_count_ids.
Qed.

(** X27: where the foreign key of [last_message_id] holds, every
    insert into [messages] is refused, whatever ids are generated,
    whatever the clock, the advertisements and the values: the trigger
    raises, or returns for an id that is taken.  Both tables stay as
    they are; and whatever statements of the repository run afterwards,
    the foreign key keeps holding and both tables keep the rows they
    have, none added and none removed. *)
Theorem message_insert_is_always_refused ads gen_msg gen_conv now db v :
  referential db ->
  (exists e, insert_message ads gen_msg gen_conv now db v = Err e) /\
  exec db (InsertMessage ads gen_msg gen_conv now v) = db /\
  (forall l,
      referential (run db l) /\
      map Conversation.id (conversations (run db l)) =
        map Conversation.id (conversations db) /\
      map Message.id (messages (run db l)) = map Message.id (messages db)).
Proof.
  intros R.
  split; [now apply insert_message_refused|].
  split; [now apply exec_insert_message|].
  intros l. revert db R. unfold run.
  induction l as [|s l IH]; cbn [fold_left]; intros db R; [auto|].
  destruct (IH (exec db s) (exec_referential db s R)) as (R' & Ec & Em).
  destruct (exec_ids db s R) as [Ec' Em'].
  split; trivial. split; congruence.
Qed.

Lemma message_insert_is_always_refused_witness :
  (exists e,
      insert_message Sample.ads 104 204 5 Sample.tables
        (mkvalues Sample.alice Sample.bob None (Some Sample.chair) "Reply") = Err e) /\
  exec Sample.tables
       (InsertMessage Sample.ads 104 204 5
          (mkvalues Sample.alice Sample.bob None (Some Sample.chair) "Reply")) =
  Sample.tables.
Proof.
  destruct (message_insert_is_always_refused Sample.ads 104 204 5 Sample.tables
              (mkvalues Sample.alice Sample.bob None (Some Sample.chair) "Reply"))
    as (H1 & H2 & _).
  - intros c m [<-|[<-|[]]] E; inversion E; cbn; auto.
  - now split.
Defined.

End TriggerMoreFacts.

(** ** The row-level security policies and the statements of the
    messaging code *)

Module PolicyFacts.
Import Messaging Policy.
Import TriggerFacts.

Lemma find_filter_implied {A : Type} (p q : A -> bool) (l : list A) :
  (forall x, p x = true -> q x = true) ->
  find p (filter q l) = find p l.
Proof.
  intros H. induction l as [|a l IH]; cbn; trivial.
  destruct (p a) eqn:P.
  - rewrite (H a P). cbn. now rewrite P.
  - destruct (q a); cbn; rewrite ?P; exact IH.
Qed.

Lemma policy_of_participant uid c :
  uid = Conversation.user1_id c \/ uid = Conversation.user2_id c ->
  is_true (conversations_policy uid c) = true.
Proof.
  unfold conversations_policy, sql_eq.
  intros [-> | ->]; cbn; rewrite N.eqb_refl; cbn; trivial.
  now destruct (_ =? _)%N.
Qed.

Lemma policy_of_stranger uid c :
  uid <> Conversation.user1_id c -> uid <> Conversation.user2_id c ->
  is_true (conversations_policy uid c) = false.
Proof.
  unfold conversations_policy, sql_eq. intros H1 H2. cbn.
  now rewrite (proj2 (N.eqb_neq _ _) H1), (proj2 (N.eqb_neq _ _) H2).
Qed.

Lemma sender_in_canonical_pair sender receiver :
  sender = fst (canonical_pair sender receiver) \/
  sender = snd (canonical_pair sender receiver).
Proof.
  unfold canonical_pair. destruct (sender <? receiver)%N; cbn; auto.
Qed.

Lemma update_metadata_rows_as_visible uid conv_id user1 user2 NEW now tbl :
  (forall c, In c tbl -> Conversation.id c = conv_id ->
             is_true (conversations_policy uid c) = true) ->
  update_metadata_rows_as uid conv_id user1 user2 NEW now tbl =
  update_metadata_rows conv_id user1 user2 NEW now tbl.
Proof.
  induction tbl as [|c tbl IH]; cbn; intros H; trivial.
  rewrite IH by (intros x Hx; apply H; now right).
  destruct (N.eqb_spec (Conversation.id c) conv_id) as [E|E]; cbn; trivial.
  now rewrite (H c (or_introl eq_refl) E).
Qed.

Lemma update_metadata_as_visible uid msgs conv_id user1 user2 NEW now tbl :
  (forall c, In c tbl -> Conversation.id c = conv_id ->
             is_true (conversations_policy uid c) = true) ->
  update_metadata_as uid msgs conv_id user1 user2 NEW now tbl =
  update_metadata msgs conv_id user1 user2 NEW now tbl.
Proof.
  intros H. unfold update_metadata_as, update_metadata.
  now rewrite update_metadata_rows_as_visible.
Qed.

Lemma set_message_conversation_unfold ads gen now msgs tbl NEW :
  set_message_conversation ads gen now msgs tbl NEW =
  ('(conv_id, tbl1) <-
     find_or_create ads gen now
       (fst (canonical_pair (Message.sender_id NEW) (Message.receiver_id NEW)))
       (snd (canonical_pair (Message.sender_id NEW) (Message.receiver_id NEW)))
       (Message.advertisement_id NEW) tbl ;;
   tbl2 <- update_metadata msgs conv_id
             (fst (canonical_pair (Message.sender_id NEW) (Message.receiver_id NEW)))
             (snd (canonical_pair (Message.sender_id NEW) (Message.receiver_id NEW)))
             (Message.set_conversation_id (Some conv_id) NEW) now tbl1 ;;
   Ok (tbl2, Message.set_conversation_id (Some conv_id) NEW)).
Proof.
  unfold set_message_conversation.
  now destruct (canonical_pair _ _).
Qed.

Lemma set_message_conversation_as_sender ads gen now msgs tbl NEW :
  NoDup (map Conversation.id tbl) ->
  set_message_conversation_as (Message.sender_id NEW) ads gen now msgs tbl NEW =
  Some (set_message_conversation ads gen now msgs tbl NEW).
Proof.
  intros ND. rewrite set_message_conversation_unfold.
  unfold set_message_conversation_as, find_or_create.
  pose proof (sender_in_canonical_pair (Message.sender_id NEW)
                (Message.receiver_id NEW)) as Hs.
  destruct (canonical_pair (Message.sender_id NEW) (Message.receiver_id NEW))
    as [user1 user2]. cbn [fst snd] in *.
  set (uid := Message.sender_id NEW) in *.
  set (ad := Message.advertisement_id NEW).
  assert (Vis : forall c, key c = (user1, user2, ad) ->
                          is_true (conversations_policy uid c) = true).
  { intros c Kc. apply policy_of_participant.
    unfold key in Kc. inversion Kc. destruct Hs; [left|right]; congruence. }
  assert (Sel : select_conversation_id user1 user2 ad (visible uid tbl) =
                select_conversation_id user1 user2 ad tbl).
  { unfold select_conversation_id, visible. f_equal.
    apply find_filter_implied. intros c Hc. apply Vis.
    now apply lookup_where_key. }
  rewrite Sel.
  destruct (select_conversation_id user1 user2 ad tbl) as [conv_id|] eqn:S.
  - apply select_some in S as (c0 & Hc0 & E0 & K0).
    rewrite update_metadata_as_visible.
    + unfold bind. now destruct (update_metadata _ _ _ _ _ _ _).
    + intros c Hc Ec. apply Vis.
      assert (c = c0)
        by (apply (NoDup_map_eq Conversation.id tbl); trivial; congruence).
      now subst.
  - rewrite Vis by reflexivity.
    destruct (insert_conversation ads gen now user1 user2 ad tbl) as [[i t1]|e] eqn:I;
      cbn; trivial.
    apply insert_conversation_ok in I as (-> & -> & Hg & _).
    rewrite update_metadata_as_visible.
    + unfold bind. now destruct (update_metadata _ _ _ _ _ _ _).
    + intros c Hc Ec. apply in_app_or in Hc as [Hc|[<-|[]]].
      * apply existsb_id_false in Hg. destruct Hg.
        rewrite <- Ec. now apply in_map.
      * now apply Vis.
Qed.

Lemma set_message_conversation_sender ads gen now msgs tbl NEW tbl' NEW' :
  set_message_conversation ads gen now msgs tbl NEW = Ok (tbl', NEW') ->
  NEW' = Message.set_conversation_id (Message.conversation_id NEW') NEW.
Proof.
  rewrite set_message_conversation_unfold. unfold bind.
  destruct (find_or_create _ _ _ _ _ _ tbl) as [[i t1]|]; [|discriminate].
  destruct (update_metadata _ _ _ _ _ _ t1); intros H; inv H. reflexivity.
Qed.

Lemma set_message_conversation_as_sender_kept uid ads gen now msgs tbl NEW tbl' NEW' :
  set_message_conversation_as uid ads gen now msgs tbl NEW = Some (Ok (tbl', NEW')) ->
  Message.sender_id NEW' = Message.sender_id NEW.
Proof.
  unfold set_message_conversation_as.
  destruct (canonical_pair _ _) as [user1 user2].
  destruct (select_conversation_id _ _ _ _) as [i|].
  - unfold bind. destruct (update_metadata_as _ _ _ _ _ _ _ _); intros H; inv H.
    reflexivity.
  - destruct (is_true _); [|discriminate]. unfold bind.
    destruct (insert_conversation _ _ _ _ _ _ _) as [[i t1]|]; [|discriminate].
    destruct (update_metadata_as _ _ _ _ _ _ _ _); intros H; inv H. reflexivity.
Qed.

(** X7: run with the caller's rights under the policies of the two
    tables, a message insert whose sender is the caller does exactly
    what it does without the policies (the conversation of its key is
    always visible to the sender); and no message is ever stored whose
    sender is not the caller. *)
Theorem policies_leave_own_inserts_alone uid ads gen_msg gen_conv now db v :
  NoDup (map Conversation.id (conversations db)) ->
  (uid = v_sender_id v ->
   insert_message_as uid ads gen_msg gen_conv now db v =
   Some (insert_message ads gen_msg gen_conv now db v)) /\
  (forall db' data,
      insert_message_as uid ads gen_msg gen_conv now db v = Some (Ok (db', data)) ->
      Message.sender_id data = uid).
Proof.
  intros ND. split.
  - intros ->. unfold insert_message_as, insert_message.
    pose proof (set_message_conversation_as_sender ads gen_conv now (messages db)
                  (conversations db)
                  (Message.mk gen_msg (v_sender_id v) (v_receiver_id v)
                     (v_conversation_id v) (v_advertisement_id v) (v_content v)
                     false now) ND) as T.
    cbn [Message.sender_id] in T. rewrite T.
    destruct (set_message_conversation ads gen_conv now (messages db)
                (conversations db) _) as [[convs NEW']|e] eqn:Tr; cbn; trivial.
    apply set_message_conversation_sender in Tr. rewrite Tr.
    unfold messages_insert_check, sql_eq. cbn. now rewrite N.eqb_refl.
  - intros db' data. unfold insert_message_as.
    destruct (set_message_conversation_as uid ads gen_conv now (messages db)
                (conversations db) _) as [[[convs NEW']|e]|] eqn:Tr; try discriminate.
    unfold messages_insert_check, sql_eq. cbn.
    destruct (N.eqb_spec uid (Message.sender_id NEW')) as [E|E]; [|discriminate].
    destruct (existsb _ (messages db)); [discriminate|].
    destruct (_ && _); intros H; inv H. reflexivity.
Qed.

Lemma sample_tables_primary_key :
  NoDup (map Conversation.id (conversations Sample.tables)).
Proof.
  cbn. constructor; [intros [H|[]]; discriminate H|].
  constructor; [intros []|constructor].
Qed.

Lemma policies_leave_own_inserts_alone_witness :
  insert_message_as Sample.alice Sample.ads 104 204 5 Sample.tables
    (mkvalues Sample.alice Sample.bob None None "Reply") =
  Some (insert_message Sample.ads 104 204 5 Sample.tables
          (mkvalues Sample.alice Sample.bob None None "Reply")).
Proof.
  apply (proj1 (policies_leave_own_inserts_alone Sample.alice Sample.ads 104 204 5
                  Sample.tables
                  (mkvalues Sample.alice Sample.bob None None "Reply")
                  sample_tables_primary_key)).
  reflexivity.
Defined.

(** X8: under the policies, the read-state reset of [markMessagesAsRead]
    is not cut down for a participant: the messages update only names
    rows addressed to the caller, which the update policy admits, and
    the counter reset reaches the conversation when the caller is one
    of its two users; for a caller who is neither, the counter reset
    changes nothing. *)
Theorem policies_and_read_state_reset uid conversationId isUser1 msgs tbl :
  update_messages_read_as uid conversationId uid msgs =
  update_messages_read conversationId uid msgs /\
  ((forall c, In c tbl -> Conversation.id c = conversationId ->
              uid = Conversation.user1_id c \/ uid = Conversation.user2_id c) ->
   update_unread_count_as uid isUser1 conversationId tbl =
   update_unread_count isUser1 conversationId tbl) /\
  ((forall c, In c tbl -> Conversation.id c = conversationId ->
              uid <> Conversation.user1_id c /\ uid <> Conversation.user2_id c) ->
   update_unread_count_as uid isUser1 conversationId tbl = tbl).
Proof.
  split; [|split].
  - unfold update_messages_read_as, update_messages_read. apply map_ext.
    intros m. unfold messages_update_using, sql_eq.
    rewrite (N.eqb_sym uid (Message.receiver_id m)).
    destruct (Message.conversation_id m) as [c|];
      [destruct (c =? conversationId)%N|];
      destruct (Message.receiver_id m =? uid)%N, (Message.is_read m);
      reflexivity.
  - intros H. unfold update_unread_count_as, update_unread_count.
    apply map_ext_in. intros c Hc.
    destruct (N.eqb_spec (Conversation.id c) conversationId) as [E|E];
      cbn [andb]; trivial.
    now rewrite (policy_of_participant uid c (H c Hc E)).
  - intros H. unfold update_unread_count_as.
    rewrite <- (map_id tbl) at 2. apply map_ext_in. intros c Hc.
    destruct (N.eqb_spec (Conversation.id c) conversationId) as [E|E];
      cbn [andb]; trivial.
    destruct (H c Hc E) as [H1 H2].
    now rewrite (policy_of_stranger uid c H1 H2).
Qed.

Lemma policies_and_read_state_reset_witness :
  update_unread_count_as 99 false 200 (conversations Sample.tables) =
  conversations Sample.tables.
Proof.
  apply (proj2 (proj2 (policies_and_read_state_reset 99 200 false []
                         (conversations Sample.tables)))).
  intros c Hc E. vm_compute in Hc.
  destruct Hc as [<-|[<-|[]]]; split; discriminate.
Defined.

End PolicyFacts.

(** ** More on the messaging modal *)

Module ModalMoreFacts.
Import Client MessagingModal ModalMore.
Import PgFacts TriggerFacts ModalFacts.

(** *** ORDER BY ... DESC *)

Lemma insert_by_sorted {A : Type} (rank : A -> Z) (x : A) (l : list A) :
  StronglySorted (fun a b => (rank b <= rank a)%Z) l ->
  StronglySorted (fun a b => (rank b <= rank a)%Z)
                 (insert_by (fun a b => (rank b <? rank a)%Z) x l).
Proof.
  induction 1 as [|y l Hs IH Hy]; cbn.
  - repeat constructor.
  - destruct (Z.ltb_spec (rank y) (rank x)) as [L|L].
    + constructor; [now constructor|].
      constructor; [lia|].
      eapply Forall_impl; [|exact Hy]. cbn. intros z Hz. lia.
    + constructor; trivial.
      apply Forall_forall. intros z Hz. apply in_insert_by in Hz as [->|Hz]; trivial.
      rewrite Forall_forall in Hy. now apply Hy.
Qed.

Lemma order_by_sorted {A : Type} (rank : A -> Z) (l : list A) :
  StronglySorted (fun a b => (rank b <= rank a)%Z)
                 (order_by (fun a b => (rank b <? rank a)%Z) l).
Proof.
  unfold order_by. induction l as [|x l IH]; cbn; [constructor|].
  now apply insert_by_sorted.
Qed.

(** X9: when the conversations query is applied, [fetchConversations]
    loads exactly the conversations of the table in which the user is
    user1 or user2, each once, most recently updated first; when it is
    not, the list stays as it was and an error toast is shown. *)
Theorem fetch_conversations_lists_own_newest_first r st db u :
  user st = Some u ->
  (r = Client.Applied ->
   (forall c, In c (conversations (fst (fetchConversations r st db))) <->
              In c (Messaging.conversations db) /\
              (Conversation.user1_id c = User.id u \/
               Conversation.user2_id c = User.id u)) /\
   List.length (conversations (fst (fetchConversations r st db))) =
   List.length (filter (fun c => (Conversation.user1_id c =? User.id u)%N
                                 || (Conversation.user2_id c =? User.id u)%N)
                       (Messaging.conversations db)) /\
   StronglySorted (fun a b => (Conversation.updated_at b <= Conversation.updated_at a)%Z)
                  (conversations (fst (fetchConversations r st db)))) /\
  (r <> Client.Applied ->
   fst (fetchConversations r st db) = st /\
   In (toast_error "Помилка завантаження розмов: ")
      (snd (fetchConversations r st db))).
Proof.
  intros Hu. unfold fetchConversations. rewrite Hu. split.
  - intros ->. cbn [fst conversations set_conversations].
    unfold select_conversations, order_by_updated_at_desc.
    assert (P : forall c,
               is_true (sql_or (sql_eq (Some (Conversation.user1_id c)) (Some (User.id u)))
                               (sql_eq (Some (Conversation.user2_id c)) (Some (User.id u)))) =
               (Conversation.user1_id c =? User.id u)%N
               || (Conversation.user2_id c =? User.id u)%N).
    { intros c. unfold sql_eq. cbn.
      now destruct (_ =? _)%N, (_ =? _)%N. }
    split; [|split].
    + intros c. rewrite in_order_by, filter_In, P, orb_true_iff, !N.eqb_eq.
      reflexivity.
    + rewrite length_order_by. f_equal. apply filter_ext. exact P.
    + apply (order_by_sorted Conversation.updated_at).
  - intros Hr. destruct r; [congruence| |]; cbn; auto.
Qed.

Lemma fetch_conversations_lists_own_newest_first_witness :
  List.length
    (conversations (fst (fetchConversations Client.Applied
                           (initial (Some SampleModal.alice)) SampleModal.db1))) =
  List.length
    (filter (fun c => (Conversation.user1_id c =? Sample.alice)%N
                      || (Conversation.user2_id c =? Sample.alice)%N)
            (Messaging.conversations SampleModal.db1)).
Proof.
  apply (proj1 (fetch_conversations_lists_own_newest_first Client.Applied
                  (initial (Some SampleModal.alice)) SampleModal.db1
                  SampleModal.alice eq_refl) eq_refl).
Defined.

(** *** When [sendMessage] stays silent *)

(** X11: [sendMessage] issues no request exactly when nobody is logged
    in, no conversation is selected, the trimmed text is empty, or the
    selected conversation is not in the loaded list; and then neither
    the state nor the tables change. *)
Theorem send_message_silent_cases e st db :
  (snd (sendMessage e st db) = [] <->
   user st = None \/ selectedConversation st = None \/
   trim (newMessage st) = EmptyString \/
   exists selected, selectedConversation st = Some selected /\
                    Messaging.lookup_id selected (conversations st) = None) /\
  (snd (sendMessage e st db) = [] -> fst (sendMessage e st db) = (st, db)).
Proof.
  unfold sendMessage, Messaging.lookup_id.
  destruct (user st) as [u|]; [|cbn; split; [split|]; auto].
  destruct (selectedConversation st) as [selected|]; [|cbn; split; [split|]; auto].
  destruct (trim (newMessage st)) as [|a t] eqn:Et.
  - cbn. split; trivial. split; trivial. intros _.
    right. right. now left.
  - destruct (find _ (conversations st)) as [conversation|] eqn:F.
    + assert (N : snd (match remote_insert e db
                               (message_to_send (User.id u) conversation selected
                                                (newMessage st)) with
                       | Some (db', data) =>
                           let (st1, ev) :=
                             fetchConversations (fetch_reply e) (sent data st) db' in
                           (st1, db',
                            request (InsertInto_messages
                                       (message_to_send (User.id u) conversation
                                                        selected (newMessage st)))
                              :: ev)
                       | None =>
                           (st, db,
                            [request (InsertInto_messages
                                        (message_to_send (User.id u) conversation
                                                         selected (newMessage st)));
                             toast_error "Помилка відправки повідомлення: "])
                       end) <> []).
      { destruct (remote_insert _ _ _) as [[db' data]|]; [|discriminate].
        destruct (fetchConversations _ _ _). discriminate. }
      split; [|intros X; now destruct N].
      split; [intros X; now destruct N|].
      intros [X|[X|[X|(sel & X & Y)]]]; try discriminate.
      inversion X; subst sel. congruence.
    + cbn. split; trivial. split; trivial. intros _.
      right. right. right. now exists selected.
Qed.

(** What [trim] strips is more than the ASCII blanks: a no-break space
    in front and an ideographic space behind go as well. *)
Lemma trim_unicode_example :
  trim (String (Ascii.ascii_of_nat 194) (String (Ascii.ascii_of_nat 160)
          (String (Ascii.ascii_of_nat 32)
             (String (Ascii.ascii_of_nat 111) (String (Ascii.ascii_of_nat 107)
                (String (Ascii.ascii_of_nat 227) (String (Ascii.ascii_of_nat 128)
                   (String (Ascii.ascii_of_nat 128)
                      (String (Ascii.ascii_of_nat 10) EmptyString))))))))) =
  "ok"%string.
Proof. reflexivity. Qed.

(** *** Marking as read twice *)

Lemma update_messages_read_idempotent conversationId uid msgs :
  Messaging.update_messages_read conversationId uid
    (Messaging.update_messages_read conversationId uid msgs) =
  Messaging.update_messages_read conversationId uid msgs.
Proof.
  unfold Messaging.update_messages_read. rewrite map_map. apply map_ext.
  intros m.
  destruct (is_true (sql_and (sql_and (sql_eq (Message.conversation_id m)
                                              (Some conversationId))
                                      (sql_eq (Some (Message.receiver_id m)) (Some uid)))
                             (Some (Bool.eqb (Message.is_read m) false)))) eqn:E;
    [|now rewrite E].
  cbn [Message.set_is_read Message.conversation_id Message.receiver_id
       Message.is_read Bool.eqb].
  destruct (sql_and (sql_eq _ _) (sql_eq _ _)) as [[|]|]; reflexivity.
Qed.

Lemma update_unread_count_twice b1 conversationId (tbl : list Conversation.t) :
  Messaging.update_unread_count b1 conversationId
    (Messaging.update_unread_count b1 conversationId tbl) =
  Messaging.update_unread_count b1 conversationId tbl.
Proof.
  unfold Messaging.update_unread_count. rewrite map_map. apply map_ext.
  intros c. destruct (N.eqb_spec (Conversation.id c) conversationId) as [E|E].
  - cbn [Messaging.reset_unread_row Conversation.id]. rewrite <- E at 1.
    rewrite N.eqb_refl. unfold Messaging.reset_unread_row. cbn. now destruct b1.
  - now apply N.eqb_neq in E as ->.
Qed.

(** X12: after a [markMessagesAsRead] of which both updates were
    applied, a second one for the same conversation from the same
    screen leaves both tables as they are, whatever its two updates
    come to. *)
Theorem mark_as_read_again_changes_nothing r1 r2 conversationId st db :
  fst (markMessagesAsRead r1 r2 conversationId st
         (fst (markMessagesAsRead Applied Applied conversationId st db))) =
  fst (markMessagesAsRead Applied Applied conversationId st db).
Proof.
  unfold markMessagesAsRead.
  destruct (user st) as [u|]; [|reflexivity].
  destruct (find _ (conversations st)) as [conversation|].
  - destruct r1, r2; cbn [fst Messaging.exec Messaging.conversations Messaging.messages];
      rewrite ?update_messages_read_idempotent, ?update_unread_count_twice;
      reflexivity.
  - destruct r1; cbn [fst Messaging.exec Messaging.conversations Messaging.messages];
      rewrite ?update_messages_read_idempotent; reflexivity.
Qed.

(** *** [fetchMessages] *)





End ModalMoreFacts.

(** ** More on the advertisements table *)

Module AdsMoreFacts.
Import Ads AdsMore.
Import TriggerFacts AdsFacts.

Lemma existsb_ad_id gen (tbl : list Advertisement.t) :
  existsb (fun a => (Advertisement.id a =? gen)%N) tbl = true <->
  In gen (map Advertisement.id tbl).
Proof.
  rewrite existsb_exists, in_map_iff. split.
  - intros (a & Ha & E). apply N.eqb_eq in E. now exists a.
  - intros (a & E & Ha). exists a. split; trivial. now apply N.eqb_eq.
Qed.

Lemma create_advertisement_without_contact gen now p tbl :
  p_discord p = None -> p_telegram p = None ->
  create_advertisement gen now p tbl = Err (raise_exception contact_required).
Proof. unfold create_advertisement. now intros -> ->. Qed.

Lemma create_advertisement_with_contact_runs gen now p tbl :
  p_discord p <> None \/ p_telegram p <> None ->
  create_advertisement gen now p tbl =
  match p_category p, p_subcategory p, p_title p, p_description p with
  | Some cat, Some sub, Some ti, Some de =>
      if existsb (fun a => (Advertisement.id a =? gen)%N) tbl
      then Err unique_violation
      else
        Ok (Advertisement.mk gen (p_user_id p) cat sub ti de (p_images p)
              (p_discord p) (p_telegram p) (p_price p) (p_is_vip p) (Some now),
            tbl ++ [Advertisement.mk gen (p_user_id p) cat sub ti de (p_images p)
                      (p_discord p) (p_telegram p) (p_price p) (p_is_vip p)
                      (Some now)])
  | _, _, _, _ => Err not_null_violation
  end.
Proof.
  intros C. unfold create_advertisement, insert, constrain, bind,
    check_at_least_one_contact.
  cbn [Advertisement.c_id Advertisement.c_category Advertisement.c_subcategory
       Advertisement.c_title Advertisement.c_description Advertisement.c_images
       Advertisement.c_discord_contact Advertisement.c_telegram_contact
       Advertisement.c_price Advertisement.c_is_vip Advertisement.c_created_at
       Advertisement.c_user_id].
  assert (T : is_true (sql_and (sql_is_null (p_discord p))
                               (sql_is_null (p_telegram p))) = false /\
              check_passes (sql_or (sql_is_not_null (p_discord p))
                                   (sql_is_not_null (p_telegram p))) = true).
  { destruct (p_discord p), (p_telegram p); cbn; auto.
    destruct C; congruence. }
  destruct T as [-> T].
  destruct (p_category p), (p_subcategory p), (p_title p), (p_description p);
    trivial.
  now rewrite T.
Qed.

(** X15: [create_advertisement] raises its own exception exactly when
    both contacts are NULL, and never fails on the table's CHECK
    constraint; and when it stores a row, a contact was given, category,
    subcategory, title and description were not NULL, the generated id
    was free, and the row carries the arguments and is appended to the
    table. *)
Theorem create_advertisement_outcome gen now p tbl :
  create_advertisement gen now p tbl <> Err check_violation /\
  (create_advertisement gen now p tbl = Err (raise_exception contact_required) <->
   p_discord p = None /\ p_telegram p = None) /\
  (forall a tbl',
     create_advertisement gen now p tbl = Ok (a, tbl') ->
     (p_discord p <> None \/ p_telegram p <> None) /\
     ~ In gen (map Advertisement.id tbl) /\
     exists cat sub ti de,
       p_category p = Some cat /\ p_subcategory p = Some sub /\
       p_title p = Some ti /\ p_description p = Some de /\
       a = Advertisement.mk gen (p_user_id p) cat sub ti de (p_images p)
             (p_discord p) (p_telegram p) (p_price p) (p_is_vip p) (Some now) /\
       tbl' = tbl ++ [a]).
Proof.
  assert (D : (p_discord p = None /\ p_telegram p = None) \/
              (p_discord p <> None \/ p_telegram p <> None)).
  { destruct (p_discord p); [right; left; discriminate|].
    destruct (p_telegram p); [right; right; discriminate|]. now left. }
  destruct D as [[Ed Et]|C].
  - rewrite (create_advertisement_without_contact _ _ _ _ Ed Et).
    split; [discriminate|]. split; [tauto|].
    intros a tbl'. discriminate.
  - rewrite (create_advertisement_with_contact_runs _ _ _ _ C).
    pose proof (existsb_ad_id gen tbl) as X.
    destruct (p_category p) as [cat|], (p_subcategory p) as [sub|],
      (p_title p) as [ti|], (p_description p) as [de|].
    2-16: split; [discriminate|];
      (split; [split; [discriminate|intros [? ?]; destruct C; contradiction]|]);
      intros a tbl'; discriminate.
    destruct (existsb _ tbl) eqn:Ex.
    + split; [discriminate|].
      split; [split; [discriminate|intros [? ?]; destruct C; contradiction]|].
      intros a tbl'. discriminate.
    + split; [discriminate|].
      split; [split; [discriminate|intros [? ?]; destruct C; contradiction]|].
      intros a tbl' H. inversion H; subst a tbl'; clear H.
      split; trivial. split.
      { intros Hin. apply X in Hin. discriminate. }
      exists cat, sub, ti, de. repeat split.
Qed.

(** *** The primary key *)

Lemma distinct_NoDup l : distinct l = true -> NoDup l.
Proof.
  induction l as [|x l IH]; cbn; intros H; constructor.
  - apply andb_true_iff in H as [H _]. intros Hin.
    apply negb_true_iff in H.
    assert (T : existsb (N.eqb x) l = true).
    { apply existsb_exists. exists x. split; trivial. apply N.eqb_refl. }
    congruence.
  - apply andb_true_iff in H as [_ H]. auto.
Qed.

Lemma NoDup_distinct l : NoDup l -> distinct l = true.
Proof.
  induction 1 as [|x l Hx _ IH]; cbn; trivial.
  rewrite IH, andb_true_r. apply negb_true_iff, not_true_is_false.
  intros T. apply existsb_exists in T as (y & Hy & E).
  apply N.eqb_eq in E. now subst y.
Qed.

Lemma constrain_id c a :
  constrain c = Ok a -> Advertisement.c_id c = Some (Advertisement.id a).
Proof.
  unfold constrain.
  destruct (Advertisement.c_id c), (Advertisement.c_category c),
    (Advertisement.c_subcategory c), (Advertisement.c_title c),
    (Advertisement.c_description c); try discriminate.
  destruct (check_passes _); intros H; inv H. reflexivity.
Qed.

Lemma insert_NoDup c tbl a tbl' :
  NoDup (map Advertisement.id tbl) -> insert c tbl = Ok (a, tbl') ->
  NoDup (map Advertisement.id tbl').
Proof.
  unfold insert, bind. intros ND.
  destruct (constrain c) as [row|]; [|discriminate].
  destruct (existsb _ tbl) eqn:Ex; [discriminate|].
  intros H; inv H. rewrite map_app. cbn.
  assert (Hn : ~ In (Advertisement.id a) (map Advertisement.id tbl)).
  { intros Hin. apply existsb_ad_id in Hin. congruence. }
  clear Ex. induction tbl as [|x tbl IH]; cbn in *.
  - constructor; [tauto|constructor].
  - inv ND. constructor.
    + rewrite in_app_iff. cbn. intuition congruence.
    + apply IH; trivial. tauto.
Qed.

Lemma delete_NoDup where_ tbl :
  NoDup (map Advertisement.id tbl) -> NoDup (map Advertisement.id (delete where_ tbl)).
Proof.
  unfold delete. induction tbl as [|x tbl IH]; cbn; intros ND; trivial.
  inv ND. destruct (negb (where_ x)); cbn; auto.
  constructor; auto.
  intros Hin. apply H1. apply in_map_iff in Hin as (y & E & Hy).
  apply filter_In in Hy as [Hy _]. rewrite <- E. now apply in_map.
Qed.

Lemma exec_NoDup tbl s :
  NoDup (map Advertisement.id tbl) -> NoDup (map Advertisement.id (exec tbl s)).
Proof.
  intros ND. unfold exec.
  destruct (run_statement tbl s) as [tbl'|] eqn:R; trivial.
  destruct s as [gen now p|c|set where_|where_]; cbn in R; unfold bind in R.
  - unfold create_advertisement in R.
    destruct (is_true _); [discriminate|].
    destruct (insert _ tbl) as [[a t]|] eqn:I; [|discriminate].
    inv R. eapply insert_NoDup; eauto.
  - destruct (insert c tbl) as [[a t]|] eqn:I; [|discriminate].
    inv R. eapply insert_NoDup; eauto.
  - unfold update, bind in R.
    destruct (update_rows set where_ tbl) as [t|]; [|discriminate].
    destruct (distinct _) eqn:D; [|discriminate].
    inv R. now apply distinct_NoDup.
  - inv R. now apply delete_NoDup.
Qed.

(** X16: whatever statements run against the advertisements table
    (the function, plain inserts, updates with any SET list and WHERE
    clause, deletes; failed ones included), no two stored rows have the
    same id. *)
Theorem advertisement_ids_stay_distinct tbl :
  reachable tbl -> NoDup (map Advertisement.id tbl).
Proof.
  induction 1 as [|tbl s _ IH]; [constructor|now apply exec_NoDup].
Qed.

Lemma advertisement_ids_stay_distinct_witness :
  NoDup (map Advertisement.id (fold_left exec SampleAds.history [])).
Proof.
  apply (advertisement_ids_stay_distinct _ (reachable_fold SampleAds.history)).
Defined.

(** *** [UPDATE advertisements SET is_vip] *)

(** On rows that have a contact, the update of the VIP flag never
    fails, whatever its WHERE clause. *)
Lemma update_rows_is_vip v where_ tbl :
  Forall has_contact tbl ->
  update_rows
    (fun a => Advertisement.propose
                (Some (Advertisement.id a)) (Advertisement.user_id a)
                (Some (Advertisement.category a)) (Some (Advertisement.subcategory a))
                (Some (Advertisement.title a)) (Some (Advertisement.description a))
                (Advertisement.images a) (Advertisement.discord_contact a)
                (Advertisement.telegram_contact a) (Advertisement.price a)
                (Some v) (Advertisement.created_at a))
    where_ tbl =
  Ok (map (fun a => if where_ a then with_is_vip v a else a) tbl).
Proof.
  induction 1 as [|a tbl Ha _ IH]; [reflexivity|].
  cbn [update_rows map]. rewrite IH. unfold bind.
  destruct (where_ a); trivial.
  unfold constrain, check_at_least_one_contact, with_is_vip. cbn.
  destruct Ha as [Ha|Ha].
  - destruct (Advertisement.discord_contact a); [|congruence].
    now destruct (Advertisement.telegram_contact a).
  - destruct (Advertisement.telegram_contact a); [|congruence].
    now destruct (Advertisement.discord_contact a).
Qed.

Lemma map_with_is_vip_ids v (where_ : Advertisement.t -> bool) tbl :
  map Advertisement.id
      (map (fun a => if where_ a then with_is_vip v a else a) tbl) =
  map Advertisement.id tbl.
Proof.
  rewrite map_map. apply map_ext. intros a.
  now destruct (where_ a).
Qed.

Lemma update_is_vip_ok v adId tbl :
  well_formed tbl ->
  AdminPanel.update_is_vip v adId tbl =
  Ok (map (fun a => if (Advertisement.id a =? adId)%N then with_is_vip v a else a) tbl).
Proof.
  intros [ND F]. unfold AdminPanel.update_is_vip, update.
  rewrite update_rows_is_vip by trivial. unfold bind.
  now rewrite map_with_is_vip_ids, NoDup_distinct.
Qed.

Lemma update_is_vip_as_ok uid v adId tbl :
  well_formed tbl ->
  AdminPanel.update_is_vip_as uid v adId tbl =
  Ok (map (fun a => if (Advertisement.id a =? adId)%N
                       && is_true (AdminPanel.own_advertisement uid a)
                    then with_is_vip v a else a) tbl).
Proof.
  intros [ND F]. unfold AdminPanel.update_is_vip_as, update.
  rewrite update_rows_is_vip by trivial. unfold bind.
  now rewrite map_with_is_vip_ids, NoDup_distinct.
Qed.

End AdsMoreFacts.

(** ** More on the admin panel *)

Module PanelMoreFacts.
Import Client AdminPanel PanelMore.
Import PgFacts TriggerFacts PanelFacts.

(** *** The VIP flag of an advertisement *)

Lemma with_is_vip_well_formed v (where_ : Advertisement.t -> bool) tbl :
  AdsMore.well_formed tbl ->
  AdsMore.well_formed
    (map (fun a => if where_ a then AdsMore.with_is_vip v a else a) tbl).
Proof.
  intros [ND F]. split.
  - now rewrite AdsMoreFacts.map_with_is_vip_ids.
  - apply Forall_forall. intros a Ha. apply in_map_iff in Ha as (x & <- & Hx).
    rewrite Forall_forall in F. specialize (F x Hx).
    destruct (where_ x); trivial.
Qed.

(** X17: on a table that satisfies its primary key and its contact
    constraint, an applied promotion or demotion never takes the error
    branch and always shows the success toast, but under the update
    policy it writes only to an advertisement of the caller: the
    advertisement with the given id gets the opposite of the VIP flag
    shown on the button if the caller owns it, and stays as it is if
    not; every other row and every other column stay as they are, the
    users table is not touched, and the table still satisfies its
    constraints. *)
Theorem promote_flips_vip_flag_of_own_advertisement e adId isVip st db :
  AdsMore.well_formed (advertisements db) ->
  primary_reply e = Applied ->
  advertisements (snd (fst (handlePromoteAd e adId isVip st db))) =
    map (fun a => if (Advertisement.id a =? adId)%N
                     && is_true (own_advertisement (caller e) a)
                  then AdsMore.with_is_vip (negb isVip) a else a)
        (advertisements db) /\
  users (snd (fst (handlePromoteAd e adId isVip st db))) = users db /\
  In (toast_success (if isVip then vip_removed else vip_granted))
     (snd (handlePromoteAd e adId isVip st db)) /\
  AdsMore.well_formed (advertisements (snd (fst (handlePromoteAd e adId isVip st db)))).
Proof.
  intros W E.
  pose proof (AdsMoreFacts.update_is_vip_as_ok (caller e) (negb isVip) adId _ W) as U.
  rewrite (handlePromoteAd_result _ _ _ _ _ _ E U). cbn [fst snd].
  destruct (logAction_tables e (user st)
              (if isVip then "demote_advertisement" else "promote_advertisement")%string
              (ad_owner (find (fun x => (Advertisement.id (ad x) =? adId)%N)
                              (advertisements_list st)))
              (Some (ad_details adId
                       (find (fun x => (Advertisement.id (ad x) =? adId)%N)
                             (advertisements_list st))))
              (mkdb (users db)
                    (map (fun a => if (Advertisement.id a =? adId)%N
                                      && is_true (own_advertisement (caller e) a)
                                   then AdsMore.with_is_vip (negb isVip) a else a)
                         (advertisements db))
                    (admin_logs db))) as [Eu Ea].
  rewrite Eu, Ea. cbn [users advertisements].
  split; trivial. split; trivial. split.
  - right. apply in_or_app. right. now left.
  - now apply with_is_vip_well_formed.
Qed.

Lemma promote_flips_vip_flag_of_own_advertisement_witness :
  advertisements (snd (fst (handlePromoteAd as_owner 50 false
                              (initial (Some SamplePanel.carol)) db1))) =
  [AdsMore.with_is_vip true chair_ad].
Proof.
  apply (promote_flips_vip_flag_of_own_advertisement as_owner 50 false
           (initial (Some SamplePanel.carol)) db1).
  - split.
    + constructor; [cbn; tauto|constructor].
    + constructor; [right; discriminate|constructor].
  - reflexivity.
Defined.

(** *** Deleting an advertisement *)

Lemma fetchData_all_applied e st db :
  users_reply e = Applied -> ads_reply e = Applied -> logs_reply e = Applied ->
  users_list (fst (fetchData e st db)) = select_users db /\
  advertisements_list (fst (fetchData e st db)) = select_advertisements db.
Proof.
  intros E1 E2 E3. unfold fetchData. rewrite E1, E2, E3.
  now destruct (is_admin (user st)).
Qed.

(** X18: a confirmed and applied deletion removes from the table the
    advertisements with the given id that the caller owns (the delete
    policy hides the others) and no other row, does not touch the users
    table, and when the refresh that follows goes through, the screen
    shows advertisements that are left in the table: none of the
    caller's with that id. *)
Theorem deletion_removes_own_advertisement_only e adId st db :
  confirmed e = true ->
  primary_reply e = Applied ->
  (forall a, In a (advertisements (snd (fst (handleDeleteAd e adId st db)))) <->
             In a (advertisements db) /\
             (Advertisement.id a <> adId \/
              is_true (own_advertisement (caller e) a) = false)) /\
  users (snd (fst (handleDeleteAd e adId st db))) = users db /\
  (users_reply e = Applied -> ads_reply e = Applied -> logs_reply e = Applied ->
   forall x, In x (advertisements_list (fst (fst (handleDeleteAd e adId st db)))) ->
             In (ad x) (advertisements db) /\
             (Advertisement.id (ad x) <> adId \/
              is_true (own_advertisement (caller e) (ad x)) = false)).
Proof.
  intros C E. rewrite (handleDeleteAd_result _ _ _ _ E C). cbn [fst snd].
  set (logged := logAction _ _ _ _ _ _).
  destruct (logAction_tables e (user st) "delete_advertisement"
              (ad_owner (find (fun x => (Advertisement.id (ad x) =? adId)%N)
                              (advertisements_list st)))
              (Some (ad_details adId
                       (find (fun x => (Advertisement.id (ad x) =? adId)%N)
                             (advertisements_list st))))
              (mkdb (users db)
                    (delete_as (caller e) adId (advertisements db))
                    (admin_logs db))) as [Eu Ea].
  fold logged in Eu, Ea. cbn [users advertisements] in Eu, Ea.
  assert (D : forall a, In a (advertisements (fst logged)) <->
                        In a (advertisements db) /\
                        (Advertisement.id a <> adId \/
                         is_true (own_advertisement (caller e) a) = false)).
  { intros a. rewrite Ea. unfold delete_as, Ads.delete.
    rewrite filter_In, negb_true_iff, andb_false_iff, N.eqb_neq.
    reflexivity. }
  split; trivial. split; trivial.
  intros E1 E2 E3 x Hx.
  rewrite (proj2 (fetchData_all_applied _ st (fst logged) E1 E2 E3)) in Hx.
  unfold select_advertisements in Hx.
  apply in_map_iff in Hx as (a & <- & Ha). cbn [ad].
  apply in_order_by in Ha. now apply D.
Qed.

Lemma deletion_removes_own_advertisement_only_witness :
  ~ In chair_ad
       (advertisements (snd (fst (handleDeleteAd as_owner 50
                                    (initial (Some SamplePanel.carol)) db1)))).
Proof.
  intros H.
  apply (proj1 (deletion_removes_own_advertisement_only as_owner 50
                  (initial (Some SamplePanel.carol)) db1 eq_refl eq_refl)) in H.
  destruct H as [_ [H|H]].
  - now apply H.
  - discriminate H.
Defined.

(** *** What a button of a users row does *)

Lemma user_row_button_update actor t b :
  In b (user_row_buttons actor t) ->
  exists action newRole,
    onClick b = UserAction (User.id t) action newRole /\
    In (action_label action newRole) button_labels /\
    ((choose_updateData action newRole = set_is_banned (negb (User.is_banned t)) /\
      disabled b = false) \/
     (choose_updateData action newRole = set_role Role.vip /\
      disabled b = Role.eqb (User.role t) Role.vip /\
      User.role actor = Role.admin) \/
     (choose_updateData action newRole = set_role Role.moderator /\
      disabled b = Role.eqb (User.role t) Role.moderator /\
      User.role actor = Role.admin)).
Proof.
  unfold user_row_buttons. intros Hin.
  destruct (Role.eqb (User.role t) Role.admin) eqn:T.
  - rewrite andb_false_r in Hin. destruct Hin.
  - destruct (Role.eqb (User.role actor) Role.admin) eqn:A; cbn in Hin.
    + apply role_eqb_eq in A.
      destruct Hin as [<-|[<-|[<-|[]]]]; cbn [onClick disabled].
      * exists "role"%string, (Some Role.vip). split; trivial.
        split; [cbn; tauto|]. right. left. auto.
      * exists "role"%string, (Some Role.moderator). split; trivial.
        split; [cbn; tauto|]. right. right. auto.
      * exists (if User.is_banned t then "unban" else "ban")%string, None.
        split; trivial. destruct (User.is_banned t); cbn; split; auto.
    + destruct Hin as [<-|[]]; cbn [onClick disabled].
      exists (if User.is_banned t then "unban" else "ban")%string, None.
      split; trivial. destruct (User.is_banned t); cbn; split; auto.
Qed.

(** X19: among the buttons of a users row, the disabled ones are exactly
    those whose update would leave the row as it is shown: a button is
    disabled if and only if applying its update to the shown row gives
    the same row back. *)
Theorem disabled_buttons_are_the_idle_ones actor t b i action newRole :
  In b (user_row_buttons actor t) ->
  onClick b = UserAction i action newRole ->
  i = User.id t /\
  (disabled b = true <->
   apply_updateData (choose_updateData action newRole) t = t).
Proof.
  intros Hin Hc.
  apply user_row_button_update in Hin as (action' & newRole' & Hc' & _ & Hd).
  rewrite Hc in Hc'. inversion Hc'; subst i action' newRole'; clear Hc'.
  split; trivial.
  destruct t as [ti tn tp tr tb tc]. cbn [User.id User.role User.is_banned] in *.
  destruct Hd as [ [-> ->] | [ (-> & -> & _) | (-> & -> & _) ] ]; cbn.
  - split; [discriminate|]. intros H. inversion H. now destruct tb.
  - rewrite role_eqb_eq. split; [now intros ->|]. intros H. now inversion H.
  - rewrite role_eqb_eq. split; [now intros ->|]. intros H. now inversion H.
Qed.

Lemma disabled_buttons_are_the_idle_ones_witness :
  3%N = User.id SamplePanel.carol /\
  (false = true <->
   apply_updateData (choose_updateData "role" (Some Role.vip)) SamplePanel.carol =
   SamplePanel.carol).
Proof.
  apply (disabled_buttons_are_the_idle_ones SamplePanel.root SamplePanel.carol
           (mkbutton (UserAction 3 "role" (Some Role.vip)) false)
           3 "role"%string (Some Role.vip)).
  - left. reflexivity.
  - reflexivity.
Defined.

(** *** A session and the users table *)

Lemma moderated_refl a : moderated a a.
Proof. unfold moderated. auto 10. Qed.

Lemma Forall2_moderated_refl l : Forall2 moderated l l.
Proof. induction l; constructor; auto using moderated_refl. Qed.

Lemma Forall2_update_users (R : User.t -> User.t -> Prop) d i l0 l :
  (forall a x, R a x -> R a (apply_updateData d x)) ->
  Forall2 R l0 l -> Forall2 R l0 (update_users d i l).
Proof.
  intros Step. induction 1 as [|a x l0 l Hax _ IH]; cbn; constructor; trivial.
  destruct (User.id x =? i)%N; auto.
Qed.

Lemma moderated_step d a x :
  d = set_is_banned true \/ d = set_is_banned false \/
  d = set_role Role.vip \/ d = set_role Role.moderator ->
  moderated a x -> moderated a (apply_updateData d x).
Proof.
  unfold moderated. intros D (H1 & H2 & H3 & H4 & H5).
  destruct D as [-> | [-> | [-> | ->] ] ]; cbn; auto 10.
Qed.

Lemma click_users actor st db e b :
  user st = Some actor ->
  In b (flat_map (user_row_buttons actor) (users_list st)
          ++ flat_map ad_row_buttons (advertisements_list st)) ->
  users (snd (fst (handle e (onClick b) st db))) = users db \/
  exists d i,
    users (snd (fst (handle e (onClick b) st db))) = update_users d i (users db) /\
    (d = set_is_banned true \/ d = set_is_banned false \/
     ((d = set_role Role.vip \/ d = set_role Role.moderator) /\
      User.role actor = Role.admin)).
Proof.
  intros Hu Hb. apply in_app_or in Hb as [Hb|Hb].
  - apply in_flat_map in Hb as (t & Ht & Hb).
    apply user_row_button_update in Hb as (action & newRole & Hc & _ & Hd).
    rewrite Hc. cbn [handle].
    destruct (handleUserAction_users e (User.id t) action newRole st db) as [E|E];
      [now left|].
    right. exists (choose_updateData action newRole), (User.id t).
    split; trivial.
    destruct Hd as [ [-> _] | [ (-> & _ & A) | (-> & _ & A) ] ]; auto.
    destruct (User.is_banned t); cbn; auto.
  - left. apply in_flat_map in Hb as (x & Hx & Hb).
    apply handle_ad_users. destruct Hb as [<-|[<-|[]]]; cbn; discriminate.
Qed.

Lemma render_panel st tabs export_button buttons shown_logs :
  render st = panel tabs export_button buttons shown_logs ->
  exists actor,
    user st = Some actor /\
    buttons = flat_map (user_row_buttons actor) (users_list st)
                ++ flat_map ad_row_buttons (advertisements_list st).
Proof.
  unfold render. destruct (user st) as [actor|]; [|discriminate].
  destruct (hasPermission actor _); [|discriminate].
  intros H. inversion H. now exists actor.
Qed.

(** X20: over a whole panel session (mount effects and presses of
    enabled buttons on the screen, whatever the remote calls reply) the
    users table keeps its rows, in place: none is added or removed, and
    of each row only the ban flag and the role can differ from the
    start, the role, where it differs, being vip or moderator; in the
    session of someone who is not an admin no role changes at all. *)
Theorem session_only_moderates_users u db0 st db :
  session u db0 (st, db) ->
  Forall2 moderated (users db0) (users db) /\
  (is_admin u = false ->
   map User.role (users db) = map User.role (users db0)).
Proof.
  intros S.
  remember (st, db) as s eqn:Es. revert st db Es.
  induction S as [|[st1 db1] s' S1 IH Hstep]; intros st db Es; subst.
  - inversion Es; subst. split; [apply Forall2_moderated_refl|reflexivity].
  - destruct (IH st1 db1 eq_refl) as [F Rl].
    pose proof (session_user _ _ _ S1) as Hu. cbn [fst] in Hu.
    apply step_cases in Hstep
      as [(e & -> & ->)|(e & tabs & ex & buttons & shown & b & R & Hb & Hd & Hst & Hdb)];
      [now split|].
    apply render_panel in R as (actor & Ha & ->).
    destruct (click_users actor st1 db1 e b Ha Hb) as [E|(d & i & E & D)];
      rewrite <- Hdb in E; rewrite E; [now split|].
    split.
    + apply Forall2_update_users; trivial.
      intros a x. apply moderated_step. tauto.
    + intros Hn. rewrite <- Rl by trivial.
      rewrite <- Hu, Ha in Hn. cbn [is_admin] in Hn. apply role_eqb_neq in Hn.
      unfold update_users. rewrite map_map. apply map_ext. intros x.
      destruct (User.id x =? i)%N; trivial.
      destruct D as [-> | [-> | [_ A] ] ]; trivial. contradiction.
Qed.

Lemma session_only_moderates_users_witness :
  Forall2 moderated (users SamplePanel.db0)
    (users (snd (fst (handle SamplePanel.fine (UserAction 3 "ban" None)
                        (fst (mount SamplePanel.fine (initial (Some SamplePanel.mira))
                                    SamplePanel.db0))
                        SamplePanel.db0)))).
Proof.
  apply (session_only_moderates_users (Some SamplePanel.mira) SamplePanel.db0
           (fst (fst (handle SamplePanel.fine (UserAction 3 "ban" None)
                        (fst (mount SamplePanel.fine (initial (Some SamplePanel.mira))
                                    SamplePanel.db0))
                        SamplePanel.db0)))).
  apply (session_click (Some SamplePanel.mira) SamplePanel.db0 SamplePanel.fine
           (fst (mount SamplePanel.fine (initial (Some SamplePanel.mira))
                       SamplePanel.db0))
           SamplePanel.db0
           [stats_tab; users_tab; ads_tab] false
           [mkbutton (UserAction 3 "ban" None) false;
            mkbutton (UserAction 2 "ban" None) false]
           None
           (mkbutton (UserAction 3 "ban" None) false)).
  - apply session_mount. constructor.
  - reflexivity.
  - left. reflexivity.
  - reflexivity.
Defined.

(** *** A session and the audit log *)

Lemma logAction_logs e actor action target d db :
  admin_logs (fst (logAction e actor action target d db)) = admin_logs db \/
  exists l,
    admin_logs (fst (logAction e actor action target d db)) = admin_logs db ++ [l] /\
    AdminLog.admin_id l = option_map User.id actor /\
    AdminLog.action l = action /\
    AdminLog.target_user_id l = target.
Proof.
  unfold logAction, insert_admin_log.
  destruct (log_reply e); cbn; auto.
  destruct (existsb _ (admin_logs db)); cbn; auto.
  right. eexists. split; [reflexivity|]. cbn. auto.
Qed.

Lemma handle_logs e c st db :
  admin_logs (snd (fst (handle e c st db))) = admin_logs db \/
  exists l,
    admin_logs (snd (fst (handle e c st db))) = admin_logs db ++ [l] /\
    AdminLog.admin_id l = option_map User.id (user st) /\
    AdminLog.action l = label_of c.
Proof.
  destruct c as [i a r|adId isVip|adId]; cbn [handle label_of].
  - destruct (primary_reply e) eqn:E.
    + destruct (update_users_as_either (caller e) (choose_updateData a r) i (users db))
        as (users' & U & _).
      rewrite (handleUserAction_result _ _ _ _ _ _ _ E U). cbn [fst snd].
      destruct (logAction_logs e (user st) (action_label a r) (Some i)
                  (Some (AdminLog.user_action a r
                           (option_map User.nickname
                              (find (fun u => (User.id u =? i)%N) (users_list st)))))
                  (mkdb users' (advertisements db) (admin_logs db)))
        as [L|(l & L & L1 & L2 & _)]; [now left|].
      right. now exists l.
    + rewrite handleUserAction_refused by congruence. now left.
    + rewrite handleUserAction_refused by congruence. now left.
  - destruct (primary_reply e) eqn:E.
    + destruct (update_is_vip_as (caller e) (negb isVip) adId (advertisements db))
        as [ads'|] eqn:U.
      * rewrite (handlePromoteAd_result _ _ _ _ _ _ E U). cbn [fst snd].
        destruct (logAction_logs e (user st)
                    (if isVip then "demote_advertisement"
                     else "promote_advertisement")%string
                    (ad_owner (find (fun x => (Advertisement.id (ad x) =? adId)%N)
                                    (advertisements_list st)))
                    (Some (ad_details adId
                             (find (fun x => (Advertisement.id (ad x) =? adId)%N)
                                   (advertisements_list st))))
                    (mkdb (users db) ads' (admin_logs db)))
          as [L|(l & L & L1 & L2 & _)]; [now left|].
        right. now exists l.
      * unfold handlePromoteAd. rewrite E, U. now left.
    + unfold handlePromoteAd. rewrite E. now left.
    + unfold handlePromoteAd. rewrite E. now left.
  - destruct (confirmed e) eqn:C.
    + destruct (primary_reply e) eqn:E.
      * rewrite handleDeleteAd_result by trivial. cbn [fst snd].
        destruct (logAction_logs e (user st) "delete_advertisement"
                    (ad_owner (find (fun x => (Advertisement.id (ad x) =? adId)%N)
                                    (advertisements_list st)))
                    (Some (ad_details adId
                             (find (fun x => (Advertisement.id (ad x) =? adId)%N)
                                   (advertisements_list st))))
                    (mkdb (users db)
                          (delete_as (caller e) adId (advertisements db))
                          (admin_logs db)))
          as [L|(l & L & L1 & L2 & _)]; [now left|].
        right. now exists l.
      * unfold handleDeleteAd. rewrite E, C. now left.
      * unfold handleDeleteAd. rewrite E, C. now left.
    + unfold handleDeleteAd. rewrite C. now left.
Qed.

Lemma shown_button_label actor st b :
  In b (flat_map (user_row_buttons actor) (users_list st)
          ++ flat_map ad_row_buttons (advertisements_list st)) ->
  In (label_of (onClick b)) button_labels.
Proof.
  intros Hb. apply in_app_or in Hb as [Hb|Hb].
  - apply in_flat_map in Hb as (t & _ & Hb).
    apply user_row_button_update in Hb as (action & newRole & -> & L & _).
    exact L.
  - apply in_flat_map in Hb as (x & _ & Hb).
    destruct Hb as [<-|[<-|[]]]; cbn [onClick label_of].
    + destruct (match Advertisement.is_vip (ad x) with Some b => b | None => false end);
        cbn; tauto.
    + cbn. tauto.
Qed.

(** X21: over a whole panel session the audit log only grows at its
    end: the rows it had at the start stay as they are, in place, and
    every row that the session adds carries the id of the session's
    user as [admin_id] and one of the seven action labels of the
    panel's buttons. *)
Theorem session_log_is_append_only u db0 st db :
  session u db0 (st, db) ->
  exists added,
    admin_logs db = admin_logs db0 ++ added /\
    Forall (fun l => AdminLog.admin_id l = option_map User.id u /\
                     In (AdminLog.action l) button_labels) added.
Proof.
  intros S.
  remember (st, db) as s eqn:Es. revert st db Es.
  induction S as [|[st1 db1] s' S1 IH Hstep]; intros st db Es; subst.
  - inversion Es; subst. exists []. split; [now rewrite app_nil_r|constructor].
  - destruct (IH st1 db1 eq_refl) as (added & Ea & Fa).
    pose proof (session_user _ _ _ S1) as Hu. cbn [fst] in Hu.
    apply step_cases in Hstep
      as [(e & -> & ->)|(e & tabs & ex & buttons & shown & b & R & Hb & Hd & Hst & Hdb)];
      [now exists added|].
    apply render_panel in R as (actor & Ha & ->).
    destruct (handle_logs e (onClick b) st1 db1) as [L|(l & L & L1 & L2)];
      rewrite <- Hdb in L; rewrite L.
    + now exists added.
    + exists (added ++ [l]). split; [now rewrite Ea, app_assoc|].
      apply Forall_app. split; trivial.
      constructor; [|constructor]. split.
      * now rewrite L1, Hu.
      * rewrite L2. eapply shown_button_label; eauto.
Qed.

Lemma session_log_is_append_only_witness :
  exists added,
    admin_logs (snd (fst (handle SamplePanel.fine (UserAction 3 "ban" None)
                            (fst (mount SamplePanel.fine
                                        (initial (Some SamplePanel.mira))
                                        SamplePanel.db0))
                            SamplePanel.db0))) =
    admin_logs SamplePanel.db0 ++ added /\
    Forall (fun l => AdminLog.admin_id l = option_map User.id (Some SamplePanel.mira) /\
                     In (AdminLog.action l) button_labels) added.
Proof.
  apply (session_log_is_append_only (Some SamplePanel.mira) SamplePanel.db0
           (fst (fst (handle SamplePanel.fine (UserAction 3 "ban" None)
                        (fst (mount SamplePanel.fine (initial (Some SamplePanel.mira))
                                    SamplePanel.db0))
                        SamplePanel.db0)))).
  apply (session_click (Some SamplePanel.mira) SamplePanel.db0 SamplePanel.fine
           (fst (mount SamplePanel.fine (initial (Some SamplePanel.mira))
                       SamplePanel.db0))
           SamplePanel.db0
           [stats_tab; users_tab; ads_tab] false
           [mkbutton (UserAction 3 "ban" None) false;
            mkbutton (UserAction 2 "ban" None) false]
           None
           (mkbutton (UserAction 3 "ban" None) false)).
  - apply session_mount. constructor.
  - reflexivity.
  - left. reflexivity.
  - reflexivity.
Defined.

(** *** A mutation that is refused *)

(** X22: when the mutation of an action does not go through (an error
    comes back or the call is rejected), whichever of the three
    handlers it is, the screen and all three tables stay as they are,
    no audit-log insert is requested and no success toast is shown; an
    error toast is shown, unless it was a deletion that the user did not
    confirm, which does nothing at all. *)
Theorem refused_action_changes_nothing e c st db :
  primary_reply e <> Applied ->
  fst (handle e c st db) = (st, db) /\
  (forall text, ~ In (toast_success text) (snd (handle e c st db))) /\
  (forall a l t d, ~ In (request (Insert_admin_logs a l t d)) (snd (handle e c st db))) /\
  ((exists text, In (toast_error text) (snd (handle e c st db))) \/
   ((exists adId, c = DeleteAd adId) /\ confirmed e = false /\
    snd (handle e c st db) = [])).
Proof.
  intros H.
  destruct c as [i a r|adId isVip|adId]; cbn [handle].
  - rewrite handleUserAction_refused by trivial. cbn;
      (split; [reflexivity|]);
      (split; [intros text [X|[X|[]]]; discriminate|]);
      (split; [intros ? ? ? ? [X|[X|[]]]; discriminate|]);
      left; eexists; right; left; reflexivity.
  - unfold handlePromoteAd.
    destruct (primary_reply e); [congruence| |]; cbn;
      (split; [reflexivity|]);
      (split; [intros text [X|[X|[]]]; discriminate|]);
      (split; [intros ? ? ? ? [X|[X|[]]]; discriminate|]);
      left; eexists; right; left; reflexivity.
  - unfold handleDeleteAd. destruct (confirmed e).
    + destruct (primary_reply e); [congruence| |]; cbn;
        (split; [reflexivity|]);
        (split; [intros text [X|[X|[]]]; discriminate|]);
        (split; [intros ? ? ? ? [X|[X|[]]]; discriminate|]);
        left; eexists; right; left; reflexivity.
    + cbn. split; [reflexivity|]. split; [intros text []|].
      split; [intros ? ? ? ? []|]. right. split; [now exists adId|auto].
Qed.

Lemma refused_action_changes_nothing_witness :
  fst (handle refused (UserAction 3 "ban" None) (initial (Some SamplePanel.root))
              SamplePanel.db0) =
  (initial (Some SamplePanel.root), SamplePanel.db0).
Proof.
  apply (refused_action_changes_nothing refused (UserAction 3 "ban" None)
           (initial (Some SamplePanel.root)) SamplePanel.db0).
  discriminate.
Defined.

(** *** The log tab *)

Lemma StronglySorted_app_inv {A : Type} (R : A -> A -> Prop) (l1 l2 : list A) :
  StronglySorted R (l1 ++ l2) ->
  StronglySorted R l1 /\ forall a b, In a l1 -> In b l2 -> R a b.
Proof.
  induction l1 as [|x l1 IH]; cbn; intros S.
  - split; [constructor|]. intros a b [].
  - inversion S as [|y l Sl Fl]; subst. destruct (IH Sl) as [S1 Cross].
    rewrite Forall_app in Fl. destruct Fl as [F1 F2]. split.
    + now constructor.
    + intros a b [<-|Ha] Hb; [|now apply Cross].
      rewrite Forall_forall in F2. now apply F2.
Qed.

(** X23: when the refresh of an admin's panel goes through, the log tab
    holds the most recent rows of the audit log, newest first and at
    most fifty: every row shown is a stored row, and every stored row
    that is not shown is no newer than each row that is. *)
Theorem log_tab_shows_newest_fifty e st db :
  is_admin (user st) = true ->
  users_reply e <> Rejected -> ads_reply e <> Rejected -> logs_reply e = Applied ->
  List.length (logs (fst (fetchData e st db))) =
    Nat.min 50 (List.length (admin_logs db)) /\
  StronglySorted (fun a b => (AdminLog.created_at b <= AdminLog.created_at a)%Z)
                 (logs (fst (fetchData e st db))) /\
  (forall l, In l (logs (fst (fetchData e st db))) -> In l (admin_logs db)) /\
  (forall l, In l (admin_logs db) ->
             In l (logs (fst (fetchData e st db))) \/
             forall s, In s (logs (fst (fetchData e st db))) ->
                       (AdminLog.created_at l <= AdminLog.created_at s)%Z).
Proof.
  intros A Eu Ea El.
  assert (L : logs (fst (fetchData e st db)) = select_admin_logs db).
  { unfold fetchData. rewrite A, El.
    destruct (users_reply e), (ads_reply e); try congruence; reflexivity. }
  rewrite L. unfold select_admin_logs.
  set (sorted := order_by _ (admin_logs db)).
  assert (S : StronglySorted
                (fun a b => (AdminLog.created_at b <= AdminLog.created_at a)%Z) sorted)
    by apply (ModalMoreFacts.order_by_sorted AdminLog.created_at).
  rewrite <- (firstn_skipn 50 sorted) in S.
  apply StronglySorted_app_inv in S as [S1 Cross].
  split; [|split; [exact S1|split]].
  - rewrite length_firstn. unfold sorted. now rewrite length_order_by.
  - intros l Hl.
    assert (X : In l sorted).
    { rewrite <- (firstn_skipn 50 sorted). apply in_or_app. now left. }
    unfold sorted in X. now apply in_order_by in X.
  - intros l Hl.
    assert (X : In l sorted) by (unfold sorted; now apply in_order_by).
    rewrite <- (firstn_skipn 50 sorted) in X. rename X into Hl'. clear Hl.
    rename Hl' into Hl.
    apply in_app_or in Hl as [Hl|Hl]; [now left|].
    right. intros s Hs. now apply (Cross s l).
Qed.

Lemma log_tab_shows_newest_fifty_witness :
  List.length (logs (fst (fetchData SamplePanel.fine (initial (Some SamplePanel.root))
                                    SamplePanel.db0))) =
  Nat.min 50 (List.length (admin_logs SamplePanel.db0)).
Proof.
  apply (log_tab_shows_newest_fifty SamplePanel.fine (initial (Some SamplePanel.root))
           SamplePanel.db0); try reflexivity; discriminate.
Defined.

(** *** The audit trail of an action *)

(** X26: when the mutation of an admin action has gone through (ban,
    unban, role change; advertisement deletion once confirmed; VIP
    promotion or demotion), the next request is the audit-log insert
    with the actor's id, the target, the action label and the detail
    object, followed by the success toast and the refresh; the action's
    error toast is not shown.  The tables hold what the policy let the
    mutation write, whatever becomes of the log insert; a log insert
    that is not applied leaves the log table as it was, and the console
    gets a message exactly when the insert call was rejected. *)
Theorem audit_log_insert_follows_the_mutation e st db :
  primary_reply e = Applied ->
  (forall targetUserId action newRole,
      audited e (user st)
        (Update_users (choose_updateData action newRole) targetUserId)
        (action_label action newRole) (Some targetUserId)
        (AdminLog.user_action action newRole
           (option_map User.nickname
              (find (fun u => (User.id u =? targetUserId)%N) (users_list st))))
        action_done action_failed
        (snd (handleUserAction e targetUserId action newRole st db)) /\
      update_users_as (caller e) (choose_updateData action newRole) targetUserId
                      (users db) =
        Some (users (snd (fst (handleUserAction e targetUserId action newRole st db)))) /\
      (log_reply e <> Applied ->
       admin_logs (snd (fst (handleUserAction e targetUserId action newRole st db))) =
       admin_logs db)) /\
  (confirmed e = true ->
   forall adId,
      audited e (user st) (Delete_advertisements adId) "delete_advertisement"
        (ad_owner (find (fun x => (Advertisement.id (ad x) =? adId)%N)
                        (advertisements_list st)))
        (ad_details adId
           (find (fun x => (Advertisement.id (ad x) =? adId)%N)
                 (advertisements_list st)))
        ad_deleted ad_delete_failed
        (snd (handleDeleteAd e adId st db)) /\
      advertisements (snd (fst (handleDeleteAd e adId st db))) =
        delete_as (caller e) adId (advertisements db) /\
      (log_reply e <> Applied ->
       admin_logs (snd (fst (handleDeleteAd e adId st db))) = admin_logs db)) /\
  (forall adId isVip ads',
      update_is_vip_as (caller e) (negb isVip) adId (advertisements db) = Ok ads' ->
      audited e (user st) (Update_advertisements_is_vip (negb isVip) adId)
        (if isVip then "demote_advertisement" else "promote_advertisement")
        (ad_owner (find (fun x => (Advertisement.id (ad x) =? adId)%N)
                        (advertisements_list st)))
        (ad_details adId
           (find (fun x => (Advertisement.id (ad x) =? adId)%N)
                 (advertisements_list st)))
        (if isVip then vip_removed else vip_granted) vip_failed
        (snd (handlePromoteAd e adId isVip st db)) /\
      advertisements (snd (fst (handlePromoteAd e adId isVip st db))) = ads' /\
      (log_reply e <> Applied ->
       admin_logs (snd (fst (handlePromoteAd e adId isVip st db))) = admin_logs db)).
Proof.
  intros E. split; [|split].
  - intros targetUserId action newRole.
    destruct (update_users_as_either (caller e) (choose_updateData action newRole)
                targetUserId (users db)) as (users' & U & _).
    rewrite (handleUserAction_result _ _ _ _ _ _ _ E U). cbn [fst snd].
    split; [|split].
    + apply audited_intro. apply String.eqb_neq. reflexivity.
    + now rewrite (proj1 (logAction_tables _ _ _ _ _ _)).
    + intros L. now rewrite logAction_failed.
  - intros C adId.
    rewrite handleDeleteAd_result by trivial. cbn [fst snd].
    split; [|split].
    + apply audited_intro. apply String.eqb_neq. reflexivity.
    + now rewrite (proj2 (logAction_tables _ _ _ _ _ _)).
    + intros L. now rewrite logAction_failed.
  - intros adId isVip ads' U.
    rewrite (handlePromoteAd_result _ _ _ _ _ _ E U). cbn [fst snd].
    split; [|split].
    + apply audited_intro. apply String.eqb_neq. reflexivity.
    + now rewrite (proj2 (logAction_tables _ _ _ _ _ _)).
    + intros L. now rewrite logAction_failed.
Qed.

Lemma audit_log_insert_follows_the_mutation_witness :
  audited SamplePanel.log_down (Some SamplePanel.mira)
    (Update_users (set_is_banned true) 3) "ban" (Some 3%N)
    (AdminLog.user_action "ban" None None) action_done action_failed
    (snd (handleUserAction SamplePanel.log_down 3 "ban" None
            (initial (Some SamplePanel.mira)) SamplePanel.db0)) /\
  admin_logs (snd (fst (handleUserAction SamplePanel.log_down 3 "ban" None
                          (initial (Some SamplePanel.mira)) SamplePanel.db0))) = [].
Proof.
  destruct (proj1 (audit_log_insert_follows_the_mutation SamplePanel.log_down
                     (initial (Some SamplePanel.mira)) SamplePanel.db0 eq_refl)
              3%N "ban"%string None) as (Ha & _ & Hl).
  split.
  - exact Ha.
  - rewrite Hl; [reflexivity|]. vm_compute. discriminate.
Defined.

End PanelMoreFacts.

(** ** The update policy of the users table *)

Module UsersPolicyFacts.
Import AdminPanel.
Import PanelFacts.

(** X24: under the update policy of the users table, the update that
    the panel sends for a target never fails, and it changes the table
    only when the target is the caller: for the caller's own id it does
    what the update does without the policy, and for any other target,
    or when no user context is set, it leaves every row as it is. *)
Theorem users_policy_confines_update_to_own_row uid d targetUserId tbl :
  exists tbl',
    update_users_as uid d targetUserId tbl = Some tbl' /\
    (uid = Some targetUserId -> tbl' = update_users d targetUserId tbl) /\
    (uid <> Some targetUserId -> tbl' = tbl).
Proof.
  induction tbl as [|u tbl (tbl' & E & Own & Other)]; cbn [update_users_as].
  - exists []. auto.
  - rewrite E. unfold update_own_profile. rewrite apply_updateData_id.
    unfold sql_eq. destruct uid as [caller|]; cbn [is_true].
    + destruct (N.eqb_spec (User.id u) targetUserId) as [Et|Et];
        destruct (N.eqb_spec caller (User.id u)) as [Ec|Ec]; cbn [andb].
      * eexists. split; [reflexivity|]. split.
        -- intros H. rewrite (Own H). cbn. apply N.eqb_eq in Et. now rewrite Et.
        -- intros H. destruct H. congruence.
      * eexists. split; [reflexivity|]. split.
        -- intros H. inversion H. congruence.
        -- intros H. now rewrite (Other H).
      * eexists. split; [reflexivity|]. split.
        -- intros H. rewrite (Own H). cbn. apply N.eqb_neq in Et. now rewrite Et.
        -- intros H. now rewrite (Other H).
      * eexists. split; [reflexivity|]. split.
        -- intros H. rewrite (Own H). cbn. apply N.eqb_neq in Et. now rewrite Et.
        -- intros H. now rewrite (Other H).
    + rewrite andb_false_r. eexists. split; [reflexivity|]. split.
      * discriminate.
      * intros H. now rewrite (Other H).
Qed.

End UsersPolicyFacts.

(** ** The update and delete policies of the advertisements table *)

Module AdsPolicyFacts.
Import Ads AdsMore AdminPanel.
Import TriggerFacts AdsMoreFacts.

Lemma update_rows_ext set where1 where2 tbl :
  (forall a, In a tbl -> where1 a = where2 a) ->
  update_rows set where1 tbl = update_rows set where2 tbl.
Proof.
  induction tbl as [|a tbl IH]; cbn; intros H; trivial.
  rewrite (H a) by now left. rewrite IH; trivial.
  intros x Hx. apply H. now right.
Qed.

Lemma update_rows_nowhere set tbl :
  update_rows set (fun _ => false) tbl = Ok tbl.
Proof.
  induction tbl as [|a tbl IH]; cbn; trivial. now rewrite IH.
Qed.

Lemma own_advertisement_true uid a :
  is_true (own_advertisement uid a) = true <->
  uid <> None /\ Advertisement.user_id a = uid.
Proof.
  unfold own_advertisement, sql_eq.
  destruct uid as [x|], (Advertisement.user_id a) as [y|]; cbn;
    try (split; [discriminate|intros [? ?]; congruence]).
  destruct (N.eqb_spec x y) as [->|E]; split; trivial.
  - split; [discriminate|reflexivity].
  - discriminate.
  - intros [_ H]. congruence.
Qed.

(** X25: under the update and delete policies of the advertisements
    table (on a table that satisfies its primary key and its contact
    constraint), the panel's VIP update and its deletion act only on
    advertisements of the caller: when the caller owns every row with
    the given id they do what they do without the policies, and when
    the caller owns none of them (or no user context is set) both run
    without an error and leave the table as it is. *)
Theorem advertisement_policies_confine_moderation_to_owner uid v adId tbl :
  well_formed tbl ->
  ((forall a, In a tbl -> Advertisement.id a = adId ->
              uid <> None /\ Advertisement.user_id a = uid) ->
   update_is_vip_as uid v adId tbl = AdminPanel.update_is_vip v adId tbl /\
   delete_as uid adId tbl =
   delete (fun a => (Advertisement.id a =? adId)%N) tbl) /\
  ((forall a, In a tbl -> Advertisement.id a = adId ->
              uid = None \/ Advertisement.user_id a <> uid) ->
   update_is_vip_as uid v adId tbl = Ok tbl /\
   delete_as uid adId tbl = tbl).
Proof.
  intros [ND F]. split; intros H.
  - assert (W : forall a, In a tbl ->
                  (Advertisement.id a =? adId)%N && is_true (own_advertisement uid a) =
                  (Advertisement.id a =? adId)%N).
    { intros a Ha. destruct (N.eqb_spec (Advertisement.id a) adId) as [E|E]; trivial.
      cbn. apply own_advertisement_true. now apply H. }
    split.
    + unfold update_is_vip_as, AdminPanel.update_is_vip, update.
      now rewrite (update_rows_ext _ _ _ _ W).
    + unfold delete_as, delete. apply filter_ext_in. intros a Ha. now rewrite W.
  - assert (W : forall a, In a tbl ->
                  (Advertisement.id a =? adId)%N && is_true (own_advertisement uid a) =
                  false).
    { intros a Ha. destruct (N.eqb_spec (Advertisement.id a) adId) as [E|E]; trivial.
      cbn. apply not_true_is_false. intros T.
      apply own_advertisement_true in T as [T1 T2].
      destruct (H a Ha E); contradiction. }
    split.
    + unfold update_is_vip_as, update.
      rewrite (update_rows_ext _ _ (fun _ => false) _ W), update_rows_nowhere.
      unfold bind. now rewrite NoDup_distinct.
    + unfold delete_as, delete.
      rewrite (filter_ext_in _ (fun _ => true)).
      * clear. induction tbl as [|a tbl IH]; cbn; congruence.
      * intros a Ha. now rewrite W.
Qed.

Lemma advertisement_policies_confine_moderation_to_owner_witness :
  update_is_vip_as (Some 1%N) true 50 [PanelMore.chair_ad] = Ok [PanelMore.chair_ad] /\
  delete_as (Some 1%N) 50 [PanelMore.chair_ad] = [PanelMore.chair_ad].
Proof.
  apply (advertisement_policies_confine_moderation_to_owner
           (Some 1%N) true 50 [PanelMore.chair_ad]).
  - split.
    + constructor; [cbn; tauto|constructor].
    + constructor; [right; discriminate|constructor].
  - intros a [<-|[]] _. right. discriminate.
Defined.

End AdsPolicyFacts.
